(** * upload_server: a shallow embedding of the configuration-driven
      MQTT / REST bridge (upload_server.js and upload_server.mjs)

    JavaScript strings are [string]; optional object properties are
    [option]; `x || y` and `if (x)` are written out through the
    truthiness of the value; exceptions are the [Throw] branch of
    [result]; module-level variables are fields of the server state. *)

From Stdlib Require Import ZArith NArith QArith Ascii String List Bool Lia.
From stdpp Require Import base option list strings gmap fin_maps.

#[global] Set Warnings "-clear-no-such-hyp".

(** ** JavaScript values and exceptions *)

Inductive result (A : Type) : Type :=
| Ok (a : A)
| Throw (message : string).
Arguments Ok {A} a.
Arguments Throw {A} message.

Global Instance result_ret : MRet result := λ A a, Ok a.
Global Instance result_bind : MBind result := λ A B k r,
  match r with
  | Ok a => k a
  | Throw e => Throw e
  end.

(** Truthiness of an optional string property: `undefined`, `null`
    and the empty string are falsy. *)
Definition truthy (o : option string) : bool :=
  match o with
  | Some s => negb (String.eqb s "")
  | None => false
  end.

(** ** String primitives *)

Module JsString.

Definition isSlash (c : ascii) : bool := Ascii.eqb c "/".
Definition isDot (c : ascii) : bool := Ascii.eqb c ".".
Definition isBackslash (c : ascii) : bool := Ascii.eqb c "\".

(** [s.split('/')] *)
Fixpoint split (s : string) : list string :=
  match s with
  | EmptyString => [""]
  | String c s' =>
      if isSlash c then "" :: split s'
      else match split s' with
           | w :: ws => String c w :: ws
           | [] => [String c ""]
           end
  end.

(** [segs.join('/')] *)
Definition joinSlash (segs : list string) : string := String.concat "/" segs.

(** [s.startsWith(p)] *)
Definition startsWith (s p : string) : bool := String.prefix p s.

Fixpoint endsWithSlash (s : string) : bool :=
  match s with
  | EmptyString => false
  | String c EmptyString => isSlash c
  | String _ s' => endsWithSlash s'
  end.

(** [s.replace(/\\/g, '/')] *)
Fixpoint replaceBackslashes (s : string) : string :=
  match s with
  | EmptyString => EmptyString
  | String c s' =>
      String (if isBackslash c then "/"%char else c) (replaceBackslashes s')
  end.

(** [s.replace(/\.{2,}/g, '')]: every maximal run of two or more dots
    is removed; [run] counts the dots read since the last other
    character, a run of exactly one dot is put back. *)
Fixpoint stripDotRunsFrom (run : nat) (s : string) : string :=
  match s with
  | EmptyString => if Nat.eqb run 1 then "." else ""
  | String c s' =>
      if isDot c then stripDotRunsFrom (S run) s'
      else if Nat.eqb run 1 then String "." (String c (stripDotRunsFrom 0 s'))
      else String c (stripDotRunsFrom 0 s')
  end.
Definition stripDotRuns (s : string) : string := stripDotRunsFrom 0 s.

(** [s.replace(/\.\./g, '')]: non-overlapping pairs of dots, left to
    right, are removed. *)
Fixpoint stripDotPairs (s : string) : string :=
  match s with
  | EmptyString => EmptyString
  | String c s' =>
      match s' with
      | String d s'' =>
          if isDot c && isDot d then stripDotPairs s''
          else String c (stripDotPairs s')
      | EmptyString => String c EmptyString
      end
  end.


(** A string without a slash is its own single segment. *)
Definition slashFree (s : string) : Prop := split s = [s].

(** Index-free form of [s.lastIndexOf('.')]: the text from the last dot
    on, and whether a dot was seen. *)
Fixpoint fromLastDot (s : string) : option string :=
  match s with
  | EmptyString => None
  | String c s' =>
      match fromLastDot s' with
      | Some e => Some e
      | None => if isDot c then Some s else None
      end
  end.

End JsString.

(** ** Node's [path] module, POSIX flavour

    [path.join], [path.normalize], [path.resolve], [path.isAbsolute]
    and [path.extname] as Node documents and implements them, written
    over the list of segments that [normalizeString] walks through. *)

Module Path.
Import JsString.

Definition isAbsolute (p : string) : bool :=
  match p with
  | String c _ => isSlash c
  | EmptyString => false
  end.

(** One segment of [normalizeString]: [acc] is the result so far, last
    segment first. *)
Definition step (allowAboveRoot : bool) (acc : list string) (seg : string)
  : list string :=
  if String.eqb seg "" || String.eqb seg "." then acc
  else if String.eqb seg ".." then
    match acc with
    | top :: rest =>
        if String.eqb top ".." then
          (if allowAboveRoot then seg :: acc else acc)
        else rest
    | [] => if allowAboveRoot then [seg] else []
    end
  else seg :: acc.

(** Segments that [step] keeps as they are. *)
Definition plain (seg : string) : Prop :=
  slashFree seg ∧ seg ≠ "" ∧ seg ≠ "." ∧ seg ≠ "..".

(** Segments that [step] keeps or pops, the others being skipped. *)
Definition kept (seg : string) : bool :=
  negb (String.eqb seg "" || String.eqb seg ".").

Definition normalizeSegments (allowAboveRoot : bool) (p : string) : list string :=
  rev (fold_left (step allowAboveRoot) (split p) []).

Definition normalizeString (allowAboveRoot : bool) (p : string) : string :=
  joinSlash (normalizeSegments allowAboveRoot p).

Definition normalize (p : string) : string :=
  if String.eqb p "" then "."
  else
    let isAbs := isAbsolute p in
    let trailingSeparator := endsWithSlash p in
    let path := normalizeString (negb isAbs) p in
    if String.eqb path "" then
      (if isAbs then "/" else if trailingSeparator then "./" else ".")
    else
      let path := if trailingSeparator then path +:+ "/" else path in
      if isAbs then "/" +:+ path else path.

Definition join (args : list string) : string :=
  match filter (λ a, a ≠ "") args with
  | [] => "."
  | parts => normalize (joinSlash parts)
  end.

(** The right-to-left loop of [path.resolve]: [args] is read last
    argument first and the loop stops at the first absolute one. *)
Fixpoint resolveLoop (revArgs : list string) (resolvedPath : string)
  : string * bool :=
  match revArgs with
  | [] => (resolvedPath, false)
  | p :: rest =>
      if String.eqb p "" then resolveLoop rest resolvedPath
      else
        let resolvedPath := p +:+ "/" +:+ resolvedPath in
        if isAbsolute p then (resolvedPath, true)
        else resolveLoop rest resolvedPath
  end.

Definition resolve (cwd : string) (args : list string) : string :=
  let '(resolvedPath, resolvedAbsolute) := resolveLoop (rev args ++ [cwd]) "" in
  let resolvedPath := normalizeString (negb resolvedAbsolute) resolvedPath in
  if resolvedAbsolute then "/" +:+ resolvedPath
  else if String.eqb resolvedPath "" then "." else resolvedPath.

(** The last non-empty segment, what [extname] and [basename] look at. *)
Definition lastPart (p : string) : string :=
  default "" (last (filter (λ seg, seg ≠ "") (split p))).

(** [path.extname]: from the last dot of the last part to its end;
    empty when there is no dot, when the only dot is the first
    character, and for the part [".."]. *)
Definition extname (p : string) : string :=
  let part := lastPart p in
  match part with
  | EmptyString => ""
  | String c rest =>
      if String.eqb part ".." then ""
      else default "" (fromLastDot rest)
  end.

(** Segments of a path, for comparing canonical paths. *)
Definition segments (p : string) : list string :=
  filter (λ seg, seg ≠ "") (split p).

(** [path.relative(from, to)]: both are resolved, the common leading
    segments dropped, one ".." written for each segment left of
    [from], then what is left of [to]. *)
Fixpoint dropCommon (a b : list string) : list string * list string :=
  match a, b with
  | x :: a', y :: b' => if String.eqb x y then dropCommon a' b' else (a, b)
  | _, _ => (a, b)
  end.

Definition relative (cwd from to : string) : string :=
  let '(up, down) := dropCommon (segments (resolve cwd [from]))
                       (segments (resolve cwd [to])) in
  joinSlash (map (λ _, "..") up ++ down).

(** [path.basename(p)] *)
Definition basename (p : string) : string := lastPart p.

(** [dir] is [root] or lies below it: the canonical segments of [root]
    lead those of [dir]. *)
Definition descendant (cwd root dir : string) : Prop :=
  segments (resolve cwd [root]) `prefix_of` segments (resolve cwd [dir]).

End Path.

(** ** JSON values

    Decoded payloads, formatted readings and pushed events are plain
    objects: an ordered list of properties. Numbers are rationals. *)

Unset Elimination Schemes.
Inductive JsVal : Type :=
| JUndefined
| JNull
| JBool (b : bool)
| JNum (q : Q)
| JStr (s : string)
| JArr (items : list JsVal)
| JObj (props : list (string * JsVal)).
Set Elimination Schemes.

Definition props (v : JsVal) : list (string * JsVal) :=
  match v with
  | JObj ps => ps
  | _ => []
  end.

(** [v.key]: own property lookup, `undefined` when absent. *)
Definition getProp (key : string) (v : JsVal) : JsVal :=
  match find (λ kv, String.eqb (fst kv) key) (props v) with
  | Some kv => snd kv
  | None => JUndefined
  end.

Definition isNumber (v : JsVal) : bool :=
  match v with
  | JNum _ => true
  | _ => false
  end.

(** Truthiness of the values that the handlers test. *)
Definition truthyVal (v : JsVal) : bool :=
  match v with
  | JUndefined | JNull => false
  | JBool b => b
  | JNum q => negb (Qeq_bool q 0)
  | JStr s => negb (String.eqb s "")
  | JArr _ | JObj _ => true
  end.

Definition optStr (o : option string) : JsVal :=
  match o with
  | Some s => JStr s
  | None => JUndefined
  end.

(** ** Base64, [Buffer.prototype.toString('base64')] *)

Module Base64.

Definition alphabet : string :=
  "ABCDEFGHIJKLMNOPQRSTUVWXYZabcdefghijklmnopqrstuvwxyz0123456789+/".

Definition digit (n : N) : ascii :=
  default "="%char (String.get (N.to_nat n) alphabet).

Fixpoint encode (bytes : list Byte.byte) : string :=
  match bytes with
  | [] => ""
  | [a] =>
      let a := Byte.to_N a in
      String (digit (N.shiftr a 2))
        (String (digit (N.shiftl (N.land a 3) 4)) "==")
  | [a; b] =>
      let a := Byte.to_N a in
      let b := Byte.to_N b in
      String (digit (N.shiftr a 2))
        (String (digit (N.lor (N.shiftl (N.land a 3) 4) (N.shiftr b 4)))
           (String (digit (N.shiftl (N.land b 15) 2)) "="))
  | a :: b :: c :: rest =>
      let a := Byte.to_N a in
      let b := Byte.to_N b in
      let c := Byte.to_N c in
      String (digit (N.shiftr a 2))
        (String (digit (N.lor (N.shiftl (N.land a 3) 4) (N.shiftr b 4)))
           (String (digit (N.lor (N.shiftl (N.land b 15) 2) (N.shiftr c 6)))
              (String (digit (N.land c 63)) (encode rest))))
  end.

(** The inverse table and decoder, used to state that the encoded text
    still carries the bytes. *)
Fixpoint indexOf (c : ascii) (s : string) : option N :=
  match s with
  | EmptyString => None
  | String d s' =>
      if Ascii.eqb c d then Some 0%N
      else N.succ <$> indexOf c s'
  end.

Definition value (c : ascii) : option N := indexOf c alphabet.



End Base64.

(** ** Configuration (config/config.json) *)

Module Member.
Record t : Type := mk {
  type : string;
  button_name : option string;
  topic : option string;
  unit : option string;
  publish_topic : option string;
  upload_directory : option string;
  root_directory : option string;
  allowed_extensions : option (list string);
  max_file_size : option N;
}.
End Member.

Module Tab.
(** [upload] and [download] are the per-tab objects that the
    module-level [UPLOAD_DIR] and the .mjs browse handler read. *)
Record t : Type := mk {
  id : string;
  upload : option Member.t;
  download : option Member.t;
  members : list Member.t;
}.
End Tab.

Record Config : Type := {
  broker_host : string;
  broker_port : N;
  tabs : list Tab.t;
}.

(** ** The file system

    A finite map from canonical absolute paths to nodes. Every [fs]
    call of the server goes through [key], the path as the operating
    system resolves it (no symbolic links). *)

Module Fs.

Inductive node : Type :=
| File (size : N)
| Dir.

Abbreviation t := (gmap string node).

Section WithCwd.
Variable cwd : string.

Definition key (p : string) : string := Path.resolve cwd [p].

(** The directory that holds the entry at canonical path [k]. *)
Definition parent (k : string) : string :=
  "/" +:+ JsString.joinSlash (removelast (Path.segments k)).

(** [Some name] when [k] is the entry [name] of directory [d]. *)
Definition childName (d k : string) : option string :=
  let sk := Path.segments k in
  if bool_decide (removelast sk = Path.segments d) then last sk else None.

Definition existsSync (fs : t) (p : string) : bool :=
  bool_decide (is_Some (fs !! key p)).

Definition unlinkSync (fs : t) (p : string) : result t :=
  match fs !! key p with
  | Some (File _) => Ok (delete (key p) fs)
  | Some Dir => Throw "EISDIR: illegal operation on a directory, unlink"
  | None => Throw "ENOENT: no such file or directory, unlink"
  end.

(** [fs.mkdirSync(p, { recursive: true })]: [p] and every missing
    ancestor become directories; a file in the way is an error. *)
Fixpoint mkdirSegments (fs : t) (prefix : string) (segs : list string) : result t :=
  match segs with
  | [] => Ok fs
  | seg :: rest =>
      let k := prefix +:+ "/" +:+ seg in
      match fs !! k with
      | Some (File _) => Throw "ENOTDIR: not a directory, mkdir"
      | Some Dir => mkdirSegments fs k rest
      | None => mkdirSegments (<[k := Dir]> fs) k rest
      end
  end.
Definition mkdirSync (fs : t) (p : string) : result t :=
  mkdirSegments (<["/" := Dir]> fs) "" (Path.segments (key p)).

Definition renameSync (fs : t) (oldPath newPath : string) : result t :=
  match fs !! key oldPath with
  | None => Throw "ENOENT: no such file or directory, rename"
  | Some n =>
      match fs !! key newPath with
      | Some Dir => Throw "EISDIR: illegal operation on a directory, rename"
      | _ => Ok (<[key newPath := n]> (delete (key oldPath) fs))
      end
  end.

(** Writing a received file, as multer's disk storage does: the parent
    must be a directory, an existing file of that name is replaced. *)
Definition writeFile (fs : t) (p : string) (size : N) : result t :=
  match fs !! key p with
  | Some Dir => Throw "EISDIR: illegal operation on a directory, open"
  | _ =>
      match fs !! parent (key p) with
      | Some Dir => Ok (<[key p := File size]> fs)
      | _ => Throw "ENOENT: no such file or directory, open"
      end
  end.

(** [fs.readdir(p, { withFileTypes: true })]: the immediate entries. *)
Definition readdir (fs : t) (p : string) : option (list (string * node)) :=
  match fs !! key p with
  | Some Dir =>
      Some (omap (λ kn, (λ name, (name, snd kn)) <$> childName (key p) (fst kn))
              (map_to_list fs))
  | _ => None
  end.

(** Names in directory [d], the "file set" of the directory. *)
Definition names (fs : t) (d : string) : gset string :=
  list_to_set (omap (λ kn, childName (key d) (fst kn)) (map_to_list fs)).

End WithCwd.
End Fs.

Definition isDirectory (e : string * Fs.node) : bool :=
  match snd e with
  | Fs.Dir => true
  | Fs.File _ => false
  end.
Definition isFile (e : string * Fs.node) : bool := negb (isDirectory e).

(** ** Looking members up *)

Definition isType (kind : string) (member : Member.t) : bool :=
  String.eqb (Member.type member) kind.

(** `a === b` on two optional strings. *)
Definition strictEq (a b : option string) : bool := bool_decide (a = b).

(** `x || null` *)
Definition orNull (o : option string) : option string :=
  if truthy o then o else None.

(** The nested loops `for (const tab of config.tabs) for (const member
    of tab.members) if (test) return member; return null`. *)
Fixpoint findMember (test : Member.t → bool) (tabs : list Tab.t) : option Member.t :=
  match tabs with
  | [] => None
  | tab :: rest =>
      match find test (Tab.members tab) with
      | Some member => Some member
      | None => findMember test rest
      end
  end.

Definition getUploadConfig (config : Config) (buttonName : option string)
  : option Member.t :=
  findMember (λ member,
      isType "upload" member
      && (negb (truthy buttonName)
          || strictEq (Member.button_name member) buttonName))
    (tabs config).

Definition getDownloadConfig (config : Config) (buttonName : option string)
  : option Member.t :=
  findMember (λ member,
      isType "download" member
      && (negb (truthy buttonName)
          || strictEq (Member.button_name member) buttonName))
    (tabs config).

Definition isValidButtonAction (config : Config) (topic : string) : bool :=
  bool_decide (is_Some (findMember (λ member,
      isType "button" member
      && strictEq (Member.publish_topic member) (Some topic))
    (tabs config))).

(** `a || b` on two lookups. *)
Definition orElse {A} (a b : option A) : option A :=
  match a with
  | Some _ => a
  | None => b
  end.

(** ** Configuration validation at start-up *)

(** A template literal prints a missing property as "undefined". *)
Definition show (o : option string) : string := default "undefined" o.

Definition isNamedKind (member : Member.t) : bool :=
  isType "upload" member || isType "download" member || isType "button" member.

Definition require (present : bool) (message : string) : result () :=
  if present then Ok () else Throw message.

(** The body of the inner loop; [buttonNames] is the `Set` of names
    seen so far. *)
Definition validateMember (buttonNames : gset string) (member : Member.t)
  : result (gset string) :=
  let name := show (Member.button_name member) in
  buttonNames ←
    (if isNamedKind member && truthy (Member.button_name member) then
       if bool_decide (name ∈ buttonNames) then
         Throw ("Duplicate button_name found in config: " +:+ name)
       else Ok ({[name]} ∪ buttonNames)
     else Ok buttonNames);
  _ ← (if isType "upload" member then
         _ ← require (truthy (Member.upload_directory member))
               ("Upload config missing upload_directory for button: " +:+ name);
         require (bool_decide (is_Some (Member.allowed_extensions member)))
               ("Upload config missing allowed_extensions for button: " +:+ name)
       else Ok ());
  _ ← (if isType "download" member then
         _ ← require (truthy (Member.root_directory member))
               ("Download config missing root_directory for button: " +:+ name);
         require (bool_decide (is_Some (Member.allowed_extensions member)))
               ("Download config missing allowed_extensions for button: " +:+ name)
       else Ok ());
  _ ← (if isType "button" member then
         require (truthy (Member.publish_topic member))
               ("Button config missing publish_topic for button: " +:+ name)
       else Ok ());
  Ok buttonNames.

Fixpoint validateMembers (buttonNames : gset string) (members : list Member.t)
  : result (gset string) :=
  match members with
  | [] => Ok buttonNames
  | member :: rest =>
      buttonNames ← validateMember buttonNames member;
      validateMembers buttonNames rest
  end.

Fixpoint validateTabs (buttonNames : gset string) (tabs : list Tab.t)
  : result (gset string) :=
  match tabs with
  | [] => Ok buttonNames
  | tab :: rest =>
      buttonNames ← validateMembers buttonNames (Tab.members tab);
      validateTabs buttonNames rest
  end.

Definition validateConfig (config : Config) : result () :=
  _ ← validateTabs ∅ (tabs config); Ok ().

(** ** What the server is given

    [__dirname] and the working directory, and the generated protobuf
    modules (sensor_pb.js, fileops_pb.js), which are not part of the
    sources: their decoders and encoders are taken as they come. *)

Definition Decoder : Type := list Byte.byte → result JsVal.

Module SensorProto.
Record t : Type := mk {
  TemperatureData : Decoder;
  CompassData : Decoder;
  GpsPositionData : Decoder;
  StatusMessage : Decoder;
}.
End SensorProto.

Record Env : Type := {
  __dirname : string;
  cwd : string;
  sensorProto : SensorProto.t;
  (** [new fileopsProto.FileEvent()] filled in and serialized, when the
      module exports the class *)
  FileEvent : option (string → N → string → list Byte.byte);
  (** [Number.prototype.toFixed(6)] *)
  toFixed6 : Q → string;
  (** [new Date(ms).toISOString()], a RangeError outside the range of dates *)
  toISOString : Q → result string;
  (** [Number(text)], [None] for NaN *)
  parseNumber : string → option Q;
}.

(** ** The MQTT client (mqtt.js) as the handlers use it

    [reconnect] and [publish] return at once; whether the connection
    comes up is reported later through the 'connect' and 'close'
    events. A call may still throw on the spot, which [faults] decides. *)

Inductive Payload : Type :=
| PVal (v : JsVal)
| PBytes (bytes : list Byte.byte).

Module Mqtt.

Record t : Type := mk {
  connected : bool;
  reconnectCalls : nat;
  subscriptions : gset string;
  published : list (string * Payload);
}.

Record faults : Type := {
  reconnectThrows : option string;
  publishThrows : option string;
}.
Definition noFaults : faults :=
  {| reconnectThrows := None; publishThrows := None |}.

Definition initial : t :=
  {| connected := false; reconnectCalls := 0; subscriptions := ∅; published := [] |}.

Definition reconnect (f : faults) (c : t) : result () * t :=
  let c := mk (connected c) (S (reconnectCalls c)) (subscriptions c) (published c) in
  match reconnectThrows f with
  | Some e => (Throw e, c)
  | None => (Ok (), c)
  end.

Definition publish (f : faults) (topic : string) (payload : Payload) (c : t)
  : result () * t :=
  match publishThrows f with
  | Some e => (Throw e, c)
  | None =>
      (Ok (), mk (connected c) (reconnectCalls c) (subscriptions c)
                (published c ++ [(topic, payload)]))
  end.

(** `subscribe(topic, callback)`: the request; a refusal reported to
    the callback is only logged. *)
Definition subscribe (topic : string) (c : t) : t :=
  mk (connected c) (reconnectCalls c) ({[topic]} ∪ subscriptions c) (published c).

(** The 'connect' event: the connection is up. *)
Definition onConnected (c : t) : t :=
  mk true (reconnectCalls c) (subscriptions c) (published c).

(** The 'close' event: the connection is gone and, the session being a
    clean one, so are the broker's subscriptions for it. *)
Definition onClosed (c : t) : t :=
  mk false (reconnectCalls c) ∅ (published c).

End Mqtt.

(** ** Server state: the module-level variables and the outside world *)

Record WsClient : Type := {
  readyState : N;
  inbox : list JsVal;
}.

Record Server : Type := {
  fs : Fs.t;
  latestSensorData : gmap string JsVal;
  sensorTopics : list string;
  topicDecoderMap : gmap string (option Decoder);
  mqttClient : Mqtt.t;
  wssClients : list WsClient;
}.

Definition setFs (f : Fs.t) (st : Server) : Server :=
  {| fs := f; latestSensorData := latestSensorData st;
     sensorTopics := sensorTopics st; topicDecoderMap := topicDecoderMap st;
     mqttClient := mqttClient st; wssClients := wssClients st |}.
Definition setLatestSensorData (d : gmap string JsVal) (st : Server) : Server :=
  {| fs := fs st; latestSensorData := d;
     sensorTopics := sensorTopics st; topicDecoderMap := topicDecoderMap st;
     mqttClient := mqttClient st; wssClients := wssClients st |}.
Definition setMqttClient (c : Mqtt.t) (st : Server) : Server :=
  {| fs := fs st; latestSensorData := latestSensorData st;
     sensorTopics := sensorTopics st; topicDecoderMap := topicDecoderMap st;
     mqttClient := c; wssClients := wssClients st |}.
Definition setWssClients (cs : list WsClient) (st : Server) : Server :=
  {| fs := fs st; latestSensorData := latestSensorData st;
     sensorTopics := sensorTopics st; topicDecoderMap := topicDecoderMap st;
     mqttClient := mqttClient st; wssClients := cs |}.

(** ** Handlers: state passing with exceptions

    A handler body reads and writes the server state and may throw;
    what it wrote before throwing stays written. *)

Definition Handler (A : Type) : Type := Server → result A * Server.

Global Instance handler_ret : MRet Handler := λ A a st, (Ok a, st).
Global Instance handler_bind : MBind Handler := λ A B k h st,
  match h st with
  | (Ok a, st') => k a st'
  | (Throw e, st') => (Throw e, st')
  end.

Definition throw {A} (message : string) : Handler A := λ st, (Throw message, st).
Definition lift {A} (r : result A) : Handler A := λ st, (r, st).
Definition get {A} (f : Server → A) : Handler A := λ st, (Ok (f st), st).
Definition modify (f : Server → Server) : Handler () := λ st, (Ok (), f st).
Definition when (b : bool) (h : Handler ()) : Handler () :=
  if b then h else mret ().

(** A call into [fs] that returns the new file system or throws. *)
Definition fsCall (f : Fs.t → result Fs.t) : Handler () := λ st,
  match f (fs st) with
  | Ok fs' => (Ok (), setFs fs' st)
  | Throw e => (Throw e, st)
  end.

Definition mqttCall (f : Mqtt.t → result () * Mqtt.t) : Handler () := λ st,
  let '(r, c) := f (mqttClient st) in (r, setMqttClient c st).

(** `try { body } catch (err) { handler(err.message) }` *)
Definition tryCatch {A} (body : Handler A) (handler : string → A) : Server → Server * A :=
  λ st,
  match body st with
  | (Ok a, st') => (st', a)
  | (Throw e, st') => (st', handler e)
  end.

(** `err.message || fallback` *)
Definition messageOr (message fallback : string) : string :=
  if String.eqb message "" then fallback else message.

(** What a route answers: `res.status(s).json(body)`,
    `res.download(filePath, name)`, or the framework's own error page
    when a middleware fails before the route runs. *)
Inductive Response : Type :=
| Json (status : N) (body : JsVal)
| Download (filePath name : string)
| ErrorPage (status : N) (message : string).

(** `req.file` as multer fills it in. *)
Module ReqFile.
Record t : Type := mk {
  originalname : string;
  path : string;
  size : N;
}.
End ReqFile.

Definition fromOption {A} (o : option A) (message : string) : Handler A :=
  match o with
  | Some a => mret a
  | None => throw message
  end.

(** ** Module-level constants *)

Section Server.
Context (env : Env) (config : Config).

Definition filesTab : option Tab.t :=
  find (λ tab, String.eqb (Tab.id tab) "files") (tabs config).

(** `filesTab?.upload` *)
Definition filesUpload : option Member.t :=
  match filesTab with
  | Some tab => Tab.upload tab
  | None => None
  end.

Definition UPLOAD_DIR : string :=
  match filesUpload with
  | Some {| Member.upload_directory := Some dir |} =>
      if truthy (Some dir) then
        (if Path.isAbsolute dir then dir else Path.join [__dirname env; dir])
      else Path.join [__dirname env; "uploads"]
  | _ => Path.join [__dirname env; "uploads"]
  end.

Definition ALLOWED_EXTENSIONS : list string :=
  match filesUpload with
  | Some {| Member.allowed_extensions := Some exts |} => exts
  | _ => []
  end.

(** [resolveDir(baseDir, dir)]; [path.isAbsolute] throws on a missing
    argument. *)
Definition resolveDir (baseDir dir : option string) : result string :=
  match dir with
  | Some dir =>
      if Path.isAbsolute dir then Ok dir
      else match baseDir with
           | Some baseDir => Ok (Path.join [baseDir; dir])
           | None => Throw "The 'path' argument must be of type string. Received undefined"
           end
  | None => Throw "The 'path' argument must be of type string. Received undefined"
  end.

(** The loop that fills [sensorTopics] and [topicDecoderMap]. *)
Definition decoderFor (topic : string) : option Decoder :=
  if String.eqb topic "sensor/temperature" then
    Some (SensorProto.TemperatureData (sensorProto env))
  else if String.eqb topic "sensor/compass" then
    Some (SensorProto.CompassData (sensorProto env))
  else if String.eqb topic "sensor/gps" then
    Some (SensorProto.GpsPositionData (sensorProto env))
  else if String.eqb topic "sensor/status" then
    Some (SensorProto.StatusMessage (sensorProto env))
  else None.

Definition Registry : Type := list string * gmap string (option Decoder).

Definition registerMember (reg : Registry) (member : Member.t) : Registry :=
  match Member.topic member with
  | Some topic =>
      if isType "sensor" member && truthy (Some topic) then
        (fst reg ++ [topic], <[topic := decoderFor topic]> (snd reg))
      else reg
  | None => reg
  end.

Definition registerTab (reg : Registry) (tab : Tab.t) : Registry :=
  fold_left registerMember (Tab.members tab) reg.

Definition registry : Registry := fold_left registerTab (tabs config) ([], ∅).

(** ** WebSocket fan-out *)

Definition send (msg : JsVal) (client : WsClient) : WsClient :=
  {| readyState := readyState client; inbox := inbox client ++ [msg] |}.

(** `if (client.readyState === 1) client.send(data)` *)
Definition deliver (msg : JsVal) (client : WsClient) : WsClient :=
  if N.eqb (readyState client) 1 then send msg client else client.

Definition broadcastWS (msg : JsVal) : Handler () :=
  modify (λ st, setWssClients (map (deliver msg) (wssClients st)) st).

Definition snapshot (st : Server) : JsVal := JObj (map_to_list (latestSensorData st)).

(** `wss.on('connection', ...)` *)
Definition onWsConnection (st : Server) : Server :=
  setWssClients
    (wssClients st
       ++ [send (JObj [("type", JStr "init"); ("sensors", snapshot st)])
             {| readyState := 1; inbox := [] |}]) st.

(** ** The sensor cache *)

Definition sensorKey (topic : string) : string :=
  match JsString.split topic !! 1%nat with
  | Some key => if String.eqb key "" then topic else key
  | None => topic
  end.

Definition updateLatestSensorData (topic : string) (formatted : JsVal) : Handler () :=
  modify (λ st, setLatestSensorData (<[sensorKey topic := formatted]> (latestSensorData st)) st).

(** ** Formatting, upload_server.js *)

Definition getUnitForTopic (topic : string) : string :=
  match findMember (λ member,
          isType "sensor" member && strictEq (Member.topic member) (Some topic))
        (tabs config) with
  | Some member =>
      if truthy (Member.unit member) then default "" (Member.unit member) else ""
  | None => ""
  end.

Definition formatSensorData (topic : string) (parsed : JsVal) (now : Q) : result JsVal :=
  let value :=
    match find (λ kv, isNumber (snd kv)) (props parsed) with
    | Some kv => snd kv
    | None => parsed
    end in
  let unit := getUnitForTopic topic in
  Ok (JObj [("value", value); ("unit", JStr unit); ("timestamp", JNum now)]).

(** ** Formatting, upload_server.mjs *)

Definition orDefault (v : JsVal) (fallback : string) : JsVal :=
  if truthyVal v then v else JStr fallback.

Definition isDefined (v : JsVal) : bool :=
  match v with
  | JUndefined => false
  | _ => true
  end.

(** `x.toFixed(6)`: only numbers have the method. *)
Definition toFixed (v : JsVal) : result string :=
  match v with
  | JNum q => Ok (toFixed6 env q)
  | JUndefined | JNull => Throw "Cannot read properties of undefined (reading 'toFixed')"
  | _ => Throw "toFixed is not a function"
  end.

(** `new Date(Number(v)).toISOString()`; a timestamp that is an array
    or an object is taken as not a number. *)
Definition isoOf (v : JsVal) : result string :=
  match v with
  | JNum q => toISOString env q
  | JStr s =>
      match parseNumber env s with
      | Some q => toISOString env q
      | None => Throw "Invalid time value"
      end
  | JBool b => toISOString env (if b then 1 else 0)
  | JNull => toISOString env 0
  | _ => Throw "Invalid time value"
  end.

(** `statusMap[v] || 'UNKNOWN'` for the four labels of the table; an
    index that is not one of 0..3 (as a number or as its decimal text)
    is taken to select nothing. *)
Definition statusLabel (v : JsVal) : string :=
  let label (i : string) :=
    if String.eqb i "1" then "ONLINE"
    else if String.eqb i "2" then "OFFLINE"
    else if String.eqb i "3" then "ERROR"
    else "UNKNOWN" in
  match v with
  | JNum q =>
      if Qeq_bool q 1 then "ONLINE"
      else if Qeq_bool q 2 then "OFFLINE"
      else if Qeq_bool q 3 then "ERROR"
      else "UNKNOWN"
  | JStr s => label s
  | _ => "UNKNOWN"
  end.

Definition formatSensorDataMjs (topic : string) (parsed : JsVal) (now : Q)
  : result JsVal :=
  if String.eqb topic "sensor/gps" && truthyVal (getProp "position" parsed) then
    lat ← toFixed (getProp "latitude" (getProp "position" parsed));
    lon ← toFixed (getProp "longitude" (getProp "position" parsed));
    ts ← toISOString env now;
    Ok (JObj [("value", JStr (lat +:+ ", " +:+ lon));
              ("unit", orDefault (getProp "unit" parsed) "decimal_degrees");
              ("timestamp", JStr ts);
              ("description", JStr "GPS Location")])
  else if String.eqb topic "sensor/temperature"
          && isDefined (getProp "temperature" parsed) then
    ts ← toISOString env now;
    Ok (JObj [("value", getProp "temperature" parsed);
              ("unit", orDefault (getProp "unit" parsed) "°C");
              ("timestamp", JStr ts);
              ("description", JStr "CPU Temperature")])
  else if String.eqb topic "sensor/compass"
          && isDefined (getProp "heading" parsed) then
    ts ← toISOString env now;
    Ok (JObj [("value", getProp "heading" parsed);
              ("unit", orDefault (getProp "unit" parsed) "degrees");
              ("timestamp", JStr ts);
              ("description", JStr "Compass Heading")])
  else if String.eqb topic "sensor/status"
          && isDefined (getProp "status" parsed) then
    ts ← (if truthyVal (getProp "timestamp" parsed)
          then isoOf (getProp "timestamp" parsed)
          else toISOString env now);
    Ok (JObj [("value", JStr (statusLabel (getProp "status" parsed)));
              ("device_id", orDefault (getProp "device_id" parsed) "");
              ("message", orDefault (getProp "message" parsed) "");
              ("timestamp", JStr ts);
              ("description", JStr "Sensor Status")])
  else Ok parsed.

(** ** POST /api/upload *)

(** `upload.single('file')` with the disk storage of the module: the
    file is written to [UPLOAD_DIR] under its original name before the
    route runs. *)
Definition multer (file : option (string * N)) : Server → result (option ReqFile.t) * Server :=
  λ st,
  match file with
  | None => (Ok None, st)
  | Some (name, size) =>
      let finalPath := Path.join [UPLOAD_DIR; name] in
      match Fs.writeFile (cwd env) (fs st) finalPath size with
      | Ok fs' => (Ok (Some (ReqFile.mk name finalPath size)), setFs fs' st)
      | Throw e => (Throw e, st)
      end
  end.

Definition extensionRejected (uploadCfg : Member.t) (ext : string) : bool :=
  match Member.allowed_extensions uploadCfg with
  | Some exts => negb (bool_decide (ext ∈ exts))
  | None => false
  end.

Definition sizeRejected (uploadCfg : Member.t) (size : N) : bool :=
  match Member.max_file_size uploadCfg with
  | Some limit => negb (N.eqb limit 0) && N.ltb limit size
  | None => false
  end.

(** The route up to and including the two checks. *)
Definition uploadChecks (button_name : option string) (file : option ReqFile.t)
  : Handler (Member.t * ReqFile.t) :=
  let buttonName := orNull button_name in
  uploadCfg ← fromOption
    (orElse (getUploadConfig config buttonName) (getUploadConfig config None))
    "No upload config found";
  file ← fromOption file "No file uploaded";
  let filename := ReqFile.originalname file in
  let ext := Path.extname filename in
  _ ← when (extensionRejected uploadCfg ext)
        (_ ← fsCall (λ fs, Fs.unlinkSync (cwd env) fs (ReqFile.path file));
         throw "File type not allowed");
  _ ← when (sizeRejected uploadCfg (ReqFile.size file))
        (_ ← fsCall (λ fs, Fs.unlinkSync (cwd env) fs (ReqFile.path file));
         throw "File size exceeds limit");
  mret (uploadCfg, file).

(** Moving the file into [uploadDir]. *)
Definition moveUpload (uploadDir : string) (file : ReqFile.t) : Handler string :=
  dirExists ← get (λ st, Fs.existsSync (cwd env) (fs st) uploadDir);
  _ ← when (negb dirExists) (fsCall (λ fs, Fs.mkdirSync (cwd env) fs uploadDir));
  let destPath := Path.join [uploadDir; ReqFile.originalname file] in
  _ ← when (negb (String.eqb (ReqFile.path file) destPath))
        (fsCall (λ fs, Fs.renameSync (cwd env) fs (ReqFile.path file) destPath));
  mret destPath.

(** The file event published after an upload or a download. *)
Definition publishFileEvent (topic : string) (dir filePath : string) (size : N)
    (buttonName : option string) : Handler () :=
  isConnected ← get (λ st, Mqtt.connected (mqttClient st));
  match FileEvent env with
  | Some serializeBinary =>
      when isConnected
        (let relPath := Path.relative (cwd env) dir filePath in
         let eventBuffer := serializeBinary relPath size (default "" buttonName) in
         mqttCall (Mqtt.publish Mqtt.noFaults topic (PBytes eventBuffer)))
  | None => mret ()
  end.

Definition uploadOk (filename : string) : JsVal :=
  JObj [("filename", JStr filename); ("success", JBool true); ("error", JStr "")].
Definition uploadFailed (message : string) : JsVal :=
  JObj [("filename", JStr ""); ("success", JBool false);
        ("error", JStr (messageOr message "Upload failed"))].

Definition uploadBody (button_name : option string) (file : option ReqFile.t)
  : Handler JsVal :=
  '(uploadCfg, file) ← uploadChecks button_name file;
  uploadDir ← lift (resolveDir (Some (__dirname env)) (Member.upload_directory uploadCfg));
  destPath ← moveUpload uploadDir file;
  _ ← publishFileEvent "file/uploaded" uploadDir destPath (ReqFile.size file)
        (orNull button_name);
  mret (uploadOk (ReqFile.originalname file)).

Definition uploadBodyMjs (button_name : option string) (file : option ReqFile.t)
  : Handler JsVal :=
  '(uploadCfg, file) ← uploadChecks button_name file;
  uploadDir ← lift (resolveDir (Member.upload_directory uploadCfg) (Some UPLOAD_DIR));
  _ ← moveUpload uploadDir file;
  mret (uploadOk (ReqFile.originalname file)).

Definition uploadRoute (body : option string → option ReqFile.t → Handler JsVal)
    (button_name : option string) (file : option (string * N))
  : Server → Server * Response :=
  λ st,
  match multer file st with
  | (Throw e, st') => (st', ErrorPage 500 e)
  | (Ok reqFile, st') =>
      let '(st'', answer) := tryCatch (body button_name reqFile) uploadFailed st' in
      (st'', Json 200 answer)
  end.

(** ** POST /api/download, upload_server.js *)

Definition downloadFailed (message : string) : JsVal :=
  JObj [("filename", JStr ""); ("success", JBool false);
        ("error", JStr (messageOr message "Download failed"))].

Definition downloadBody (button_name filename path : option string) : Handler Response :=
  let buttonName := orNull button_name in
  downloadCfg ← fromOption
    (orElse (getDownloadConfig config buttonName) (getDownloadConfig config None))
    "No download config found";
  filename ← fromOption (orElse (orNull filename) (orNull path)) "No filename provided";
  let ext := Path.extname filename in
  _ ← when (extensionRejected downloadCfg ext) (throw "File type not allowed");
  rootDir ← lift (resolveDir (Some (__dirname env)) (Member.root_directory downloadCfg));
  let filePath := Path.join [rootDir; filename] in
  found ← get (λ st, fs st !! Fs.key (cwd env) filePath);
  match found with
  | None => throw "File not found"
  | Some node =>
      let size := match node with Fs.File size => size | Fs.Dir => 0%N end in
      _ ← publishFileEvent "file/downloaded" rootDir filePath size buttonName;
      mret (Download filePath (Path.basename filename))
  end.

Definition downloadRoute (button_name filename path : option string)
  : Server → Server * Response :=
  tryCatch (downloadBody button_name filename path)
    (λ e, Json 400 (downloadFailed e)).

(** ** POST /api/action *)

Definition actionOk : JsVal :=
  JObj [("ack", JStr "Action sent"); ("success", JBool true); ("error", JStr "")].
Definition actionFailed (message : string) : JsVal :=
  JObj [("ack", JStr ""); ("success", JBool false);
        ("error", JStr (messageOr message "Action failed"))].

(** `member.type === 'button' && member.button_name === action` *)
Definition isButtonNamed (action : JsVal) (member : Member.t) : bool :=
  isType "button" member
  && match action with
     | JStr name => strictEq (Member.button_name member) (Some name)
     | _ => false
     end.

Definition actionBody (faults : Mqtt.faults) (action value : JsVal) : Handler JsVal :=
  _ ← when (negb (truthyVal action)) (throw "No action provided in request");
  buttonConfig ← fromOption (findMember (isButtonNamed action) (tabs config))
    "Action not found in config";
  _ ← when (negb (truthy (Member.publish_topic buttonConfig)))
        (throw "No publish_topic found for action");
  let topic := default "" (Member.publish_topic buttonConfig) in
  isConnected ← get (λ st, Mqtt.connected (mqttClient st));
  _ ← when (negb isConnected) (mqttCall (Mqtt.reconnect faults));
  let payload :=
    match value with
    | JUndefined | JNull => JStr ""
    | _ => value
    end in
  _ ← mqttCall (Mqtt.publish faults topic (PVal payload));
  mret actionOk.

Definition actionRoute (faults : Mqtt.faults) (action value : JsVal)
  : Server → Server * Response :=
  λ st,
  let '(st', answer) := tryCatch (actionBody faults action value) actionFailed st in
  (st', Json 200 answer).

(** ** DELETE /api/delete/:filename *)

Definition deleteRoute (filename : string) : Server → Server * Response :=
  λ st,
  let filePath := Path.join [UPLOAD_DIR; filename] in
  if negb (Fs.existsSync (cwd env) (fs st) filePath) then
    (st, Json 404 (JObj [("error", JStr "File not found")]))
  else
    match Fs.unlinkSync (cwd env) (fs st) filePath with
    | Throw _ => (st, Json 500 (JObj [("error", JStr "Failed to delete file")]))
    | Ok fs' => (setFs fs' st, Json 200 (JObj [("success", JBool true)]))
    end.

(** ** GET /api/sensors *)

Definition sensorsRoute (st : Server) : Server * Response :=
  (st, Json 200 (snapshot st)).

(** ** GET /api/browse *)

Definition browseError (status : N) (message : string) : Response :=
  Json status (JObj [("error", JStr message)]).

Definition accessDenied : Response :=
  browseError 400 "Access outside of root directory is not allowed".

(** The listing of upload_server.js: names of the subdirectories, and
    one `{ filename }` object per file. *)
Definition listing (relPath : string) (entries : list (string * Fs.node)) : JsVal :=
  JObj [("path", JStr relPath);
        ("directories", JArr (map (λ e, JStr (fst e)) (filter isDirectory entries)));
        ("files", JArr (map (λ e, JObj [("filename", JStr (fst e))])
                          (filter isFile entries)))].

(** The listing of upload_server.mjs: file names as plain strings. *)
Definition listingMjs (relPath : string) (entries : list (string * Fs.node)) : JsVal :=
  JObj [("path", JStr relPath);
        ("directories", JArr (map (λ e, JStr (fst e)) (filter isDirectory entries)));
        ("files", JArr (map (λ e, JStr (fst e)) (filter isFile entries)))].

Definition browseBody (button_name path : option string) : Handler Response :=
  let buttonName := orNull button_name in
  downloadCfg ← fromOption
    (orElse (getDownloadConfig config buttonName) (getDownloadConfig config None))
    "No download config found";
  rootDir ← lift (resolveDir (Some (__dirname env)) (Member.root_directory downloadCfg));
  let relPath := default "" (orNull path) in
  let relPath := JsString.stripDotRuns (JsString.replaceBackslashes relPath) in
  let absPath := Path.join [rootDir; relPath] in
  let resolvedRoot := Path.resolve (cwd env) [rootDir] in
  let resolvedAbs := Path.resolve (cwd env) [absPath] in
  if negb (JsString.startsWith resolvedAbs resolvedRoot) then mret accessDenied
  else
    entries ← get (λ st, Fs.readdir (cwd env) (fs st) absPath);
    match entries with
    | None => mret (browseError 500 "Failed to list directory")
    | Some entries => mret (Json 200 (listing relPath entries))
    end.

Definition browseRoute (button_name path : option string) : Server → Server * Response :=
  tryCatch (browseBody button_name path)
    (λ e, browseError 400 (messageOr e "Browse failed")).

(** `filesTab?.download?.root_directory ? ... : path.join(__dirname, 'uploads')` *)
Definition browseRootMjs : string :=
  match filesTab with
  | Some {| Tab.download := Some {| Member.root_directory := Some dir |} |} =>
      if truthy (Some dir) then
        (if Path.isAbsolute dir then dir else Path.join [__dirname env; dir])
      else Path.join [__dirname env; "uploads"]
  | _ => Path.join [__dirname env; "uploads"]
  end.

Definition browseRouteMjs (path : option string) : Server → Server * Response :=
  λ st,
  let rootDir := browseRootMjs in
  let relPath := default "" (orNull path) in
  let relPath := JsString.stripDotPairs (JsString.replaceBackslashes relPath) in
  let absPath := Path.join [rootDir; relPath] in
  if negb (JsString.startsWith absPath rootDir) then
    (st, browseError 400 "Invalid path")
  else
    match Fs.readdir (cwd env) (fs st) absPath with
    | None => (st, browseError 500 "Failed to list directory")
    | Some entries => (st, Json 200 (listingMjs relPath entries))
    end.

(** ** MQTT events *)

(** `mqttClient.on('connect', ...)`: one `subscribe` per entry of
    [sensorTopics]. *)
Definition onMqttConnect (st : Server) : Server :=
  setMqttClient
    (fold_left (λ client topic, Mqtt.subscribe topic client) (sensorTopics st)
       (Mqtt.onConnected (mqttClient st))) st.

Definition onMqttClose (st : Server) : Server :=
  setMqttClient (Mqtt.onClosed (mqttClient st)) st.

(** The `try { decoder(message) } catch` of the message handler. *)
Definition decodeMessage (decoder : option (option Decoder)) (message : list Byte.byte)
  : JsVal :=
  match decoder with
  | Some (Some decoder) =>
      match decoder message with
      | Ok parsed => parsed
      | Throw e =>
          JObj [("raw", JStr (Base64.encode message)); ("error", JStr e)]
      end
  | _ => JObj [("raw", JStr (Base64.encode message))]
  end.

Definition sensorUpdate (topic : string) (formatted : JsVal) : JsVal :=
  JObj [("type", JStr "sensor_update");
        ("sensor", optStr (JsString.split topic !! 1%nat));
        ("data", formatted)].

(** `mqttClient.on('message', ...)`; [format] is [formatSensorData] of
    either file. Nothing catches what [format] throws. *)
Definition onMqttMessage (format : string → JsVal → Q → result JsVal)
    (topic : string) (message : list Byte.byte) (now : Q) : Handler () :=
  topics ← get sensorTopics;
  when (bool_decide (topic ∈ topics))
    (decoders ← get topicDecoderMap;
     let parsed := decodeMessage (decoders !! topic) message in
     formatted ← lift (format topic parsed now);
     _ ← updateLatestSensorData topic formatted;
     broadcastWS (sensorUpdate topic formatted)).

(** ** Start-up *)

Inductive Process : Type :=
| Exited (code : N) (log : string)
| Crashed (message : string)
| Serving (st : Server).

Definition initialServer (fs0 : Fs.t) : Server :=
  {| fs := fs0; latestSensorData := ∅;
     sensorTopics := fst registry; topicDecoderMap := snd registry;
     mqttClient := Mqtt.initial; wssClients := [] |}.

(** The module body, top to bottom: create [UPLOAD_DIR], validate the
    configuration (`process.exit(1)` on failure), fill the registry,
    start connecting and listen. *)
Definition startup (fs0 : Fs.t) : Process :=
  match (if Fs.existsSync (cwd env) fs0 UPLOAD_DIR then Ok fs0
         else Fs.mkdirSync (cwd env) fs0 UPLOAD_DIR) with
  | Throw e => Crashed e
  | Ok fs1 =>
      match validateConfig config with
      | Throw e => Exited 1 ("Config validation failed: " +:+ e)
      | Ok _ => Serving (initialServer fs1)
      end
  end.

(** ** The server as a transition system *)

Inductive Variant : Type := Js | Mjs.

Inductive Event : Type :=
| MqttConnect
| MqttClose
| MqttMessage (topic : string) (message : list Byte.byte) (now : Q)
| WsConnection
| PostUpload (button_name : option string) (file : option (string * N))
| PostDownload (button_name filename path : option string)
| PostAction (faults : Mqtt.faults) (action value : JsVal)
| GetBrowse (button_name path : option string)
| GetSensors
| DeleteFile (filename : string).

(** One event; [Throw] is an exception that nothing catches. The .mjs
    download route, which decodes a protobuf body, is not modelled. *)
Definition step (variant : Variant) (st : Server) (ev : Event)
  : result (Server * option Response) :=
  let answered (r : Server * Response) := Ok (fst r, Some (snd r)) in
  match ev with
  | MqttConnect => Ok (onMqttConnect st, None)
  | MqttClose => Ok (onMqttClose st, None)
  | MqttMessage topic message now =>
      let format := match variant with
                    | Js => formatSensorData
                    | Mjs => formatSensorDataMjs
                    end in
      match onMqttMessage format topic message now st with
      | (Ok _, st') => Ok (st', None)
      | (Throw e, _) => Throw e
      end
  | WsConnection => Ok (onWsConnection st, None)
  | PostUpload button_name file =>
      answered (uploadRoute (match variant with
                             | Js => uploadBody
                             | Mjs => uploadBodyMjs
                             end) button_name file st)
  | PostDownload button_name filename path =>
      answered (downloadRoute button_name filename path st)
  | PostAction faults action value => answered (actionRoute faults action value st)
  | GetBrowse button_name path =>
      answered (match variant with
                | Js => browseRoute button_name path st
                | Mjs => browseRouteMjs path st
                end)
  | GetSensors => answered (sensorsRoute st)
  | DeleteFile filename => answered (deleteRoute filename st)
  end.

(** A run: the events in order, with the answers given. *)
Fixpoint run (variant : Variant) (st : Server) (events : list Event)
  : result (Server * list (option Response)) :=
  match events with
  | [] => Ok (st, [])
  | ev :: rest =>
      '(st', answer) ← step variant st ev;
      '(st'', answers) ← run variant st' rest;
      Ok (st'', answer :: answers)
  end.

End Server.

(** ** A small deployment, for running the definitions *)

Module Demo.

Definition sensor (topic : string) (unit : option string) : Member.t :=
  Member.mk "sensor" None (Some topic) unit None None None None None.
Definition button (name : string) (publish_topic : option string) : Member.t :=
  Member.mk "button" (Some name) None None publish_topic None None None None.
Definition uploadPolicy (name dir : string) (exts : list string) (limit : option N)
  : Member.t :=
  Member.mk "upload" (Some name) None None None (Some dir) None (Some exts) limit.
Definition downloadPolicy (name dir : string) (exts : list string) : Member.t :=
  Member.mk "download" (Some name) None None None None (Some dir) (Some exts) None.

Definition config : Config :=
  {| broker_host := "localhost"; broker_port := 1883;
     tabs :=
       [Tab.mk "sensors" None None
          [sensor "sensor/temperature" (Some "°C");
           sensor "sensor/compass" None;
           sensor "plant/line1/pressure" (Some "bar")];
        Tab.mk "controls" None None [button "led" (Some "actuator/led")];
        Tab.mk "files" None None
          [uploadPolicy "docs" "uploads" [".txt"; ".csv"] (Some 10%N);
           uploadPolicy "images" "images" [".png"] None;
           downloadPolicy "logs" "downloads" [".txt"]]] |}.

(** The first byte of a temperature message is the temperature; an
    empty message does not decode. The other decoders accept nothing. *)
Definition decodeTemperature : Decoder := λ message,
  match message with
  | [] => Throw "index out of range: 0 + 1 > 0"
  | b :: _ => Ok (JObj [("temperature", JNum (inject_Z (Z.of_N (Byte.to_N b))));
                        ("unit", JStr "K")])
  end.
Definition decodeNothing : Decoder := λ _, Throw "invalid wire type".

Definition env : Env :=
  {| __dirname := "/srv/app"; cwd := "/srv/app";
     sensorProto := SensorProto.mk decodeTemperature decodeNothing decodeNothing decodeNothing;
     FileEvent := None;
     toFixed6 := λ _, "0.000000";
     toISOString := λ _, Ok "1970-01-01T00:00:00.000Z";
     parseNumber := λ _, None |}.

Definition disk : Fs.t :=
  list_to_map
    [("/", Fs.Dir); ("/etc", Fs.Dir); ("/etc/passwd", Fs.File 9);
     ("/srv", Fs.Dir); ("/srv/app", Fs.Dir); ("/srv/app/secret.txt", Fs.File 7);
     ("/srv/app/uploads", Fs.Dir);
     ("/srv/app/downloads", Fs.Dir); ("/srv/app/downloads/etc", Fs.Dir);
     ("/srv/app/downloads/etc/hosts.txt", Fs.File 3);
     ("/srv/app/downloads/boot.txt", Fs.File 5)].

Definition server : Server := initialServer env config disk.

End Demo.


(** ** Vocabulary for the validation properties *)

(** Every member, in the order the loops visit them. *)
Definition allMembers (config : Config) : list Member.t :=
  flat_map Tab.members (tabs config).

(** The name under which a member enters the uniqueness check. *)
Definition checkedName (member : Member.t) : option string :=
  if isNamedKind member && truthy (Member.button_name member)
  then Member.button_name member else None.

Definition buttonNames (config : Config) : list string :=
  omap checkedName (allMembers config).

Definition duplicateError (name : string) : string :=
  "Duplicate button_name found in config: " +:+ name.

(** No required property is missing. *)
Definition complete (member : Member.t) : bool :=
  (if isType "upload" member then
     truthy (Member.upload_directory member)
     && bool_decide (is_Some (Member.allowed_extensions member))
   else true)
  && (if isType "download" member then
        truthy (Member.root_directory member)
        && bool_decide (is_Some (Member.allowed_extensions member))
      else true)
  && (if isType "button" member then truthy (Member.publish_topic member) else true).

(** The first name that repeats one seen before. *)
Fixpoint firstDuplicate (seen : gset string) (names : list string) : option string :=
  match names with
  | [] => None
  | name :: rest =>
      if bool_decide (name ∈ seen) then Some name
      else firstDuplicate ({[name]} ∪ seen) rest
  end.

(** The uniqueness sentence as the specification has it: two named
    members with one and the same name make validation fail. *)
Definition sharedNameRejected : Prop :=
  ∀ (config : Config) (i j : nat) (m1 m2 : Member.t) (name : string),
    i ≠ j →
    filter (λ m, isNamedKind m = true) (allMembers config) !! i = Some m1 →
    filter (λ m, isNamedKind m = true) (allMembers config) !! j = Some m2 →
    Member.button_name m1 = Some name →
    Member.button_name m2 = Some name →
    ∃ e, validateConfig config = Throw e.

Definition twoUnnamedButtons : Config :=
  {| broker_host := "localhost"; broker_port := 1883;
     tabs := [Tab.mk "controls" None None
                [Demo.button "" (Some "actuator/led");
                 Demo.button "" (Some "actuator/fan")]] |}.

Definition twoLogs : Config :=
  {| broker_host := "localhost"; broker_port := 1883;
     tabs := [Tab.mk "files" None None
                [Demo.uploadPolicy "logs" "logs" [".log"] None];
              Tab.mk "archive" None None
                [Demo.button "rotate" (Some "logs/rotate");
                 Demo.uploadPolicy "logs" "old" [".gz"] None]] |}.

(** ** Vocabulary for the upload properties *)

(** The Upload members, in configuration order. *)
Definition uploadPolicies (config : Config) : list Member.t :=
  filter (λ m, isType "upload" m = true) (allMembers config).

(** `getUploadConfig(buttonName) || getUploadConfig()` *)
Definition uploadCfgFor (config : Config) (button_name : option string)
  : option Member.t :=
  orElse (getUploadConfig config (orNull button_name)) (getUploadConfig config None).

(** Whether an answer carries `success: true`. *)
Definition succeeded (r : Response) : bool :=
  match r with
  | Json _ body =>
      match getProp "success" body with
      | JBool b => b
      | _ => false
      end
  | _ => false
  end.

(** The resolution sentence as the specification has it: with several
    Upload policies and no identifier the request is rejected. *)
Definition ambiguousUploadRejected : Prop :=
  ∀ (env : Env) (config : Config) (st : Server) (file : option (string * N)),
    2 ≤ length (uploadPolicies config) →
    succeeded (snd (uploadRoute env config (uploadBody env config) None file st))
    = false.

(** A configuration without any Upload member. *)
Definition noUploads : Config :=
  {| broker_host := "localhost"; broker_port := 1883;
     tabs := [Tab.mk "controls" None None
                [Demo.button "led" (Some "actuator/led")]] |}.

(** The rejection sentence as the specification has it: an upload
    refused for its extension or its size is answered with
    `success: false` and leaves the file set of the policy's upload
    directory as it was before the request. *)
Definition rejectedUploadKeepsDirectory : Prop :=
  ∀ (env : Env) (config : Config) (st : Server) (button_name : option string)
    (name : string) (size : N) (uploadCfg : Member.t) (uploadDir : string),
    uploadCfgFor config button_name = Some uploadCfg →
    extensionRejected uploadCfg (Path.extname name) = true
      ∨ sizeRejected uploadCfg size = true →
    resolveDir (Some (__dirname env)) (Member.upload_directory uploadCfg)
      = Ok uploadDir →
    let '(st', r) := uploadRoute env config (uploadBody env config)
                       button_name (Some (name, size)) st in
    succeeded r = false
    ∧ Fs.names (cwd env) (fs st') uploadDir = Fs.names (cwd env) (fs st) uploadDir.

(** The demo server after `report.txt` (5 bytes) has been uploaded. *)
Definition afterReport : Server :=
  fst (uploadRoute Demo.env Demo.config (uploadBody Demo.env Demo.config)
         None (Some ("report.txt", 5%N)) Demo.server).

(** ** Vocabulary for the sensor properties *)

(** The state after a reading has been cached and pushed. *)
Definition cached (topic : string) (formatted : JsVal) (st : Server) : Server :=
  setWssClients (map (deliver (sensorUpdate topic formatted)) (wssClients st))
    (setLatestSensorData (<[sensorKey topic := formatted]> (latestSensorData st)) st).


(** The Sensor member that declares [topic], first in configuration
    order. *)
Definition sensorFor (config : Config) (topic : string) : option Member.t :=
  find (λ member, isType "sensor" member && strictEq (Member.topic member) (Some topic))
    (allMembers config).

(** The defaults written into upload_server.mjs. *)
Definition defaultUnit (topic : string) : string :=
  if String.eqb topic "sensor/gps" then "decimal_degrees"
  else if String.eqb topic "sensor/temperature" then "°C"
  else if String.eqb topic "sensor/compass" then "degrees"
  else "".

(** The unit sentence as the specification has it: declared unit, else
    the payload's, else the default of the kind. *)
Definition unitInOrder (config : Config) (topic : string) (parsed : JsVal) : JsVal :=
  match sensorFor config topic with
  | Some {| Member.unit := Some unit |} =>
      if truthy (Some unit) then JStr unit
      else orDefault (getProp "unit" parsed) (defaultUnit topic)
  | _ => orDefault (getProp "unit" parsed) (defaultUnit topic)
  end.

Definition unitResolutionOrder (format : Config → string → JsVal → Q → result JsVal)
  : Prop :=
  ∀ (config : Config) (topic : string) (parsed : JsVal) (now : Q) (formatted : JsVal),
    is_Some (sensorFor config topic) →
    format config topic parsed now = Ok formatted →
    getProp "unit" formatted = unitInOrder config topic parsed.

(** The answers of the delete route. *)
Definition fileNotFound : Response := Json 404 (JObj [("error", JStr "File not found")]).
Definition deleteFailed : Response := Json 500 (JObj [("error", JStr "Failed to delete file")]).
Definition deleted : Response := Json 200 (JObj [("success", JBool true)]).


(** Every number below [k] passes [test]. *)
Definition allBelow (k : nat) (test : N → bool) : bool :=
  forallb test (map N.of_nat (seq 0 k)).

(** What stands for a message that did not decode. *)
Definition rawReading (message : list Byte.byte) (e : string) : JsVal :=
  JObj [("raw", JStr (Base64.encode message)); ("error", JStr e)].

(** The reading made of it: wrapped by upload_server.js, as it is in
    upload_server.mjs. *)
Definition failedReading (config : Config) (variant : Variant) (topic : string)
    (message : list Byte.byte) (e : string) (now : Q) : JsVal :=
  match variant with
  | Js => JObj [("value", rawReading message e);
                ("unit", JStr (getUnitForTopic config topic));
                ("timestamp", JNum now)]
  | Mjs => rawReading message e
  end.

(** ** Vocabulary for the subscription properties *)

(** The topic with which a member enters the registry. *)
Definition sensorTopic (member : Member.t) : option string :=
  if isType "sensor" member && truthy (Member.topic member)
  then Member.topic member else None.

(** The Sensor topics of a configuration, in configuration order. *)
Definition configuredSensorTopics (config : Config) : list string :=
  omap sensorTopic (allMembers config).

(** [st'] has the topics, the decoders, the connection flag and the
    subscriptions of [st]. *)
Definition sameSubscriptions (st st' : Server) : Prop :=
  sensorTopics st' = sensorTopics st
  ∧ topicDecoderMap st' = topicDecoderMap st
  ∧ Mqtt.connected (mqttClient st') = Mqtt.connected (mqttClient st)
  ∧ Mqtt.subscriptions (mqttClient st') = Mqtt.subscriptions (mqttClient st).

(** A handler body that leaves them alone, however it ends. *)
Definition keepsSubscriptions {A} (h : Handler A) : Prop :=
  ∀ st, sameSubscriptions st (snd (h st)).

(** What holds of every state the server passes through: the topics
    are the configured ones, and the subscriptions are none of them or
    all of them, all of them while the connection is up. *)
Definition subscribedAsConfigured (config : Config) (st : Server) : Prop :=
  sensorTopics st = configuredSensorTopics config
  ∧ (Mqtt.subscriptions (mqttClient st) = ∅
     ∨ Mqtt.subscriptions (mqttClient st) = list_to_set (configuredSensorTopics config))
  ∧ (Mqtt.connected (mqttClient st) = true →
     Mqtt.subscriptions (mqttClient st) = list_to_set (configuredSensorTopics config)).

(** A run of the demo server through a disconnection: connected, a
    message, the connection lost, an action that asks for a
    reconnection, connected again. *)
Definition reconnection : list Event :=
  [MqttConnect;
   MqttMessage "sensor/temperature" [Byte.x15] 1;
   MqttClose;
   PostAction Mqtt.noFaults (JStr "led") (JStr "on");
   MqttConnect].

Definition afterReconnection : Server * list (option Response) :=
  match run Demo.env Demo.config Js Demo.server reconnection with
  | Ok outcome => outcome
  | Throw _ => (Demo.server, [])
  end.

(** ** Vocabulary for the action properties *)

(** `value !== undefined && value !== null ? value : ''` *)
Definition actionPayload (value : JsVal) : JsVal :=
  match value with
  | JUndefined | JNull => JStr ""
  | _ => value
  end.

(** The reconnection sentence as the specification has it: an action
    for a Button, sent while the connection is down and followed by
    the failure of the reconnection it asked for (the next thing the
    client reports is 'close', not 'connect'), is not answered with a
    success. *)
Definition failedReconnectRejectsAction : Prop :=
  ∀ (env : Env) (config : Config) (variant : Variant) (st st' : Server)
    (action value : JsVal) (member : Member.t) (r : Response),
    findMember (isButtonNamed action) (tabs config) = Some member →
    truthyVal action = true →
    truthy (Member.publish_topic member) = true →
    Mqtt.connected (mqttClient st) = false →
    run env config variant st [PostAction Mqtt.noFaults action value; MqttClose]
      = Ok (st', [Some r; None]) →
    succeeded r = false.

(** The demo server is asked for an action while disconnected, and the
    reconnection fails. *)
Definition afterFailedReconnection : Server * list (option Response) :=
  match run Demo.env Demo.config Js Demo.server
          [PostAction Mqtt.noFaults (JStr "led") (JStr "on"); MqttClose] with
  | Ok outcome => outcome
  | Throw _ => (Demo.server, [])
  end.


(** ** Vocabulary for the further properties *)


(** What holds of the registry in every state: the topic list and the
    decoder table are the ones built at start-up. *)
Definition registryKept (env : Env) (config : Config) (st : Server) : Prop :=
  sensorTopics st = fst (registry env config)
  ∧ topicDecoderMap st = snd (registry env config).


(** ** Vocabulary of the upload and download properties *)

(** The directory an accepted upload is moved to: upload_server.js
    resolves the policy's directory against [__dirname],
    upload_server.mjs calls [resolveDir] with the arguments in the
    other order. *)
Definition uploadDirFor (env : Env) (config : Config) (variant : Variant)
    (uploadCfg : Member.t) : result string :=
  match variant with
  | Js => resolveDir (Some (__dirname env)) (Member.upload_directory uploadCfg)
  | Mjs => resolveDir (Member.upload_directory uploadCfg) (Some (UPLOAD_DIR env config))
  end.

Definition uploadBodyOf (env : Env) (config : Config) (variant : Variant)
  : option string → option ReqFile.t → Handler JsVal :=
  match variant with
  | Js => uploadBody env config
  | Mjs => uploadBodyMjs env config
  end.

(** The file event of an upload, when one is published. *)
Definition uploadEvent (env : Env) (variant : Variant) (st : Server)
    (uploadDir name : string) (size : N) (button_name : option string)
  : list (string * Payload) :=
  match variant, FileEvent env with
  | Js, Some serializeBinary =>
      if Mqtt.connected (mqttClient st) then
        [("file/uploaded",
          PBytes (serializeBinary
                    (Path.relative (cwd env) uploadDir (Path.join [uploadDir; name]))
                    size (default "" (orNull button_name))))]
      else []
  | _, _ => []
  end.

(** The state after `pic.png` has been uploaded under the policy
    `images` of the demonstration deployment. *)
Definition afterPicture : Server :=
  fst (uploadRoute Demo.env Demo.config (uploadBody Demo.env Demo.config)
         (Some "images") (Some ("pic.png", 5%N)) Demo.server).

(** `getDownloadConfig(buttonName) || getDownloadConfig()` *)
Definition downloadCfgFor (config : Config) (button_name : option string)
  : option Member.t :=
  orElse (getDownloadConfig config (orNull button_name)) (getDownloadConfig config None).

(** `req.body.filename || req.body.path` *)
Definition requestedName (filename path : option string) : option string :=
  orElse (orNull filename) (orNull path).


(** ** Vocabulary of the telemetry properties *)

(** [st'] has the sensor cache and the WebSocket clients of [st]. *)
Definition sameTelemetry (st st' : Server) : Prop :=
  latestSensorData st' = latestSensorData st ∧ wssClients st' = wssClients st.

(** A handler body that leaves them alone, however it ends. *)
Definition keepsTelemetry {A} (h : Handler A) : Prop :=
  ∀ st, sameTelemetry st (snd (h st)).

(** Every key of the cache is the key of a configured sensor topic. *)
Definition cacheKeysConfigured (config : Config) (st : Server) : Prop :=
  ∀ key reading, latestSensorData st !! key = Some reading →
    ∃ topic, topic ∈ configuredSensorTopics config ∧ sensorKey topic = key.

Definition isMqttMessage (ev : Event) : bool :=
  match ev with
  | MqttMessage _ _ _ => true
  | _ => false
  end.

Definition isWsConnection (ev : Event) : bool :=
  match ev with
  | WsConnection => true
  | _ => false
  end.


(** ** Vocabulary of the start-up and browse properties *)

(** The Download members, in configuration order. *)
Definition downloadPolicies (config : Config) : list Member.t :=
  filter (λ m, isType "download" m = true) (allMembers config).

(** The path that [Fs.mkdirSegments] reaches from [prefix]. *)
Definition descend (prefix : string) (segs : list string) : string :=
  fold_left (λ p seg, p +:+ "/" +:+ seg) segs prefix.

(** A deployment whose upload policy stores into the root of its
    download policy, and its state after `notes.txt` has been
    uploaded. *)
Definition sharedDirConfig : Config :=
  {| broker_host := "localhost"; broker_port := 1883;
     tabs := [Tab.mk "files" None None
                [Demo.uploadPolicy "in" "downloads" [".txt"] None;
                 Demo.downloadPolicy "out" "downloads" [".txt"]]] |}.
Definition sharedDirServer : Server := initialServer Demo.env sharedDirConfig Demo.disk.
Definition afterNotes : Server :=
  fst (uploadRoute Demo.env sharedDirConfig (uploadBody Demo.env sharedDirConfig)
         (Some "in") (Some ("notes.txt", 5%N)) sharedDirServer).

(** ** The earlier server kept at the end of upload_server.js

    One upload directory, one list of extensions read from
    `config.tabs.files.upload_config`, a multer file filter, a
    download route by file name, and a message handler for every topic
    below `sensor/`. *)

Module Legacy.

Record Config : Type := {
  (** `config.tabs.files.upload_config.allowed_extensions` *)
  allowed_extensions : list string;
}.

Section Legacy.
Context (env : Env) (config : Config).

Definition UPLOAD_DIR : string := Path.join [__dirname env; "uploads"].
Definition ALLOWED_EXTENSIONS : list string := allowed_extensions config.

(** [fileFilter]: `cb(null, true)` or `cb(new Error(...), false)`. *)
Definition fileFilter (originalname : string) : result bool :=
  let ext := Path.extname originalname in
  if bool_decide (ext ∈ ALLOWED_EXTENSIONS) then Ok true
  else Throw "File type not allowed".

(** `upload.single('file')` with the filter: multer asks the filter
    before it stores anything, and hands its error on. *)
Definition upload (file : option (string * N))
  : Server → result (option ReqFile.t) * Server :=
  λ st,
  match file with
  | None => (Ok None, st)
  | Some (name, size) =>
      match fileFilter name with
      | Throw e => (Throw e, st)
      | Ok false => (Ok None, st)
      | Ok true =>
          let finalPath := Path.join [UPLOAD_DIR; name] in
          match Fs.writeFile (cwd env) (fs st) finalPath size with
          | Ok fs' => (Ok (Some (ReqFile.mk name finalPath size)), setFs fs' st)
          | Throw e => (Throw e, st)
          end
      end
  end.

Definition uploadOk (file : ReqFile.t) : JsVal :=
  JObj [("success", JBool true);
        ("filename", JStr (ReqFile.originalname file));
        ("full_path", JStr (ReqFile.path file))].
Definition noFile : JsVal :=
  JObj [("success", JBool false);
        ("error", JStr "No file uploaded or file type not allowed")].

(** POST /api/upload *)
Definition uploadRoute (file : option (string * N)) : Server → Server * Response :=
  λ st,
  match upload file st with
  | (Throw e, st') => (st', ErrorPage 500 e)
  | (Ok None, st') => (st', Json 400 noFile)
  | (Ok (Some reqFile), st') => (st', Json 200 (uploadOk reqFile))
  end.

(** GET /api/download/:filename; `res.download(filePath)` names the
    download after the last part of the path. *)
Definition downloadRoute (filename : string) : Server → Server * Response :=
  λ st,
  let filePath := Path.join [UPLOAD_DIR; filename] in
  if Fs.existsSync (cwd env) (fs st) filePath
  then (st, Download filePath (Path.basename filePath))
  else (st, Json 404 (JObj [("error", JStr "File not found")])).

(** `mqttClient.on('connect', ...)`: one wildcard subscription. *)
Definition onMqttConnect (st : Server) : Server :=
  setMqttClient (Mqtt.subscribe "sensor/#" (Mqtt.onConnected (mqttClient st))) st.

Definition sensorUpdate (topic : string) (parsed : JsVal) : JsVal :=
  JObj [("type", JStr "sensor_update"); ("topic", JStr topic); ("data", parsed)].

(** `mqttClient.on('message', ...)`: the decoder is chosen by the
    topic, inside the `try`; the reading is cached under the topic. *)
Definition onMqttMessage (topic : string) (message : list Byte.byte) : Server → Server :=
  λ st,
  if JsString.startsWith topic "sensor/" then
    let parsed := decodeMessage (Some (decoderFor env topic)) message in
    setWssClients (map (deliver (sensorUpdate topic parsed)) (wssClients st))
      (setLatestSensorData (<[topic := parsed]> (latestSensorData st)) st)
  else st.

End Legacy.
End Legacy.

(** A legacy deployment that takes text files. *)
Definition legacyConfig : Legacy.Config :=
  {| Legacy.allowed_extensions := [".txt"; ".csv"] |}.

(** ** POST /api/download, upload_server.mjs

    The body is a protobuf message; what
    [fileopsProto.decodeFileDownloadRequest] makes of it is given: the
    two fields it reads, or the error it throws. The route answers
    with JSON only; no file is sent. *)




(** ** Vocabulary of the WebSocket properties *)

Definition isInit (msg : JsVal) : Prop :=
  ∃ sensors, msg = JObj [("type", JStr "init"); ("sensors", sensors)].

Definition isSensorUpdate (msg : JsVal) : Prop :=
  getProp "type" msg = JStr "sensor_update".

(** What a client has been sent: the greeting first, then updates. *)
Definition greetedFirst (client : WsClient) : Prop :=
  ∃ greeting updates,
    inbox client = greeting :: updates
    ∧ isInit greeting ∧ Forall isSensorUpdate updates.


(** A deployment whose fileops module exports `FileEvent` (serialized
    here to the bytes of the path), connected to the broker, and its
    state after `notes.txt` has been uploaded. *)
Definition eventEnv : Env :=
  {| __dirname := "/srv/app"; cwd := "/srv/app";
     sensorProto := SensorProto.mk Demo.decodeTemperature Demo.decodeNothing
                      Demo.decodeNothing Demo.decodeNothing;
     FileEvent := Some (λ relPath _ _, list_byte_of_string relPath);
     toFixed6 := λ _, "0.000000";
     toISOString := λ _, Ok "1970-01-01T00:00:00.000Z";
     parseNumber := λ _, None |}.
Definition connectedServer : Server :=
  onMqttConnect (initialServer eventEnv Demo.config Demo.disk).
Definition afterEvent : Server :=
  fst (uploadRoute eventEnv Demo.config (uploadBody eventEnv Demo.config)
         None (Some ("notes.txt", 5%N)) connectedServer).

(** * Part II: properties *)

(** * Running the definitions *)

Example split_examples :
  JsString.split "sensor/temperature" = ["sensor"; "temperature"]
  ∧ JsString.split "" = [""]
  ∧ JsString.split "/a//b/" = [""; "a"; ""; "b"; ""].
Proof. by vm_compute. Qed.

Example stripDotRuns_examples :
  JsString.stripDotRuns "../../etc" = "//etc"
  ∧ JsString.stripDotRuns ".../a.b/./...." = "/a.b/./"
  ∧ JsString.stripDotPairs ".../a.b/./...." = "./a.b/./"
  ∧ JsString.replaceBackslashes "..\..\etc" = "../../etc".
Proof. by vm_compute. Qed.

Example join_examples :
  Path.join ["/srv/app"; "uploads"] = "/srv/app/uploads"
  ∧ Path.join ["/srv/app/downloads"; "//etc"] = "/srv/app/downloads/etc"
  ∧ Path.join ["/srv/app/uploads"; "../secret.txt"] = "/srv/app/secret.txt"
  ∧ Path.join ["/srv/app/../data/"; "a/./b/"] = "/srv/data/a/b/"
  ∧ Path.join ["/srv"; "../../.."] = "/"
  ∧ Path.join ["a"; "../../b"] = "../b"
  ∧ Path.join [""; ""] = ".".
Proof. by vm_compute. Qed.

Example resolve_examples :
  Path.resolve "/w" ["/srv/app/../data/x/"] = "/srv/data/x"
  ∧ Path.resolve "/w" ["data/../../x"] = "/x"
  ∧ Path.resolve "/w/d" ["x"; "y"] = "/w/d/x/y"
  ∧ Path.resolve "/w" ["x"; "/y"; "z"] = "/y/z"
  ∧ Path.resolve "/w" ["/"] = "/".
Proof. by vm_compute. Qed.

Example extname_examples :
  Path.extname <$> ["a.txt"; ".bashrc"; "a."; ".."; "..."; "x/y.tar.gz"; "noext";
                    "a.b/"; ".a.b"]
  = [".txt"; ""; "."; ""; "."; ".gz"; ""; ".b"; ".b"].
Proof. by vm_compute. Qed.

Example relative_examples :
  Path.relative "/w" "/srv/app/uploads" "/srv/app/uploads/a.txt" = "a.txt"
  ∧ Path.relative "/w" "/srv/app/uploads" "/srv/b/a.txt" = "../../b/a.txt".
Proof. by vm_compute. Qed.

Example base64_examples :
  Base64.encode [Byte.x48; Byte.x65; Byte.x6c; Byte.x6c; Byte.x6f] = "SGVsbG8="
  ∧ Base64.encode [Byte.xff; Byte.xfe] = "//4="
  ∧ Base64.encode [] = "".
Proof. by vm_compute. Qed.

Example startup_demo : startup Demo.env Demo.config Demo.disk = Serving Demo.server.
Proof. vm_compute. reflexivity. Qed.

Example startup_rejects_twoLogs :
  startup Demo.env twoLogs Demo.disk
  = Exited 1 "Config validation failed: Duplicate button_name found in config: logs".
Proof. vm_compute. reflexivity. Qed.

Example temperature_scenario :
  match step Demo.env Demo.config Js Demo.server
          (MqttMessage "sensor/temperature" [Byte.x15] 1700000000000) with
  | Ok (st', _) =>
      latestSensorData st' !! "temperature"
      = Some (JObj [("value", JNum 21); ("unit", JStr "°C");
                    ("timestamp", JNum 1700000000000)])
  | Throw _ => False
  end.
Proof. vm_compute. reflexivity. Qed.

(** * String lemmas *)

Section StringFacts.
Import JsString.

Lemma split_nonempty s : split s ≠ [].
Proof. destruct s as [|c s]; simpl; [done|]. destruct (isSlash c); [done|]. by destruct (split s). Qed.

Lemma split_cons c s :
  isSlash c = false →
  ∃ w ws, split s = w :: ws ∧ split (String c s) = String c w :: ws.
Proof.
  intros Hc. destruct (split s) as [|w ws] eqn:E; [by apply split_nonempty in E|].
  exists w, ws. split; [done|]. simpl. by rewrite Hc, E.
Qed.

Lemma split_app_slash a b : split (a +:+ "/" +:+ b) = split a ++ split b.
Proof.
  induction a as [|c a IH]; [done|].
  change (String c a +:+ "/" +:+ b) with (String c (a +:+ "/" +:+ b)).
  destruct (isSlash c) eqn:Hc.
  - simpl. rewrite Hc. simpl in IH. by rewrite IH.
  - destruct (split_cons c a Hc) as (w & ws & Ea & Eca).
    destruct (split_cons c (a +:+ "/" +:+ b) Hc) as (w' & ws' & Eab & Ecab).
    rewrite Ecab, Eca. rewrite IH, Ea in Eab. simpl in Eab. by simplify_eq.
Qed.

Lemma split_slashFree s : Forall slashFree (split s).
Proof.
  induction s as [|c s IH]; [by constructor|].
  destruct (isSlash c) eqn:Hc.
  - simpl. rewrite Hc. by constructor.
  - destruct (split_cons c s Hc) as (w & ws & Es & Ecs). rewrite Ecs.
    rewrite Es in IH. inversion IH as [|? ? Hw Hws]; subst.
    constructor; [|done]. unfold slashFree in *. simpl. by rewrite Hc, Hw.
Qed.

Lemma split_joinSlash segs :
  segs ≠ [] → Forall slashFree segs → split (joinSlash segs) = segs.
Proof.
  induction segs as [|w [|w' ws] IH]; intros Hne Hall; [done| |].
  - by inversion Hall.
  - inversion Hall as [|? ? Hw Hws]; subst.
    change (joinSlash (w :: w' :: ws)) with (w +:+ "/" +:+ joinSlash (w' :: ws)).
    rewrite split_app_slash, IH by done. by rewrite Hw.
Qed.

End StringFacts.

Lemma filter_all {A} (P : A → Prop) `{!∀ x, Decision (P x)} (l : list A) :
  Forall P l → filter P l = l.
Proof.
  induction 1 as [|x l Hx _ IH]; [done|]. by rewrite filter_cons_True, IH.
Qed.

(** * Path lemmas *)

Section PathFacts.
Import JsString Path.

Lemma step_plain allow acc seg : plain seg → step allow acc seg = seg :: acc.
Proof.
  intros (_ & H1 & H2 & H3). unfold step.
  apply String.eqb_neq in H1, H2, H3. by rewrite H1, H2, H3.
Qed.

Lemma step_no_pop allow acc seg :
  seg ≠ ".." → step allow acc seg = if kept seg then seg :: acc else acc.
Proof.
  intros H. unfold step, kept. apply String.eqb_neq in H. rewrite H.
  by destruct (_ || _).
Qed.

Lemma fold_step_no_pop allow segs acc :
  ".." ∉ segs →
  fold_left (step allow) segs acc = rev (filter (λ s, kept s = true) segs) ++ acc.
Proof.
  revert acc. induction segs as [|seg segs IH]; intros acc Hno; [done|].
  apply not_elem_of_cons in Hno as [Hseg Hno].
  cbn [fold_left]. rewrite step_no_pop by done. rewrite filter_cons.
  destruct (kept seg) eqn:E.
  - rewrite decide_True by done. rewrite IH by done. cbn [rev].
    by rewrite <- app_assoc.
  - rewrite decide_False by done. by rewrite IH.
Qed.

Lemma fold_step_plain allow segs acc :
  Forall plain segs → fold_left (step allow) segs acc = rev segs ++ acc.
Proof.
  revert acc. induction segs as [|seg segs IH]; intros acc Hall; [done|].
  inversion Hall; subst. simpl. rewrite step_plain, IH by done.
  by rewrite <- app_assoc.
Qed.

(** Below the root nothing but plain segments is ever kept. *)
Lemma step_false_plain acc seg :
  slashFree seg → Forall plain acc → Forall plain (step false acc seg).
Proof.
  intros Hs Hacc. unfold step.
  destruct (String.eqb seg "") eqn:E1; [done|].
  destruct (String.eqb seg ".") eqn:E2; [done|]. simpl.
  destruct (String.eqb seg "..") eqn:E3.
  - destruct acc as [|top rest]; [done|]. inversion Hacc; subst.
    by destruct (String.eqb top "..").
  - constructor; [|done]. apply String.eqb_neq in E1, E2, E3. by repeat split.
Qed.

Lemma fold_step_false_plain segs acc :
  Forall slashFree segs → Forall plain acc →
  Forall plain (fold_left (step false) segs acc).
Proof.
  revert acc. induction segs as [|seg segs IH]; intros acc Hs Hacc; [done|].
  inversion Hs; subst. simpl. apply IH; [done|]. by apply step_false_plain.
Qed.

Lemma normalizeSegments_plain p : Forall plain (normalizeSegments false p).
Proof.
  unfold normalizeSegments. apply Forall_rev.
  apply fold_step_false_plain; [apply split_slashFree | constructor].
Qed.

Lemma joinSlash_nil_iff segs : Forall plain segs → joinSlash segs = "" → segs = [].
Proof.
  intros Hall. destruct segs as [|w ws]; [done|]. inversion Hall as [|? ? Hw _]; subst.
  destruct Hw as (_ & Hne & _). destruct w; [done|]. by destruct ws.
Qed.

Lemma isAbsolute_split p : isAbsolute p = true → ∃ rest, p = String "/" rest.
Proof.
  destruct p as [|c rest]; [done|]. simpl. unfold isSlash.
  intros H. apply Ascii.eqb_eq in H. subst. by eexists.
Qed.

Lemma split_root rest : split (String "/" rest) = "" :: split rest.
Proof. done. Qed.

(** The segments of an absolute path after normalization, whatever it
    is followed by. *)
Lemma normalizeSegments_trailing p :
  normalizeSegments false (p +:+ "/" +:+ "") = normalizeSegments false p.
Proof.
  unfold normalizeSegments. rewrite split_app_slash. simpl.
  by rewrite fold_left_app.
Qed.

Lemma resolve_absolute cwd p :
  isAbsolute p = true →
  resolve cwd [p] = "/" +:+ joinSlash (normalizeSegments false p).
Proof.
  intros Habs. destruct (isAbsolute_split p Habs) as [rest ->].
  unfold resolve. simpl rev. simpl app. unfold resolveLoop.
  change (String.eqb (String "/" rest) "") with false. cbv iota.
  rewrite Habs. cbv iota beta zeta. simpl negb. unfold normalizeString.
  by rewrite normalizeSegments_trailing.
Qed.

(** Rendering plain segments as a canonical path and reading it back. *)
Lemma normalizeSegments_render segs trailing :
  Forall plain segs →
  normalizeSegments false
    ("/" +:+ (if trailing : bool then joinSlash segs +:+ "/" else joinSlash segs))
  = segs.
Proof.
  intros Hall. unfold normalizeSegments.
  change ("/" +:+ ?x) with (String "/" x). rewrite split_root. cbn [fold_left].
  change (step false [] "") with (@nil string).
  destruct segs as [|w ws].
  - by destruct trailing.
  - assert (Hsp : split (joinSlash (w :: ws)) = w :: ws).
    { apply split_joinSlash; [done|]. eapply Forall_impl; [exact Hall|]. by intros ? []. }
    destruct trailing.
    + replace (joinSlash (w :: ws) +:+ "/") with (joinSlash (w :: ws) +:+ "/" +:+ "").
      2:{ f_equal. }
      rewrite split_app_slash, Hsp, fold_left_app.
      rewrite (fold_step_plain false (w :: ws) []) by done.
      cbn [split fold_left]. change (step false ?a "") with a.
      by rewrite app_nil_r, rev_involutive.
    + rewrite Hsp, fold_step_plain by done. by rewrite app_nil_r, rev_involutive.
Qed.

Lemma normalize_absolute p :
  isAbsolute p = true →
  ∃ trailing : bool,
    normalize p =
      match normalizeSegments false p with
      | [] => "/"
      | segs => "/" +:+ (if trailing then joinSlash segs +:+ "/" else joinSlash segs)
      end.
Proof.
  intros Habs. destruct (isAbsolute_split p Habs) as [rest ->].
  unfold normalize. change (String.eqb (String "/" rest) "") with false. cbv iota.
  rewrite Habs. cbv zeta. simpl negb. unfold normalizeString.
  pose proof (normalizeSegments_plain (String "/" rest)) as Hpl.
  destruct (normalizeSegments false (String "/" rest)) as [|w ws] eqn:E.
  - exists false. done.
  - exists (endsWithSlash (String "/" rest)).
    destruct (String.eqb (joinSlash (w :: ws)) "") eqn:Ee.
    + apply String.eqb_eq in Ee. by apply joinSlash_nil_iff in Ee.
    + by destruct (endsWithSlash _).
Qed.

Lemma normalize_absolute_segments p :
  isAbsolute p = true →
  isAbsolute (normalize p) = true
  ∧ normalizeSegments false (normalize p) = normalizeSegments false p.
Proof.
  intros Habs. destruct (normalize_absolute p Habs) as [trailing ->].
  pose proof (normalizeSegments_plain p) as Hpl.
  destruct (normalizeSegments false p) as [|w ws] eqn:E; [done|].
  split; [done|]. by apply normalizeSegments_render.
Qed.

Lemma segments_render segs :
  Forall plain segs → segments ("/" +:+ joinSlash segs) = segs.
Proof.
  intros Hall. unfold segments. change ("/" +:+ ?x) with (String "/" x).
  rewrite split_root. rewrite filter_cons, decide_False by (by intros []).
  destruct segs as [|w ws]; [done|].
  rewrite split_joinSlash; [|done|by eapply Forall_impl; [exact Hall|intros ? []]].
  apply filter_all.
  eapply Forall_impl; [exact Hall|]. by intros ? (_ & ? & _).
Qed.

End PathFacts.

(** * Stripping dots leaves no parent segment *)

Section DotFacts.
Import JsString Path.












(** ** Joining below an absolute root *)

Lemma join_below_root root rel :
  isAbsolute root = true → ".." ∉ split rel →
  isAbsolute (join [root; rel]) = true
  ∧ normalizeSegments false (join [root; rel])
    = normalizeSegments false root ++ filter (λ s, kept s = true) (split rel).
Proof.
  intros Habs Hno. destruct (isAbsolute_split root Habs) as [rest ->].
  unfold join. rewrite filter_cons_True by done.
  destruct rel as [|c rel].
  - rewrite filter_cons_False by (by intros []). rewrite filter_nil.
    change (joinSlash [String "/" rest]) with (String "/" rest).
    destruct (normalize_absolute_segments _ Habs) as [-> ->].
    split; [done|]. cbn [split]. rewrite filter_cons_False by done.
    by rewrite filter_nil, app_nil_r.
  - rewrite filter_cons_True by done. rewrite filter_nil.
    change (joinSlash [String "/" rest; String c rel])
      with (String "/" rest +:+ "/" +:+ String c rel).
    assert (Habs' : isAbsolute (String "/" rest +:+ "/" +:+ String c rel) = true) by done.
    destruct (normalize_absolute_segments _ Habs') as [-> ->].
    split; [done|]. unfold normalizeSegments.
    rewrite split_app_slash, fold_left_app, fold_step_no_pop by done.
    by rewrite rev_app_distr, rev_involutive.
Qed.


End DotFacts.

(** * GET /api/browse stays below the root *)

Section Browse.
Context (env : Env) (config : Config).
Hypothesis dirname_absolute : Path.isAbsolute (__dirname env) = true.

Lemma join_absolute a b :
  Path.isAbsolute a = true → Path.isAbsolute (Path.join [a; b]) = true.
Proof.
  intros Ha. destruct (isAbsolute_split a Ha) as [rest ->].
  unfold Path.join. rewrite filter_cons_True by done.
  destruct b as [|c b].
  - rewrite filter_cons_False by (by intros []). rewrite filter_nil.
    by apply normalize_absolute_segments.
  - rewrite filter_cons_True by done. rewrite filter_nil.
    by apply normalize_absolute_segments.
Qed.

Lemma resolveDir_absolute dir root :
  resolveDir (Some (__dirname env)) dir = Ok root → Path.isAbsolute root = true.
Proof.
  unfold resolveDir. destruct dir as [dir|]; [|done].
  destruct (Path.isAbsolute dir) eqn:E; intros [= <-]; [done|].
  by apply join_absolute.
Qed.




End Browse.



(** The request of the specification's scenario is answered with the
    listing of `etc` below the root, not with the contents of /etc. *)
Example browse_parent_segments :
  snd (browseRoute Demo.env Demo.config None (Some "../../etc") Demo.server)
  = Json 200 (JObj [("path", JStr "//etc"); ("directories", JArr []);
                    ("files", JArr [JObj [("filename", JStr "hosts.txt")]])]).
Proof. vm_compute. reflexivity. Qed.

(** * Configuration validation *)

Section Validation.

Local Ltac branches :=
  repeat (case_match; simplify_eq/=; try done);
  try (intros; simplify_eq; done).

Lemma validateMember_ok seen member seen' :
  validateMember seen member = Ok seen' →
  complete member = true
  ∧ match checkedName member with
    | Some name => (name ∉ seen) ∧ seen' = {[name]} ∪ seen
    | None => seen' = seen
    end.
Proof.
  unfold validateMember, checkedName, complete, require, show.
  unfold mbind, result_bind.
  destruct (isNamedKind member && truthy (Member.button_name member)) eqn:Enamed.
  - apply andb_true_iff in Enamed as [_ Ht].
    destruct (Member.button_name member) as [name|]; [|done]. simpl.
    destruct (bool_decide (name ∈ seen)) eqn:Hin; [done|].
    apply bool_decide_eq_false in Hin. branches.
  - branches.
Qed.

Lemma validateMember_complete seen member :
  complete member = true →
  validateMember seen member =
    match checkedName member with
    | Some name =>
        if bool_decide (name ∈ seen) then Throw (duplicateError name)
        else Ok ({[name]} ∪ seen)
    | None => Ok seen
    end.
Proof.
  unfold validateMember, checkedName, complete, require, show, duplicateError.
  unfold mbind, result_bind. intros Hc.
  destruct (isNamedKind member && truthy (Member.button_name member)) eqn:Enamed.
  - apply andb_true_iff in Enamed as [_ Ht].
    destruct (Member.button_name member) as [name|]; [|done]. simpl.
    destruct (bool_decide (name ∈ seen)) eqn:Hin; [done|].
    apply bool_decide_eq_false in Hin. branches.
  - branches.
Qed.

Lemma duplicateError_inj a b : duplicateError a = duplicateError b → a = b.
Proof. unfold duplicateError. simpl. intros [= H]. exact H. Qed.

Lemma validateMember_duplicate seen member name :
  validateMember seen member = Throw (duplicateError name) →
  checkedName member = Some name ∧ name ∈ seen.
Proof.
  unfold validateMember, checkedName, require, show.
  unfold mbind, result_bind.
  destruct (isNamedKind member && truthy (Member.button_name member)) eqn:Enamed.
  - apply andb_true_iff in Enamed as [_ Ht].
    destruct (Member.button_name member) as [name'|]; [|done]. simpl.
    destruct (bool_decide (name' ∈ seen)) eqn:Hin.
    + apply bool_decide_eq_true in Hin.
      unfold duplicateError. intros [= H]. change (name' = name) in H. by subst.
    + repeat case_match; simplify_eq; try done; unfold duplicateError; intros [= H]; discriminate H.
  - repeat case_match; simplify_eq; try done; unfold duplicateError; intros [= H]; discriminate H.
Qed.

Lemma omap_cons_eq {A B} (f : A → option B) (x : A) (l : list A) :
  omap f (x :: l) = match f x with Some y => y :: omap f l | None => omap f l end.
Proof. done. Qed.

Lemma validateMembers_app seen ms1 ms2 :
  validateMembers seen (ms1 ++ ms2)
  = (seen' ← validateMembers seen ms1; validateMembers seen' ms2).
Proof.
  revert seen. induction ms1 as [|m ms1 IH]; intros seen; [done|].
  cbn [app validateMembers]. unfold mbind, result_bind.
  destruct (validateMember seen m) as [seen'|e]; [apply IH|done].
Qed.

Lemma validateTabs_flat seen tabs :
  validateTabs seen tabs = validateMembers seen (flat_map Tab.members tabs).
Proof.
  revert seen. induction tabs as [|tab tabs IH]; intros seen; [done|].
  cbn [validateTabs flat_map]. rewrite validateMembers_app.
  unfold mbind, result_bind.
  destruct (validateMembers seen (Tab.members tab)); [apply IH|done].
Qed.

Lemma validateMembers_ok seen ms seen' :
  validateMembers seen ms = Ok seen' →
  Forall (λ m, complete m = true) ms
  ∧ NoDup (omap checkedName ms)
  ∧ (∀ name, name ∈ omap checkedName ms → name ∉ seen)
  ∧ seen' = list_to_set (omap checkedName ms) ∪ seen.
Proof.
  revert seen seen'. induction ms as [|m ms IH]; intros seen seen'.
  - intros [= <-]. split_and!; [constructor|constructor|set_solver|set_solver].
  - cbn [validateMembers]. unfold mbind, result_bind.
    destruct (validateMember seen m) as [seen1|e] eqn:Em; [|done].
    intros (Hc & Hnd & Hfresh & ->)%IH.
    apply validateMember_ok in Em as [Hm Hname].
    rewrite omap_cons_eq.
    destruct (checkedName m) as [name|].
    + destruct Hname as [Hname ->]. split_and!.
      * by constructor.
      * constructor; [|done]. intros Hin%Hfresh. set_solver.
      * intros n [->|Hin]%elem_of_cons; [done|]. apply Hfresh in Hin. set_solver.
      * set_solver.
    + subst seen1. split_and!; [by constructor|done|done|done].
Qed.

Lemma validateMembers_complete seen ms :
  Forall (λ m, complete m = true) ms →
  validateMembers seen ms =
    match firstDuplicate seen (omap checkedName ms) with
    | Some name => Throw (duplicateError name)
    | None => Ok (list_to_set (omap checkedName ms) ∪ seen)
    end.
Proof.
  revert seen. induction ms as [|m ms IH]; intros seen Hall.
  - cbn. f_equal. set_solver.
  - inversion Hall as [|? ? Hm Hms]; subst.
    cbn [validateMembers]. rewrite validateMember_complete by done.
    rewrite omap_cons_eq. unfold mbind, result_bind.
    destruct (checkedName m) as [name|].
    + cbn [firstDuplicate]. destruct (bool_decide (name ∈ seen)); [done|].
      rewrite IH by done. destruct (firstDuplicate _ _); [done|].
      f_equal. set_solver.
    + by apply IH.
Qed.

Lemma validateMembers_duplicate seen ms name :
  validateMembers seen ms = Throw (duplicateError name) →
  ∃ before after,
    omap checkedName ms = before ++ name :: after
    ∧ (name ∈ seen ∨ name ∈ before).
Proof.
  revert seen. induction ms as [|m ms IH]; intros seen; [done|].
  cbn [validateMembers]. unfold mbind, result_bind.
  destruct (validateMember seen m) as [seen1|e] eqn:Em.
  - intros (before & after & Hsplit & Hin)%IH.
    apply validateMember_ok in Em as [_ Hname].
    rewrite omap_cons_eq.
    destruct (checkedName m) as [name1|].
    + destruct Hname as [_ ->]. exists (name1 :: before), after.
      rewrite Hsplit. split; [done|]. set_solver.
    + subst seen1. by exists before, after.
  - intros [= ->]. apply validateMember_duplicate in Em as [Hname Hin].
    rewrite omap_cons_eq.
    rewrite Hname. exists [], (omap checkedName ms). split; [done|]. by left.
Qed.

Lemma validateConfig_ok config :
  validateConfig config = Ok () → NoDup (buttonNames config).
Proof.
  unfold validateConfig, mbind, result_bind. rewrite validateTabs_flat.
  destruct (validateMembers _ _) eqn:E; [|done]. intros _.
  by apply validateMembers_ok in E as (_ & ? & _).
Qed.

End Validation.

(** C3, amended. Names that are missing or empty stay out of the
    uniqueness check; for the others: (1) two members at different
    places with one name make [validateConfig] throw, and the process
    exits before serving; (2) when no member lacks a required property
    the error is the duplicate error, naming the first name that
    repeats; (3) a duplicate error always names a name that two
    members carry; (4) with pairwise distinct names no duplicate error
    is raised. *)
Theorem duplicate_button_name_rejected (config : Config) :
  (∀ i j name,
     i ≠ j →
     buttonNames config !! i = Some name →
     buttonNames config !! j = Some name →
     (∃ e, validateConfig config = Throw e)
     ∧ ∀ env fs0 st, startup env config fs0 ≠ Serving st)
  ∧ (Forall (λ m, complete m = true) (allMembers config) →
     validateConfig config =
       match firstDuplicate ∅ (buttonNames config) with
       | Some name => Throw (duplicateError name)
       | None => Ok ()
       end)
  ∧ (∀ name,
       validateConfig config = Throw (duplicateError name) →
       ∃ i j, i < j
         ∧ buttonNames config !! i = Some name
         ∧ buttonNames config !! j = Some name)
  ∧ (NoDup (buttonNames config) →
     ∀ name, validateConfig config ≠ Throw (duplicateError name)).
Proof.
  assert (Hdup : ∀ name,
    validateConfig config = Throw (duplicateError name) →
    ∃ i j, i < j ∧ buttonNames config !! i = Some name
      ∧ buttonNames config !! j = Some name).
  { intros name. unfold validateConfig, mbind, result_bind.
    rewrite validateTabs_flat.
    destruct (validateMembers _ _) eqn:E; [done|]. intros [= ->].
    apply validateMembers_duplicate in E as (before & after & Hsplit & [Hin|Hin]).
    { set_solver. }
    apply list_elem_of_lookup in Hin as [i Hi].
    exists i, (length before). unfold buttonNames, allMembers. rewrite Hsplit.
    split_and!.
    - by eapply lookup_lt_Some.
    - by apply lookup_app_l_Some.
    - by rewrite list_lookup_middle. }
  split_and!.
  - intros i j name Hij Hi Hj.
    assert (Hthrow : ∃ e, validateConfig config = Throw e).
    { destruct (validateConfig config) as [[]|e] eqn:E; [|by eexists].
      apply validateConfig_ok in E. destruct Hij.
      by eapply NoDup_lookup. }
    split; [done|]. destruct Hthrow as [e He]. intros env fs0 st.
    unfold startup. rewrite He. by repeat case_match.
  - intros Hall. unfold validateConfig, mbind, result_bind.
    rewrite validateTabs_flat, validateMembers_complete by done.
    fold (allMembers config). fold (buttonNames config).
    by destruct (firstDuplicate _ _).
  - done.
  - intros Hnd name (i & j & Hlt & Hi & Hj)%Hdup.
    pose proof (NoDup_lookup _ _ _ _ Hnd Hi Hj). lia.
Qed.

Lemma duplicate_button_name_rejected_witness :
  (∃ e, validateConfig twoLogs = Throw e)
  ∧ validateConfig twoLogs = Throw (duplicateError "logs")
  ∧ ∀ fs0 st, startup Demo.env twoLogs fs0 ≠ Serving st.
Proof.
  pose proof (duplicate_button_name_rejected twoLogs) as (H1 & H2 & _).
  destruct (H1 0%nat 2%nat "logs") as [He Hs]; [lia|reflexivity|reflexivity|].
  split; [exact He|]. split; [|exact (Hs Demo.env)].
  rewrite H2; [reflexivity|]. repeat constructor.
Defined.

(** Two buttons whose name is the empty string pass validation. *)
Lemma shared_empty_name_accepted : ¬ sharedNameRejected.
Proof.
  intros Hclaim.
  destruct (Hclaim twoUnnamedButtons 0%nat 1%nat
              (Demo.button "" (Some "actuator/led"))
              (Demo.button "" (Some "actuator/fan")) "") as [e He]; try done.
Qed.

(** * Which upload policy applies *)

Section UploadPolicy.

Lemma find_app_eq {A} (p : A → bool) (l1 l2 : list A) :
  find p (l1 ++ l2) = orElse (find p l1) (find p l2).
Proof.
  induction l1 as [|x l1 IH]; [done|]. cbn [app find].
  by destruct (p x).
Qed.

Lemma findMember_flat test tabs :
  findMember test tabs = find test (flat_map Tab.members tabs).
Proof.
  induction tabs as [|tab tabs IH]; [done|].
  cbn [findMember flat_map]. rewrite find_app_eq, IH.
  by destruct (find test (Tab.members tab)).
Qed.

Lemma find_and_filter {A} (p q : A → bool) (l : list A) :
  find (λ x, p x && q x) l = find q (filter (λ x, p x = true) l).
Proof.
  induction l as [|x l IH]; [done|]. cbn [find]. rewrite filter_cons.
  destruct (p x) eqn:Ep.
  - rewrite decide_True by done. cbn [andb find]. by rewrite IH.
  - rewrite decide_False by done. cbn [andb]. exact IH.
Qed.

Lemma find_true_head {A} (l : list A) : find (λ _, true) l = head l.
Proof. by destruct l. Qed.

Lemma getUploadConfig_named config name :
  truthy (Some name) = true →
  getUploadConfig config (Some name)
  = find (λ m, strictEq (Member.button_name m) (Some name)) (uploadPolicies config).
Proof.
  intros Ht. unfold getUploadConfig. rewrite findMember_flat, Ht.
  by rewrite find_and_filter.
Qed.

Lemma getUploadConfig_unnamed config button_name :
  truthy button_name = false →
  getUploadConfig config button_name = head (uploadPolicies config).
Proof.
  intros Ht. unfold getUploadConfig. rewrite findMember_flat, Ht.
  rewrite find_and_filter. apply find_true_head.
Qed.

(** The route up to the checks, case by case. *)
Lemma uploadChecks_cases env config button_name file st :
  uploadChecks env config button_name file st =
    match uploadCfgFor config button_name, file with
    | None, _ => (Throw "No upload config found", st)
    | Some _, None => (Throw "No file uploaded", st)
    | Some uploadCfg, Some f =>
        let unlinked (message : string) :=
          match Fs.unlinkSync (cwd env) (fs st) (ReqFile.path f) with
          | Ok fs' => (Throw message, setFs fs' st)
          | Throw e => (Throw e, st)
          end in
        if extensionRejected uploadCfg (Path.extname (ReqFile.originalname f))
        then unlinked "File type not allowed"
        else if sizeRejected uploadCfg (ReqFile.size f)
        then unlinked "File size exceeds limit"
        else (Ok (uploadCfg, f), st)
    end.
Proof.
  unfold uploadChecks, uploadCfgFor.
  unfold mbind, handler_bind, fromOption, mret, handler_ret, throw.
  destruct (orElse _ _) as [cfg|]; [|done].
  destruct file as [f|]; [|done].
  unfold when, fsCall, mret, handler_ret, throw.
  destruct (extensionRejected _ _).
  { by destruct (Fs.unlinkSync _ _ _). }
  destruct (sizeRejected _ _); [|done].
  by destruct (Fs.unlinkSync _ _ _).
Qed.

Lemma uploadRoute_no_policy env config body button_name file st :
  (body = uploadBody env config ∨ body = uploadBodyMjs env config) →
  uploadCfgFor config button_name = None →
  ∃ st' r, uploadRoute env config body button_name file st = (st', r)
    ∧ (r = Json 200 (uploadFailed "No upload config found")
       ∨ ∃ e, r = ErrorPage 500 e).
Proof.
  intros Hbody Hnone. unfold uploadRoute.
  destruct (multer env config file st) as [[reqFile|e] st1]; [|by eauto 6].
  unfold tryCatch.
  assert (Hb : body button_name reqFile st1 = (Throw "No upload config found", st1)).
  { destruct Hbody as [-> | ->]; unfold uploadBody, uploadBodyMjs;
      unfold mbind at 1, handler_bind at 1;
      by rewrite uploadChecks_cases, Hnone. }
  rewrite Hb. eauto 6.
Qed.

End UploadPolicy.

(** C4, amended. The policy of an upload request is the first Upload
    member carrying the (non-empty) identifier supplied; when none is
    supplied, or none carries it, it is the first Upload member of the
    configuration, however many there are. Only a configuration
    without any Upload member leads to the rejection "No upload config
    found". *)
Theorem upload_policy_first_match (env : Env) (config : Config)
    (button_name : option string) :
  uploadCfgFor config button_name
  = orElse
      (if truthy button_name
       then find (λ m, strictEq (Member.button_name m) button_name)
              (uploadPolicies config)
       else None)
      (head (uploadPolicies config))
  ∧ (∀ file st uploadCfg reqFile st',
       uploadChecks env config button_name file st = (Ok (uploadCfg, reqFile), st') →
       uploadCfgFor config button_name = Some uploadCfg)
  ∧ (uploadPolicies config = [] →
     ∀ body file st,
       body = uploadBody env config ∨ body = uploadBodyMjs env config →
       ∃ st' r, uploadRoute env config body button_name file st = (st', r)
         ∧ (r = Json 200 (uploadFailed "No upload config found")
            ∨ ∃ e, r = ErrorPage 500 e)).
Proof.
  assert (Hchosen : uploadCfgFor config button_name
    = orElse
        (if truthy button_name
         then find (λ m, strictEq (Member.button_name m) button_name)
                (uploadPolicies config)
         else None)
        (head (uploadPolicies config))).
  { unfold uploadCfgFor, orNull.
    rewrite (getUploadConfig_unnamed config None) by done.
    destruct (truthy button_name) eqn:Ht.
    - destruct button_name as [name|]; [|done].
      by rewrite getUploadConfig_named.
    - rewrite (getUploadConfig_unnamed config None) by done.
      by destruct (head _). }
  split_and!; [done| |].
  - intros file st uploadCfg reqFile st'. rewrite uploadChecks_cases.
    destruct (uploadCfgFor config button_name) as [cfg|]; [|done].
    destruct file as [f|]; [|done]. cbv zeta.
    repeat case_match; intros; by simplify_eq.
  - intros Hnone body file st Hbody.
    apply uploadRoute_no_policy; [done|].
    rewrite Hchosen, Hnone. by destruct (truthy button_name).
Qed.

Lemma upload_policy_first_match_witness :
  uploadCfgFor Demo.config (Some "images")
    = Some (Demo.uploadPolicy "images" "images" [".png"] None)
  ∧ uploadCfgFor Demo.config (Some "nothing")
    = Some (Demo.uploadPolicy "docs" "uploads" [".txt"; ".csv"] (Some 10%N))
  ∧ uploadCfgFor Demo.config None
    = Some (Demo.uploadPolicy "docs" "uploads" [".txt"; ".csv"] (Some 10%N))
  ∧ ∃ st' r,
      uploadRoute Demo.env noUploads (uploadBody Demo.env noUploads)
        None (Some ("a.txt", 1%N)) Demo.server = (st', r)
      ∧ (r = Json 200 (uploadFailed "No upload config found")
         ∨ ∃ e, r = ErrorPage 500 e).
Proof.
  split_and!.
  - rewrite (proj1 (upload_policy_first_match Demo.env Demo.config (Some "images"))).
    reflexivity.
  - rewrite (proj1 (upload_policy_first_match Demo.env Demo.config (Some "nothing"))).
    reflexivity.
  - rewrite (proj1 (upload_policy_first_match Demo.env Demo.config None)).
    reflexivity.
  - apply (proj2 (proj2 (upload_policy_first_match Demo.env noUploads None)));
      [reflexivity|by left].
Defined.

(** With two Upload policies and no identifier the upload goes through,
    under the first policy. *)
Lemma ambiguous_upload_accepted : ¬ ambiguousUploadRejected.
Proof.
  intros Hclaim.
  specialize (Hclaim Demo.env Demo.config Demo.server (Some ("notes.txt", 5%N))).
  vm_compute in Hclaim. specialize (Hclaim ltac:(lia)). discriminate Hclaim.
Qed.

Example ambiguous_upload_first_policy :
  let '(st', r) := uploadRoute Demo.env Demo.config (uploadBody Demo.env Demo.config)
                     None (Some ("notes.txt", 5%N)) Demo.server in
  r = Json 200 (uploadOk "notes.txt")
  ∧ fs st' !! "/srv/app/uploads/notes.txt" = Some (Fs.File 5)
  ∧ length (uploadPolicies Demo.config) = 2%nat.
Proof. vm_compute. done. Qed.

(** * Rejected uploads *)

Section UploadRejection.
Context (env : Env) (config : Config).

Lemma setFs_same st : setFs (fs st) st = st.
Proof. by destruct st. Qed.

Lemma setFs_setFs f g st : setFs f (setFs g st) = setFs f st.
Proof. done. Qed.

Lemma multer_received name size st reqFile st1 :
  multer env config (Some (name, size)) st = (Ok (Some reqFile), st1) →
  let finalPath := Path.join [UPLOAD_DIR env config; name] in
  reqFile = ReqFile.mk name finalPath size
  ∧ st1 = setFs (<[Fs.key (cwd env) finalPath := Fs.File size]> (fs st)) st.
Proof.
  unfold multer. destruct (Fs.writeFile _ _ _ _) as [fs'|e] eqn:Ew; [|done].
  intros [= <- <-]. split; [done|]. f_equal.
  unfold Fs.writeFile in Ew. repeat case_match; by simplify_eq.
Qed.

Lemma rejected_upload_route body name size st reqFile st1 button_name uploadCfg :
  body = uploadBody env config ∨ body = uploadBodyMjs env config →
  multer env config (Some (name, size)) st = (Ok (Some reqFile), st1) →
  uploadCfgFor config button_name = Some uploadCfg →
  extensionRejected uploadCfg (Path.extname name) = true
    ∨ sizeRejected uploadCfg size = true →
  uploadRoute env config body button_name (Some (name, size)) st
  = (setFs (delete (Fs.key (cwd env) (Path.join [UPLOAD_DIR env config; name]))
              (fs st)) st,
     Json 200 (uploadFailed
       (if extensionRejected uploadCfg (Path.extname name)
        then "File type not allowed" else "File size exceeds limit"))).
Proof.
  intros Hbody Hm Hcfg Hrej. unfold uploadRoute. rewrite Hm.
  apply multer_received in Hm as [-> ->]. cbv zeta. unfold tryCatch.
  set (k := Fs.key (cwd env) (Path.join [UPLOAD_DIR env config; name])).
  set (st1 := setFs _ st).
  assert (Hun : Fs.unlinkSync (cwd env) (fs st1)
                  (Path.join [UPLOAD_DIR env config; name])
                = Ok (delete k (fs st))).
  { unfold Fs.unlinkSync. fold k. subst st1. cbn [fs setFs].
    by rewrite lookup_insert_eq, delete_insert_eq. }
  assert (Hchecks : ∀ A (rest : Member.t * ReqFile.t → Handler A),
    (uploadChecks env config button_name
       (Some (ReqFile.mk name (Path.join [UPLOAD_DIR env config; name]) size))
     ≫= rest) st1
    = (Throw (if extensionRejected uploadCfg (Path.extname name)
              then "File type not allowed" else "File size exceeds limit"),
       setFs (delete k (fs st)) st)).
  { intros A rest. unfold mbind at 1, handler_bind at 1.
    rewrite uploadChecks_cases, Hcfg. cbn [ReqFile.originalname ReqFile.path ReqFile.size].
    cbv zeta. rewrite Hun.
    destruct (extensionRejected _ _); [done|].
    destruct Hrej as [|Hs]; [done|]. by rewrite Hs. }
  destruct Hbody as [-> | ->]; unfold uploadBody, uploadBodyMjs;
    rewrite Hchecks; by destruct (extensionRejected _ _).
Qed.

End UploadRejection.

(** C2, amended. Once the file has been received, a request whose
    policy refuses the extension, or else the size (a declared limit
    other than 0 that the byte count exceeds), is answered with
    `success: false` and the message of the first check that failed,
    extension before size; the file system then is the one from before
    the request without the path of the received file, in both server
    files. So where no entry of that name existed in [UPLOAD_DIR]
    before, nothing has changed. *)
Theorem rejected_upload_is_deleted (env : Env) (config : Config) (st st1 : Server)
    (button_name : option string) (name : string) (size : N)
    (reqFile : ReqFile.t) (uploadCfg : Member.t) (body : _) :
  body = uploadBody env config ∨ body = uploadBodyMjs env config →
  multer env config (Some (name, size)) st = (Ok (Some reqFile), st1) →
  uploadCfgFor config button_name = Some uploadCfg →
  extensionRejected uploadCfg (Path.extname name) = true
    ∨ sizeRejected uploadCfg size = true →
  let received := Fs.key (cwd env) (Path.join [UPLOAD_DIR env config; name]) in
  let '(st', r) := uploadRoute env config body button_name (Some (name, size)) st in
  r = Json 200 (uploadFailed
        (if extensionRejected uploadCfg (Path.extname name)
         then "File type not allowed" else "File size exceeds limit"))
  ∧ succeeded r = false
  ∧ st' = setFs (delete received (fs st)) st
  ∧ fs st' !! received = None
  ∧ (fs st !! received = None → st' = st).
Proof.
  intros Hbody Hm Hcfg Hrej received.
  rewrite (rejected_upload_route env config body name size st reqFile st1
             button_name uploadCfg) by done.
  fold received. split_and!; [done| |done| |].
  - by destruct (extensionRejected _ _).
  - cbn [fs setFs]. apply lookup_delete_eq.
  - intros Hnone. rewrite delete_id by done. apply setFs_same.
Qed.

Lemma rejected_upload_is_deleted_witness :
  let '(st', r) := uploadRoute Demo.env Demo.config (uploadBody Demo.env Demo.config)
                     None (Some ("tool.exe", 5%N)) Demo.server in
  r = Json 200 (uploadFailed "File type not allowed")
  ∧ succeeded r = false
  ∧ st' = Demo.server.
Proof.
  pose proof (rejected_upload_is_deleted Demo.env Demo.config Demo.server
    (snd (multer Demo.env Demo.config (Some ("tool.exe", 5%N)) Demo.server))
    None "tool.exe" 5%N
    (ReqFile.mk "tool.exe" "/srv/app/uploads/tool.exe" 5%N)
    (Demo.uploadPolicy "docs" "uploads" [".txt"; ".csv"] (Some 10%N))
    (uploadBody Demo.env Demo.config)
    (or_introl eq_refl)) as H.
  specialize (H ltac:(vm_compute; reflexivity) eq_refl (or_introl eq_refl)).
  cbv zeta in H.
  destruct (uploadRoute _ _ _ _ _ _) as [st' r].
  destruct H as (Hr & Hs & _ & _ & Hsame).
  split; [exact Hr|]. split; [exact Hs|].
  apply Hsame. vm_compute. reflexivity.
Defined.

(** A second `report.txt`, too large this time, is refused, and the
    one uploaded before is gone from the upload directory. *)
Lemma rejected_upload_removes_existing_file : ¬ rejectedUploadKeepsDirectory.
Proof.
  intros Hclaim.
  specialize (Hclaim Demo.env Demo.config afterReport None "report.txt" 50%N
    (Demo.uploadPolicy "docs" "uploads" [".txt"; ".csv"] (Some 10%N))
    "/srv/app/uploads" eq_refl (or_intror eq_refl) eq_refl).
  assert (Hchanged :
    Fs.names (cwd Demo.env)
      (fs (fst (uploadRoute Demo.env Demo.config (uploadBody Demo.env Demo.config)
                  None (Some ("report.txt", 50%N)) afterReport)))
      "/srv/app/uploads"
    ≠ Fs.names (cwd Demo.env) (fs afterReport) "/srv/app/uploads").
  { intros Heq.
    apply (f_equal (λ names : gset string, bool_decide ("report.txt" ∈ names))) in Heq.
    vm_compute in Heq. discriminate Heq. }
  apply Hchanged.
  destruct (uploadRoute _ _ _ _ _ _) as [st' r]. apply Hclaim.
Qed.

Example report_was_stored :
  fs afterReport !! "/srv/app/uploads/report.txt" = Some (Fs.File 5)
  ∧ succeeded (snd (uploadRoute Demo.env Demo.config (uploadBody Demo.env Demo.config)
                      None (Some ("report.txt", 50%N)) afterReport)) = false.
Proof. vm_compute. done. Qed.

(** The allow-list is matched literally: the dot counts, and so does
    the case. *)
Example extension_exact_match :
  let policy := Demo.uploadPolicy "docs" "uploads" [".txt"; ".csv"] None in
  extensionRejected policy (Path.extname "setup.exe") = true
  ∧ extensionRejected policy (Path.extname "notes.txt") = false
  ∧ extensionRejected policy (Path.extname "NOTES.TXT") = true
  ∧ extensionRejected policy (Path.extname "txt") = true.
Proof. vm_compute. done. Qed.

(** * Sensor messages *)

Section SensorMessages.
Context (env : Env) (config : Config).

Lemma onMqttMessage_registered format topic message now st formatted :
  topic ∈ sensorTopics st →
  format topic (decodeMessage (topicDecoderMap st !! topic) message) now = Ok formatted →
  onMqttMessage format topic message now st = (Ok (), cached topic formatted st).
Proof.
  intros Hin Hfmt. unfold onMqttMessage.
  unfold mbind, handler_bind, get, lift, when.
  rewrite bool_decide_eq_true_2 by done. by rewrite Hfmt.
Qed.

Lemma onMqttMessage_unregistered format topic message now st :
  topic ∉ sensorTopics st →
  onMqttMessage format topic message now st = (Ok (), st).
Proof.
  intros Hin. unfold onMqttMessage.
  unfold mbind, handler_bind, get, lift, when.
  by rewrite bool_decide_eq_false_2.
Qed.




End SensorMessages.




Example pressure_cached_under_line1 :
  match step Demo.env Demo.config Js Demo.server
          (MqttMessage "plant/line1/pressure" [Byte.x2a] 1700000000000) with
  | Ok (st', _) =>
      dom (latestSensorData st') = ({["line1"]} : gset string)
  | Throw _ => False
  end.
Proof. vm_compute. reflexivity. Qed.

(** * Units of a reading *)

Section Units.

Lemma getUnitForTopic_sensorFor config topic :
  getUnitForTopic config topic =
    match sensorFor config topic with
    | Some {| Member.unit := Some unit |} => unit
    | _ => ""
    end.
Proof.
  unfold getUnitForTopic, sensorFor. rewrite findMember_flat.
  fold (allMembers config).
  destruct (find _ _) as [[? ? ? [unit|] ? ? ? ? ?]|]; try done.
  cbn. by destruct unit.
Qed.

End Units.

(** C8, amended. In upload_server.js the unit of a reading is the unit
    declared on the first Sensor member of that topic, or the empty
    string when none is declared: the payload is not looked at and
    there is no default per kind. In upload_server.mjs it is the
    payload's unit when it has one, else the default written for the
    gps, temperature and compass topics: the configuration is not
    looked at. *)
Theorem unit_resolution :
  (∀ config topic parsed now,
     ∃ formatted,
       formatSensorData config topic parsed now = Ok formatted
       ∧ getProp "unit" formatted = JStr (getUnitForTopic config topic)
       ∧ getUnitForTopic config topic =
           match sensorFor config topic with
           | Some {| Member.unit := Some unit |} => unit
           | _ => ""
           end)
  ∧ (∀ env topic parsed now formatted,
       formatSensorDataMjs env topic parsed now = Ok formatted →
       (topic = "sensor/gps" ∧ truthyVal (getProp "position" parsed) = true
        ∨ topic = "sensor/temperature" ∧ isDefined (getProp "temperature" parsed) = true
        ∨ topic = "sensor/compass" ∧ isDefined (getProp "heading" parsed) = true) →
       getProp "unit" formatted
       = orDefault (getProp "unit" parsed) (defaultUnit topic)).
Proof.
  split.
  - intros config topic parsed now. eexists. split; [reflexivity|].
    split; [done|]. apply getUnitForTopic_sensorFor.
  - intros env topic parsed now formatted Hfmt Hkind.
    unfold formatSensorDataMjs in Hfmt.
    destruct Hkind as [[-> Hp]|[[-> Hp]|[-> Hp]]]; cbn [String.eqb Ascii.eqb] in Hfmt.
    all: cbn in Hfmt; rewrite Hp in Hfmt; cbn in Hfmt.
    all: unfold mbind, result_bind in Hfmt.
    all: repeat case_match; simplify_eq; done.
Qed.

Lemma unit_resolution_witness :
  getProp "unit"
    (JObj [("value", JNum 21.5); ("unit", JStr "K");
           ("timestamp", JStr "1970-01-01T00:00:00.000Z");
           ("description", JStr "CPU Temperature")])
  = orDefault (getProp "unit" (JObj [("temperature", JNum 21.5); ("unit", JStr "K")]))
      (defaultUnit "sensor/temperature").
Proof.
  apply (proj2 unit_resolution Demo.env "sensor/temperature"
           (JObj [("temperature", JNum 21.5); ("unit", JStr "K")]) 0%Q).
  - reflexivity.
  - right. left. split; reflexivity.
Defined.

(** Neither file follows the order: the .js file ignores the unit in
    the payload of a sensor that declares none, the .mjs file ignores
    the declared unit. *)
Lemma unit_order_not_followed :
  ¬ unitResolutionOrder formatSensorData
  ∧ ¬ unitResolutionOrder (λ _, formatSensorDataMjs Demo.env).
Proof.
  split; intros Hclaim.
  - specialize (Hclaim Demo.config "sensor/compass"
      (JObj [("heading", JNum 90); ("unit", JStr "rad")]) 0%Q _
      ltac:(by eexists) eq_refl).
    discriminate Hclaim.
  - specialize (Hclaim Demo.config "sensor/temperature"
      (JObj [("temperature", JNum 21.5); ("unit", JStr "K")]) 0%Q _
      ltac:(by eexists) eq_refl).
    discriminate Hclaim.
Qed.

(** * DELETE /api/delete/:filename *)

Section Delete.
Context (env : Env) (config : Config).
Import JsString Path.

Lemma UPLOAD_DIR_absolute :
  isAbsolute (__dirname env) = true → isAbsolute (UPLOAD_DIR env config) = true.
Proof.
  intros Habs. unfold UPLOAD_DIR.
  repeat case_match; try done; by apply join_absolute.
Qed.

Lemma deleteRoute_cases filename st :
  let target := Fs.key (cwd env) (join [UPLOAD_DIR env config; filename]) in
  deleteRoute env config filename st =
    match fs st !! target with
    | None => (st, fileNotFound)
    | Some (Fs.File _) => (setFs (delete target (fs st)) st, deleted)
    | Some Fs.Dir => (st, deleteFailed)
    end.
Proof.
  cbv zeta. unfold deleteRoute, Fs.existsSync, Fs.unlinkSync.
  destruct (fs st !! _) as [[size|]|] eqn:E.
  - by rewrite bool_decide_eq_true_2 by (by eexists).
  - by rewrite bool_decide_eq_true_2 by (by eexists).
  - rewrite bool_decide_eq_false_2; [done|]. by intros [? [=]].
Qed.

Lemma rev_tail {A} (l : list A) : rev (tail l) = removelast (rev l).
Proof. destruct l as [|x l]; [done|]. cbn [tail rev]. by rewrite removelast_last. Qed.

Lemma step_parent acc : Forall plain acc → step false acc ".." = tail acc.
Proof.
  intros Hacc. unfold step. cbn. destruct acc as [|top rest]; [done|].
  inversion Hacc as [|? ? (_ & _ & _ & Htop) _]; subst.
  apply String.eqb_neq in Htop. by rewrite Htop.
Qed.

(** One step up from an absolute directory and down into [x]. *)
Lemma join_parent root x :
  isAbsolute root = true → plain x →
  isAbsolute (join [root; "../" +:+ x]) = true
  ∧ normalizeSegments false (join [root; "../" +:+ x])
    = removelast (normalizeSegments false root) ++ [x].
Proof.
  intros Habs Hx. destruct (isAbsolute_split root Habs) as [rest ->].
  unfold join. rewrite !filter_cons_True by done. rewrite filter_nil.
  change (joinSlash [String "/" rest; "../" +:+ x])
    with (String "/" rest +:+ "/" +:+ ".." +:+ "/" +:+ x).
  assert (Habs' : isAbsolute (String "/" rest +:+ "/" +:+ ".." +:+ "/" +:+ x) = true)
    by done.
  destruct (normalize_absolute_segments _ Habs') as [-> ->].
  split; [done|]. unfold normalizeSegments.
  rewrite !split_app_slash. destruct Hx as [Hsf Hx].
  rewrite Hsf. change (split "..") with [".."].
  rewrite fold_left_app. cbn [fold_left app].
  pose proof (fold_step_false_plain (split (String "/" rest)) []
                (split_slashFree _) (Forall_nil_2 _)) as Hpl.
  rewrite step_parent by done.
  rewrite step_plain by (by split).
  cbn [rev]. by rewrite rev_tail.
Qed.

Lemma not_prefix_of_sibling (l : list string) (x : string) :
  l ≠ [] → last l ≠ Some x → ¬ l `prefix_of` removelast l ++ [x].
Proof.
  intros Hne Hlast [k Hk].
  destruct l as [|y l _] using rev_ind; [done|].
  rewrite removelast_last in Hk. rewrite last_snoc in Hlast.
  assert (k = []) as ->.
  { apply (f_equal length) in Hk. rewrite !length_app in Hk. cbn in Hk.
    destruct k; [done|]. cbn in Hk. lia. }
  rewrite app_nil_r in Hk. apply app_inj_tail in Hk as [_ ->]. done.
Qed.

End Delete.



(** `DELETE /api/delete/..%2Fsecret.txt` removes a file of the
    application directory, next to the upload directory. *)
Example delete_outside_upload_dir :
  Path.join [UPLOAD_DIR Demo.env Demo.config; "../secret.txt"] = "/srv/app/secret.txt"
  ∧ fs Demo.server !! "/srv/app/secret.txt" = Some (Fs.File 7)
  ∧ snd (deleteRoute Demo.env Demo.config "../secret.txt" Demo.server) = deleted
  ∧ fs (fst (deleteRoute Demo.env Demo.config "../secret.txt" Demo.server))
      !! "/srv/app/secret.txt" = None.
Proof. vm_compute. done. Qed.

(** * Base64 carries the bytes *)

Section Base64Facts.
Import Base64.
Local Open Scope N_scope.

Lemma allBelow_spec k test n :
  allBelow k test = true → n < N.of_nat k → test n = true.
Proof.
  unfold allBelow. rewrite forallb_forall. intros Hall Hn.
  apply Hall, in_map_iff. exists (N.to_nat n). split; [lia|].
  apply in_seq. lia.
Qed.



(** Facts about one or two bytes, by running through all of them. *)
Local Ltac bytes1 a Ha :=
  let H := fresh in
  pose proof Ha as H;
  apply (allBelow_spec 256 _) in H; [apply bool_decide_eq_true_1 in H; exact H|];
  vm_compute; reflexivity.














End Base64Facts.

(** * A message that does not decode *)

Section DecodeFailure.
Context (env : Env) (config : Config).

Lemma formatSensorData_raw topic message e now :
  formatSensorData config topic (rawReading message e) now
  = Ok (failedReading config Js topic message e now).
Proof. done. Qed.



End DecodeFailure.



(** The same with a client connected: its inbox holds the snapshot and
    then the raw reading. *)
Example undecodable_message_is_pushed :
  match run Demo.env Demo.config Js Demo.server
          [WsConnection; MqttMessage "sensor/compass" [Byte.x01; Byte.x02] 17] with
  | Ok (st', _) =>
      (inbox <$> wssClients st')
      = [[JObj [("type", JStr "init"); ("sensors", JObj [])];
          JObj [("type", JStr "sensor_update"); ("sensor", JStr "compass");
                ("data", JObj [("value", JObj [("raw", JStr "AQI=");
                                               ("error", JStr "invalid wire type")]);
                               ("unit", JStr ""); ("timestamp", JNum 17)])]]]
  | Throw _ => False
  end.
Proof. vm_compute. reflexivity. Qed.

(** * Subscriptions *)

Section Registry.
Context (env : Env) (config : Config).

Lemma registerMember_topics reg member :
  fst (registerMember env reg member)
  = fst reg ++ match sensorTopic member with Some t => [t] | None => [] end.
Proof.
  unfold registerMember, sensorTopic.
  destruct (Member.topic member) as [topic|].
  - destruct (isType "sensor" member && truthy (Some topic)); [done|].
    by rewrite app_nil_r.
  - rewrite andb_false_r. by rewrite app_nil_r.
Qed.

Lemma registerMembers_topics members reg :
  fst (fold_left (registerMember env) members reg)
  = fst reg ++ omap sensorTopic members.
Proof.
  revert reg. induction members as [|m ms IH]; intros reg.
  - by rewrite app_nil_r.
  - cbn [fold_left]. rewrite IH, registerMember_topics, omap_cons_eq.
    rewrite <- app_assoc. by destruct (sensorTopic m).
Qed.

Lemma registerTabs_topics tabs reg :
  fst (fold_left (registerTab env) tabs reg)
  = fst reg ++ omap sensorTopic (flat_map Tab.members tabs).
Proof.
  revert reg. induction tabs as [|tab tabs IH]; intros reg.
  - by rewrite app_nil_r.
  - cbn [fold_left flat_map]. rewrite IH. unfold registerTab.
    rewrite registerMembers_topics, omap_app. by rewrite <- app_assoc.
Qed.

Lemma registry_topics : fst (registry env config) = configuredSensorTopics config.
Proof. unfold registry. by rewrite registerTabs_topics. Qed.

End Registry.

Section Frame.
Context (env : Env) (config : Config).

Lemma sameSubscriptions_refl st : sameSubscriptions st st.
Proof. done. Qed.

Lemma sameSubscriptions_trans st1 st2 st3 :
  sameSubscriptions st1 st2 → sameSubscriptions st2 st3 → sameSubscriptions st1 st3.
Proof. unfold sameSubscriptions. intros (-> & -> & -> & ->) (-> & -> & -> & ->). done. Qed.

Lemma keeps_ret {A} (a : A) : keepsSubscriptions (mret a).
Proof. done. Qed.

Lemma keeps_throw {A} e : keepsSubscriptions (@throw A e).
Proof. done. Qed.

Lemma keeps_lift {A} (r : result A) : keepsSubscriptions (lift r).
Proof. done. Qed.

Lemma keeps_get {A} (f : Server → A) : keepsSubscriptions (get f).
Proof. done. Qed.

Lemma keeps_fromOption {A} (o : option A) e : keepsSubscriptions (fromOption o e).
Proof. by destruct o. Qed.

Lemma keeps_bind {A B} (h : Handler A) (k : A → Handler B) :
  keepsSubscriptions h → (∀ a, keepsSubscriptions (k a)) →
  keepsSubscriptions (h ≫= k).
Proof.
  intros Hh Hk st. unfold mbind, handler_bind.
  specialize (Hh st). destruct (h st) as [[a|e] st']; [|done].
  eapply sameSubscriptions_trans; [exact Hh|apply Hk].
Qed.

Lemma keeps_when b (h : Handler ()) :
  keepsSubscriptions h → keepsSubscriptions (when b h).
Proof. by destruct b. Qed.

Lemma keeps_fsCall f : keepsSubscriptions (fsCall f).
Proof. intros st. unfold fsCall. by destruct (f (fs st)). Qed.

Lemma keeps_reconnect faults : keepsSubscriptions (mqttCall (Mqtt.reconnect faults)).
Proof. intros st. unfold mqttCall, Mqtt.reconnect. by destruct (Mqtt.reconnectThrows faults). Qed.

Lemma keeps_publish faults topic payload :
  keepsSubscriptions (mqttCall (Mqtt.publish faults topic payload)).
Proof. intros st. unfold mqttCall, Mqtt.publish. by destruct (Mqtt.publishThrows faults). Qed.

Lemma keeps_modify f :
  (∀ st, sameSubscriptions st (f st)) → keepsSubscriptions (modify f).
Proof. intros Hf st. apply Hf. Qed.

Lemma keeps_tryCatch {A} (body : Handler A) (handler : string → A) st :
  keepsSubscriptions body → sameSubscriptions st (fst (tryCatch body handler st)).
Proof.
  intros Hb. unfold tryCatch. specialize (Hb st). by destruct (body st) as [[a|e] st'].
Qed.

Create HintDb keeps discriminated.
Hint Resolve keeps_ret keeps_throw keeps_lift keeps_get keeps_fromOption
  keeps_when keeps_fsCall keeps_reconnect keeps_publish : keeps.

Local Ltac keeps :=
  repeat first
    [ progress eauto with keeps
    | apply keeps_bind; [|intros]
    | apply keeps_when
    | apply keeps_modify; intros; done
    | match goal with |- keepsSubscriptions (match ?x with _ => _ end) => destruct x end
    | match goal with |- keepsSubscriptions (let '(_, _) := ?x in _) => destruct x end ].

Lemma keeps_uploadChecks button_name file :
  keepsSubscriptions (uploadChecks env config button_name file).
Proof. unfold uploadChecks. keeps. Qed.

Lemma keeps_moveUpload uploadDir file :
  keepsSubscriptions (moveUpload env uploadDir file).
Proof. unfold moveUpload. keeps. Qed.

Lemma keeps_publishFileEvent topic dir filePath size buttonName :
  keepsSubscriptions (publishFileEvent env topic dir filePath size buttonName).
Proof. unfold publishFileEvent. keeps. Qed.

Hint Resolve keeps_uploadChecks keeps_moveUpload keeps_publishFileEvent : keeps.

Lemma keeps_uploadBody button_name file :
  keepsSubscriptions (uploadBody env config button_name file).
Proof. unfold uploadBody. keeps. Qed.

Lemma keeps_uploadBodyMjs button_name file :
  keepsSubscriptions (uploadBodyMjs env config button_name file).
Proof. unfold uploadBodyMjs. keeps. Qed.

Lemma keeps_downloadBody button_name filename path :
  keepsSubscriptions (downloadBody env config button_name filename path).
Proof. unfold downloadBody. keeps. Qed.

Lemma keeps_actionBody faults action value :
  keepsSubscriptions (actionBody config faults action value).
Proof. unfold actionBody. keeps. Qed.

Lemma keeps_browseBody button_name path :
  keepsSubscriptions (browseBody env config button_name path).
Proof. unfold browseBody. keeps. Qed.

Lemma keeps_onMqttMessage format topic message now :
  keepsSubscriptions (onMqttMessage format topic message now).
Proof. unfold onMqttMessage, updateLatestSensorData, broadcastWS. keeps. Qed.

End Frame.

Section Subscriptions.
Context (env : Env) (config : Config).

Lemma subscribe_all topics client :
  Mqtt.subscriptions (fold_left (λ c topic, Mqtt.subscribe topic c) topics client)
    = list_to_set topics ∪ Mqtt.subscriptions client
  ∧ Mqtt.connected (fold_left (λ c topic, Mqtt.subscribe topic c) topics client)
    = Mqtt.connected client.
Proof.
  revert client. induction topics as [|t ts IH]; intros client.
  - split; [set_solver|done].
  - cbn [fold_left]. destruct (IH (Mqtt.subscribe t client)) as [-> ->].
    split; [|done]. cbn. set_solver.
Qed.

(** Every event but the two connection events leaves topics and
    subscriptions alone. *)
Lemma step_keeps variant st ev st' answer :
  ev ≠ MqttConnect → ev ≠ MqttClose →
  step env config variant st ev = Ok (st', answer) →
  sameSubscriptions st st'.
Proof.
  intros Hc Hd. destruct ev; try done; cbn [step].
  - pose proof (keeps_onMqttMessage
      (match variant with Js => formatSensorData config
                        | Mjs => formatSensorDataMjs env end) topic message now st) as Hk.
    destruct variant; destruct (onMqttMessage _ _ _ _ _) as [[[]|e] st1];
      intros; by simplify_eq.
  - intros [= <- _]. done.
  - intros [= <- _]. unfold uploadRoute.
    destruct (multer env config file st) as [[reqFile|e] st1] eqn:Em.
    + assert (sameSubscriptions st st1) as Hst1.
      { unfold multer in Em. repeat case_match; by simplify_eq. }
      pose proof (keeps_tryCatch
        ((match variant with Js => uploadBody env config
                           | Mjs => uploadBodyMjs env config end) button_name reqFile)
        uploadFailed st1) as Hk.
      destruct (tryCatch _ _ st1) as [st2 a]. cbn.
      eapply sameSubscriptions_trans; [exact Hst1|]. apply Hk.
      destruct variant; [apply keeps_uploadBody|apply keeps_uploadBodyMjs].
    + unfold multer in Em. repeat case_match; by simplify_eq.
  - intros [= <- _]. apply keeps_tryCatch, keeps_downloadBody.
  - intros [= <- _]. unfold actionRoute.
    pose proof (keeps_tryCatch (actionBody config faults action value)
                  actionFailed st (keeps_actionBody config faults action value)) as Hk.
    by destruct (tryCatch _ _ st).
  - intros [= <- _]. destruct variant.
    + apply keeps_tryCatch, keeps_browseBody.
    + unfold browseRouteMjs. by repeat case_match.
  - intros [= <- _]. done.
  - intros [= <- _]. unfold deleteRoute. by repeat case_match.
Qed.

Lemma startup_subscribedAsConfigured fs0 st0 :
  startup env config fs0 = Serving st0 → subscribedAsConfigured config st0.
Proof.
  unfold startup.
  repeat case_match; try done; intros [= <-];
    (split_and!; [apply registry_topics|by left|done]).
Qed.

Lemma connect_subscribes st :
  subscribedAsConfigured config st →
  Mqtt.connected (mqttClient (onMqttConnect st)) = true
  ∧ Mqtt.subscriptions (mqttClient (onMqttConnect st))
    = list_to_set (configuredSensorTopics config)
  ∧ sensorTopics (onMqttConnect st) = sensorTopics st.
Proof.
  intros (Ht & Hs & _). unfold onMqttConnect. cbn.
  destruct (subscribe_all (sensorTopics st) (Mqtt.onConnected (mqttClient st)))
    as [-> ->].
  split_and!; [done| |done]. rewrite Ht. cbn. destruct Hs as [-> | ->]; set_solver.
Qed.

Lemma step_subscribedAsConfigured variant st ev st' answer :
  subscribedAsConfigured config st →
  step env config variant st ev = Ok (st', answer) →
  subscribedAsConfigured config st'.
Proof.
  intros Hinv Hstep.
  assert (Hother : ev ≠ MqttConnect → ev ≠ MqttClose →
                   subscribedAsConfigured config st').
  { intros Hc Hd.
    destruct (step_keeps variant st ev st' answer Hc Hd Hstep) as (E1 & _ & E2 & E3).
    unfold subscribedAsConfigured. by rewrite E1, E2, E3. }
  destruct ev; try (by apply Hother).
  - injection Hstep as <- _.
    destruct (connect_subscribes st Hinv) as (Hcon & Hsub & Htop).
    destruct Hinv as (Ht & _). split_and!; [congruence|by right|done].
  - injection Hstep as <- _. destruct Hinv as (Ht & _).
    split_and!; [done|by left|done].
Qed.

Lemma run_subscribedAsConfigured variant events st st' answers :
  subscribedAsConfigured config st →
  run env config variant st events = Ok (st', answers) →
  subscribedAsConfigured config st'.
Proof.
  revert st answers. induction events as [|ev events IH]; intros st answers Hinv.
  - by intros [= <- _].
  - cbn [run]. unfold mbind, result_bind.
    destruct (step env config variant st ev) as [[st1 answer]|e] eqn:Estep; [|done].
    destruct (run env config variant st1 events) as [[st2 rest]|e] eqn:Erun; [|done].
    intros [= <- _]. eapply IH; [|exact Erun].
    by eapply step_subscribedAsConfigured.
Qed.

End Subscriptions.

Lemma configuredSensorTopics_spec config topic :
  topic ∈ configuredSensorTopics config
  ↔ ∃ member, member ∈ allMembers config
      ∧ Member.type member = "sensor"
      ∧ Member.topic member = Some topic
      ∧ topic ≠ "".
Proof.
  unfold configuredSensorTopics. rewrite list_elem_of_omap.
  split.
  - intros (member & Hin & Ht). exists member. split; [done|].
    unfold sensorTopic, isType in Ht.
    destruct (String.eqb_spec (Member.type member) "sensor") as [Hty|]; [|done].
    cbn in Ht. destruct (truthy (Member.topic member)) eqn:Htr; [|done].
    rewrite Ht in Htr. cbn in Htr.
    split_and!; [done|done|]. intros ->. done.
  - intros (member & Hin & Hty & Htopic & Hne). exists member. split; [done|].
    unfold sensorTopic, isType. rewrite Hty, Htopic. cbn.
    apply String.eqb_neq in Hne. by rewrite Hne.
Qed.

(** C6. In every state that the server reaches after start-up, the
    topic list is the list of Sensor topics of the configuration (the
    non-empty topics of its sensor members); while the connection is up
    the subscriptions are exactly these topics, and at no time are they
    anything but none or all of them; a connect event, first or later,
    leaves exactly these topics subscribed. *)
Theorem subscriptions_are_configured_topics (env : Env) (config : Config)
    (variant : Variant) (fs0 : Fs.t) (st0 st : Server) (events : list Event)
    (answers : list (option Response)) :
  startup env config fs0 = Serving st0 →
  run env config variant st0 events = Ok (st, answers) →
  (∀ topic,
     topic ∈ configuredSensorTopics config
     ↔ ∃ member, member ∈ allMembers config
         ∧ Member.type member = "sensor"
         ∧ Member.topic member = Some topic
         ∧ topic ≠ "")
  ∧ sensorTopics st = configuredSensorTopics config
  ∧ (Mqtt.connected (mqttClient st) = true →
     Mqtt.subscriptions (mqttClient st) = list_to_set (configuredSensorTopics config))
  ∧ (Mqtt.subscriptions (mqttClient st) = ∅
     ∨ Mqtt.subscriptions (mqttClient st) = list_to_set (configuredSensorTopics config))
  ∧ ∃ st',
      step env config variant st MqttConnect = Ok (st', None)
      ∧ Mqtt.connected (mqttClient st') = true
      ∧ Mqtt.subscriptions (mqttClient st')
        = list_to_set (configuredSensorTopics config)
      ∧ sensorTopics st' = sensorTopics st.
Proof.
  intros Hstart Hrun.
  pose proof (startup_subscribedAsConfigured env config fs0 st0 Hstart) as Hinv0.
  pose proof (run_subscribedAsConfigured env config variant events st0 st answers
                Hinv0 Hrun) as Hinv.
  split; [apply configuredSensorTopics_spec|].
  destruct (connect_subscribes config st Hinv) as (Hc & Hs & Ht).
  destruct Hinv as (H1 & H2 & H3).
  split_and!; [done|done|done|]. by eexists.
Qed.

Lemma subscriptions_are_configured_topics_witness :
  Mqtt.connected (mqttClient (fst afterReconnection)) = true
  ∧ Mqtt.subscriptions (mqttClient (fst afterReconnection))
    = list_to_set ["sensor/temperature"; "sensor/compass"; "plant/line1/pressure"].
Proof.
  destruct (subscriptions_are_configured_topics Demo.env Demo.config Js Demo.disk
              Demo.server (fst afterReconnection) reconnection (snd afterReconnection))
    as (_ & _ & Hsubs & _).
  - vm_compute. reflexivity.
  - vm_compute. reflexivity.
  - split; [vm_compute; reflexivity|]. apply Hsubs. vm_compute. reflexivity.
Defined.

(** * POST /api/action while disconnected *)

Section Action.
Context (env : Env) (config : Config).

Lemma actionBody_button faults action value member st :
  findMember (isButtonNamed action) (tabs config) = Some member →
  truthyVal action = true →
  truthy (Member.publish_topic member) = true →
  actionBody config faults action value st =
    let topic := default "" (Member.publish_topic member) in
    let reconnected :=
      if Mqtt.connected (mqttClient st) then (Ok (), st)
      else mqttCall (Mqtt.reconnect faults) st in
    match reconnected with
    | (Throw e, st1) => (Throw e, st1)
    | (Ok _, st1) =>
        match mqttCall (Mqtt.publish faults topic (PVal (actionPayload value))) st1 with
        | (Throw e, st2) => (Throw e, st2)
        | (Ok _, st2) => (Ok actionOk, st2)
        end
    end.
Proof.
  intros Hfind Haction Htopic. unfold actionBody.
  unfold mbind, handler_bind, when, fromOption, get, mret, handler_ret, throw.
  rewrite Haction, Hfind, Htopic. cbn [negb].
  destruct (Mqtt.connected (mqttClient st)); cbn [negb]; cbv zeta.
  - fold (actionPayload value). by destruct (mqttCall _ st) as [[[]|] ?].
  - destruct (mqttCall (Mqtt.reconnect faults) st) as [[[]|] st1]; [|done].
    fold (actionPayload value). by destruct (mqttCall _ st1) as [[[]|] ?].
Qed.

End Action.

(** C9, amended. An action that resolves to a Button with a topic,
    sent while the connection is down, calls `reconnect()` exactly once
    and then publishes, without waiting for the connection: the
    connection flag is still down when the answer is given. The answer
    is `success: true` unless one of the two calls throws on the spot,
    in which case it is `success: false` with that error; in no case
    does the exception leave the handler. Whether the reconnection
    later succeeds has no part in the answer. *)
Theorem action_reconnects_once (env : Env) (config : Config) (variant : Variant)
    (st : Server) (faults : Mqtt.faults) (action value : JsVal) (member : Member.t) :
  findMember (isButtonNamed action) (tabs config) = Some member →
  truthyVal action = true →
  truthy (Member.publish_topic member) = true →
  Mqtt.connected (mqttClient st) = false →
  ∃ st' r,
    step env config variant st (PostAction faults action value) = Ok (st', Some r)
    ∧ Mqtt.reconnectCalls (mqttClient st') = S (Mqtt.reconnectCalls (mqttClient st))
    ∧ Mqtt.connected (mqttClient st') = false
    ∧ match Mqtt.reconnectThrows faults, Mqtt.publishThrows faults with
      | Some e, _ | None, Some e =>
          r = Json 200 (actionFailed e)
          ∧ Mqtt.published (mqttClient st') = Mqtt.published (mqttClient st)
      | None, None =>
          r = Json 200 actionOk
          ∧ Mqtt.published (mqttClient st')
            = Mqtt.published (mqttClient st)
              ++ [(default "" (Member.publish_topic member),
                   PVal (actionPayload value))]
      end.
Proof.
  intros Hfind Haction Htopic Hdown. cbn [step]. unfold actionRoute, tryCatch.
  rewrite (actionBody_button config faults action value member st) by done.
  rewrite Hdown. cbv zeta. unfold mqttCall, Mqtt.reconnect, Mqtt.publish.
  destruct (Mqtt.reconnectThrows faults) as [e|]; cbn.
  - do 2 eexists. by split_and!.
  - destruct (Mqtt.publishThrows faults) as [e|]; cbn.
    + do 2 eexists. by split_and!.
    + do 2 eexists. by split_and!.
Qed.

Lemma action_reconnects_once_witness :
  ∃ st' r,
    step Demo.env Demo.config Js Demo.server
      (PostAction Mqtt.noFaults (JStr "led") (JStr "on")) = Ok (st', Some r)
    ∧ Mqtt.reconnectCalls (mqttClient st') = 1%nat
    ∧ Mqtt.connected (mqttClient st') = false
    ∧ r = Json 200 actionOk
    ∧ Mqtt.published (mqttClient st') = [("actuator/led", PVal (JStr "on"))].
Proof.
  destruct (action_reconnects_once Demo.env Demo.config Js Demo.server Mqtt.noFaults
              (JStr "led") (JStr "on") (Demo.button "led" (Some "actuator/led"))
              eq_refl eq_refl eq_refl eq_refl)
    as (st' & r & Hstep & Hcalls & Hdown & Hr & Hpub).
  exists st', r. split_and!; [exact Hstep|exact Hcalls|exact Hdown|exact Hr|exact Hpub].
Defined.

(** The action is answered with a success although the reconnection
    it asked for fails. *)
Lemma failed_reconnect_still_succeeds : ¬ failedReconnectRejectsAction.
Proof.
  intros Hclaim.
  specialize (Hclaim Demo.env Demo.config Js Demo.server (fst afterFailedReconnection)
    (JStr "led") (JStr "on") (Demo.button "led" (Some "actuator/led"))
    (Json 200 actionOk) eq_refl eq_refl eq_refl eq_refl).
  assert (succeeded (Json 200 actionOk) = false) as Hfalse;
    [apply Hclaim; vm_compute; reflexivity|discriminate Hfalse].
Qed.

Example failed_reconnection_run :
  snd afterFailedReconnection = [Some (Json 200 actionOk); None]
  ∧ Mqtt.connected (mqttClient (fst afterFailedReconnection)) = false
  ∧ Mqtt.reconnectCalls (mqttClient (fst afterFailedReconnection)) = 1%nat.
Proof. vm_compute. done. Qed.

(** * The decoder registry *)

Section RegistryDecoders.
Context (env : Env).



End RegistryDecoders.

(** * Further properties: validation *)

Section ValidationIff.

Lemma firstDuplicate_None seen names :
  firstDuplicate seen names = None
  ↔ NoDup names ∧ ∀ name, name ∈ names → name ∉ seen.
Proof.
  revert seen. induction names as [|n names IH]; intros seen.
  - split; [|done]. intros _. split; [constructor|]. by intros ? ?%elem_of_nil.
  - cbn [firstDuplicate]. destruct (bool_decide (n ∈ seen)) eqn:Hin.
    + apply bool_decide_eq_true in Hin. split; [done|].
      intros [_ Hfresh]. destruct (Hfresh n); [by left|done].
    + apply bool_decide_eq_false in Hin. rewrite IH. split.
      * intros [Hnd Hfresh]. split.
        -- constructor; [|done]. intros Hn. apply (Hfresh n Hn). set_solver.
        -- intros name [->|Hname]%elem_of_cons; [done|].
           specialize (Hfresh name Hname). set_solver.
      * intros [Hnd Hfresh]. apply NoDup_cons in Hnd as [Hn Hnd]. split; [done|].
        intros name Hname. apply not_elem_of_union. split.
        -- intros ->%elem_of_singleton. done.
        -- apply Hfresh. by right.
Qed.

End ValidationIff.

(** X1. Validation succeeds exactly for the configurations in which
    the non-empty names of the button, upload and download members are
    pairwise distinct and no member lacks a property required of its
    type; the server serves only such configurations. *)
Theorem validateConfig_accepts_iff (config : Config) :
  (validateConfig config = Ok ()
   ↔ NoDup (buttonNames config)
     ∧ Forall (λ m, complete m = true) (allMembers config))
  ∧ ∀ env fs0 st,
      startup env config fs0 = Serving st →
      NoDup (buttonNames config)
      ∧ Forall (λ m, complete m = true) (allMembers config).
Proof.
  assert (Hok : validateConfig config = Ok ()
    → NoDup (buttonNames config)
      ∧ Forall (λ m, complete m = true) (allMembers config)).
  { unfold validateConfig, mbind, result_bind. rewrite validateTabs_flat.
    destruct (validateMembers _ _) eqn:E; [|done]. intros _.
    apply validateMembers_ok in E as (? & ? & _). done. }
  split.
  - split; [exact Hok|]. intros [Hnd Hall].
    unfold validateConfig, mbind, result_bind.
    rewrite validateTabs_flat, validateMembers_complete by done.
    fold (allMembers config). fold (buttonNames config).
    assert (firstDuplicate ∅ (buttonNames config) = None) as ->; [|done].
    apply firstDuplicate_None. split; [done|]. set_solver.
  - intros env fs0 st. unfold startup.
    destruct (validateConfig config) as [[]|e] eqn:E.
    + intros _. by apply Hok.
    + by repeat case_match.
Qed.

Lemma validateConfig_accepts_iff_witness :
  validateConfig Demo.config = Ok ().
Proof.
  apply (proj1 (validateConfig_accepts_iff Demo.config)). split.
  - apply (bool_decide_unpack _). vm_compute. exact I.
  - apply (bool_decide_unpack _). vm_compute. exact I.
Defined.

(** * Further properties: which messages are taken *)

Section RegistryKept.
Context (env : Env) (config : Config).

Lemma startup_registryKept fs0 st0 :
  startup env config fs0 = Serving st0 → registryKept env config st0.
Proof.
  unfold startup. repeat case_match; try done; intros [= <-]; done.
Qed.

Lemma step_registryKept variant st ev st' answer :
  registryKept env config st →
  step env config variant st ev = Ok (st', answer) →
  registryKept env config st'.
Proof.
  intros [Ht Hd] Hstep.
  assert (Hother : ev ≠ MqttConnect → ev ≠ MqttClose → registryKept env config st').
  { intros Hc Hcl.
    destruct (step_keeps env config variant st ev st' answer Hc Hcl Hstep)
      as (E1 & E2 & _).
    unfold registryKept. by rewrite E1, E2. }
  destruct ev; try (by apply Hother); by injection Hstep as <- _.
Qed.

Lemma run_registryKept variant events st st' answers :
  registryKept env config st →
  run env config variant st events = Ok (st', answers) →
  registryKept env config st'.
Proof.
  revert st answers. induction events as [|ev events IH]; intros st answers Hinv.
  - by intros [= <- _].
  - cbn [run]. unfold mbind, result_bind.
    destruct (step env config variant st ev) as [[st1 answer]|e] eqn:Estep; [|done].
    destruct (run env config variant st1 events) as [[st2 rest]|e] eqn:Erun; [|done].
    intros [= <- _]. eapply IH; [|exact Erun].
    by eapply step_registryKept.
Qed.



End RegistryKept.

(** X2. A message on a topic that the configuration does not declare
    as a sensor topic changes nothing, in any state the server reaches:
    nothing is cached and nothing is sent to any client. *)
Theorem unconfigured_topic_ignored (env : Env) (config : Config) (variant : Variant)
    (fs0 : Fs.t) (st0 st : Server) (events : list Event)
    (answers : list (option Response))
    (topic : string) (message : list Byte.byte) (now : Q) :
  startup env config fs0 = Serving st0 →
  run env config variant st0 events = Ok (st, answers) →
  topic ∉ configuredSensorTopics config →
  step env config variant st (MqttMessage topic message now) = Ok (st, None).
Proof.
  intros Hstart Hrun Hnot.
  pose proof (run_registryKept env config variant events st0 st answers
                (startup_registryKept env config fs0 st0 Hstart) Hrun) as [Ht _].
  cbn [step]. rewrite onMqttMessage_unregistered; [done|].
  by rewrite Ht, registry_topics.
Qed.

Lemma unconfigured_topic_ignored_witness :
  step Demo.env Demo.config Js (fst afterReconnection)
    (MqttMessage "sensor/humidity" [Byte.x01] 5)
  = Ok (fst afterReconnection, None).
Proof.
  apply (unconfigured_topic_ignored Demo.env Demo.config Js Demo.disk Demo.server
           (fst afterReconnection) reconnection (snd afterReconnection)).
  - vm_compute. reflexivity.
  - vm_compute. reflexivity.
  - apply (bool_decide_unpack _). vm_compute. exact I.
Defined.



(** * Uploads that go through *)

Section UploadSuccess.
Context (env : Env) (config : Config).

Lemma mkdirSegments_incl fs prefix segs fs' :
  Fs.mkdirSegments fs prefix segs = Ok fs' → fs ⊆ fs'.
Proof.
  revert fs prefix. induction segs as [|seg segs IH]; intros fs prefix.
  - by intros [= <-].
  - cbn [Fs.mkdirSegments].
    destruct (fs !! (prefix +:+ "/" +:+ seg)) as [[size|]|] eqn:E; [done| |].
    + apply IH.
    + intros Hrest%IH. etrans; [|exact Hrest]. by apply insert_subseteq.
Qed.

(** Creating directories keeps every entry that is not the root. *)
Lemma mkdirSync_keeps fs p fs' k node :
  Fs.mkdirSync (cwd env) fs p = Ok fs' →
  k ≠ "/" → fs !! k = Some node → fs' !! k = Some node.
Proof.
  unfold Fs.mkdirSync. intros Hincl%mkdirSegments_incl Hk Hnode.
  eapply lookup_weaken; [|exact Hincl]. by rewrite lookup_insert_ne.
Qed.

(** Nothing can be written at the root. *)
Lemma writeFile_not_root fs p size fs' :
  Fs.writeFile (cwd env) fs p size = Ok fs' → Fs.key (cwd env) p ≠ "/".
Proof.
  unfold Fs.writeFile. intros Hw Hroot. rewrite Hroot in Hw.
  change (Fs.parent "/") with "/" in Hw.
  by destruct (fs !! "/") as [[]|].
Qed.

Lemma moveUpload_cases uploadDir file st :
  moveUpload env uploadDir file st =
    let destPath := Path.join [uploadDir; ReqFile.originalname file] in
    match (if Fs.existsSync (cwd env) (fs st) uploadDir then Ok (fs st)
           else Fs.mkdirSync (cwd env) (fs st) uploadDir) with
    | Throw e => (Throw e, st)
    | Ok fs1 =>
        if String.eqb (ReqFile.path file) destPath then (Ok destPath, setFs fs1 st)
        else match Fs.renameSync (cwd env) fs1 (ReqFile.path file) destPath with
             | Ok fs2 => (Ok destPath, setFs fs2 st)
             | Throw e => (Throw e, setFs fs1 st)
             end
    end.
Proof.
  unfold moveUpload, mbind, handler_bind, get, when, fsCall, mret, handler_ret.
  cbv zeta.
  destruct (Fs.existsSync _ _ _); cbn [negb].
  - rewrite setFs_same. destruct (String.eqb _ _); cbn [negb]; [done|].
    by destruct (Fs.renameSync _ _ _ _).
  - destruct (Fs.mkdirSync _ _ _) as [fs1|e]; [|done].
    destruct (String.eqb _ _); cbn [negb]; [done|].
    cbn [fs setFs]. by destruct (Fs.renameSync _ _ _ _).
Qed.

Lemma publishFileEvent_cases topic dir filePath size buttonName st :
  publishFileEvent env topic dir filePath size buttonName st =
    (Ok (),
     match FileEvent env with
     | Some serializeBinary =>
         if Mqtt.connected (mqttClient st) then
           setMqttClient
             (Mqtt.mk (Mqtt.connected (mqttClient st))
                (Mqtt.reconnectCalls (mqttClient st))
                (Mqtt.subscriptions (mqttClient st))
                (Mqtt.published (mqttClient st)
                 ++ [(topic, PBytes (serializeBinary
                                       (Path.relative (cwd env) dir filePath) size
                                       (default "" buttonName)))])) st
         else st
     | None => st
     end).
Proof.
  unfold publishFileEvent, mbind, handler_bind, get, when, mqttCall, mret, handler_ret.
  destruct (FileEvent env) as [ser|]; [|done].
  destruct (Mqtt.connected (mqttClient st)) eqn:E; [|done].
  unfold Mqtt.publish. cbn [Mqtt.publishThrows Mqtt.noFaults]. by rewrite E.
Qed.

(** Either body, after the checks. *)
Lemma uploadBodyOf_cases variant button_name file st :
  uploadBodyOf env config variant button_name file st =
    match uploadChecks env config button_name file st with
    | (Throw e, st1) => (Throw e, st1)
    | (Ok (uploadCfg, f), st1) =>
        match uploadDirFor env config variant uploadCfg with
        | Throw e => (Throw e, st1)
        | Ok uploadDir =>
            match moveUpload env uploadDir f st1 with
            | (Throw e, st2) => (Throw e, st2)
            | (Ok destPath, st2) =>
                (Ok (uploadOk (ReqFile.originalname f)),
                 match variant with
                 | Js => snd (publishFileEvent env "file/uploaded" uploadDir destPath
                                (ReqFile.size f) (orNull button_name) st2)
                 | Mjs => st2
                 end)
            end
        end
    end.
Proof.
  destruct variant; unfold uploadBodyOf, uploadDirFor, uploadBody, uploadBodyMjs;
    unfold mbind at 1, handler_bind at 1;
    destruct (uploadChecks _ _ _ _ _) as [[[uploadCfg f]|e] st1]; try done;
    unfold mbind at 1, handler_bind at 1, lift;
    destruct (resolveDir _ _) as [uploadDir|e]; try done;
    unfold mbind at 1, handler_bind at 1;
    destruct (moveUpload _ _ _ _) as [[destPath|e] st2]; try done.
  unfold mbind, handler_bind. by rewrite publishFileEvent_cases.
Qed.

Lemma step_upload variant st button_name file :
  step env config variant st (PostUpload button_name file) =
    let r := uploadRoute env config (uploadBodyOf env config variant)
               button_name file st in
    Ok (fst r, Some (snd r)).
Proof. by destruct variant. Qed.

Lemma writeFile_inserts fs p size fs' :
  Fs.writeFile (cwd env) fs p size = Ok fs' →
  fs' = <[Fs.key (cwd env) p := Fs.File size]> fs.
Proof. unfold Fs.writeFile. intros Hw. repeat case_match; by simplify_eq. Qed.

Lemma uploadEvent_published variant st2 st uploadDir name size button_name :
  mqttClient st2 = mqttClient st →
  Mqtt.published (mqttClient
    match variant with
    | Js => snd (publishFileEvent env "file/uploaded" uploadDir
                   (Path.join [uploadDir; name]) size (orNull button_name) st2)
    | Mjs => st2
    end)
  = Mqtt.published (mqttClient st)
    ++ uploadEvent env variant st uploadDir name size button_name.
Proof.
  intros Hc. unfold uploadEvent. destruct variant.
  - rewrite publishFileEvent_cases. cbn [snd]. rewrite Hc.
    destruct (FileEvent env) as [ser|]; [|by rewrite Hc, app_nil_r].
    destruct (Mqtt.connected (mqttClient st)); [done|by rewrite Hc, app_nil_r].
  - by rewrite Hc, app_nil_r.
Qed.

End UploadSuccess.

(** X4. An upload answered with `success: true` has passed the checks of
    the policy chosen for it and is stored: afterwards the policy's
    directory holds a file of the original name and the received size,
    the receiving path is gone when it is another one, the answer names
    the file, and upload_server.js has published one `file/uploaded`
    event if the client was connected while upload_server.mjs
    publishes nothing. *)
Theorem accepted_upload_is_stored (env : Env) (config : Config) (variant : Variant)
    (button_name : option string) (name : string) (size : N)
    (st st' : Server) (answered : string) :
  step env config variant st (PostUpload button_name (Some (name, size)))
    = Ok (st', Some (Json 200 (uploadOk answered))) →
  ∃ uploadCfg uploadDir,
    answered = name
    ∧ uploadCfgFor config button_name = Some uploadCfg
    ∧ extensionRejected uploadCfg (Path.extname name) = false
    ∧ sizeRejected uploadCfg size = false
    ∧ uploadDirFor env config variant uploadCfg = Ok uploadDir
    ∧ let received := Fs.key (cwd env) (Path.join [UPLOAD_DIR env config; name]) in
      let stored := Fs.key (cwd env) (Path.join [uploadDir; name]) in
      fs st' !! stored = Some (Fs.File size)
      ∧ (received ≠ stored → fs st' !! received = None)
      ∧ Mqtt.published (mqttClient st')
        = Mqtt.published (mqttClient st)
          ++ uploadEvent env variant st uploadDir name size button_name.
Proof.
  rewrite step_upload. cbv zeta. unfold uploadRoute, multer.
  destruct (Fs.writeFile _ _ _ _) as [fs0|e] eqn:Ew; [|done].
  pose proof (writeFile_not_root env _ _ _ _ Ew) as Hroot.
  apply writeFile_inserts in Ew as ->.
  set (receivedPath := Path.join [UPLOAD_DIR env config; name]) in *.
  set (st0 := setFs _ st).
  unfold tryCatch. rewrite uploadBodyOf_cases, uploadChecks_cases.
  destruct (uploadCfgFor config button_name) as [uploadCfg|]; [|done].
  cbv zeta. cbn [ReqFile.originalname ReqFile.size ReqFile.path].
  destruct (extensionRejected _ _) eqn:Eext.
  { by destruct (Fs.unlinkSync _ _ _). }
  destruct (sizeRejected _ _) eqn:Esize.
  { by destruct (Fs.unlinkSync _ _ _). }
  destruct (uploadDirFor _ _ _ _) as [uploadDir|e] eqn:Edir; [|done].
  rewrite moveUpload_cases. cbv zeta.
  cbn [ReqFile.originalname ReqFile.size ReqFile.path].
  set (destPath := Path.join [uploadDir; name]).
  assert (Hreceived : fs st0 !! Fs.key (cwd env) receivedPath = Some (Fs.File size)).
  { subst st0. cbn [fs setFs]. apply lookup_insert_eq. }
  destruct (if Fs.existsSync _ _ _ then _ else _) as [fs1|e] eqn:Ecreate; [|done].
  assert (Hkept : fs1 !! Fs.key (cwd env) receivedPath = Some (Fs.File size)).
  { destruct (Fs.existsSync _ _ _).
    - by injection Ecreate as <-.
    - by eapply mkdirSync_keeps. }
  destruct (String.eqb receivedPath destPath) eqn:Esame.
  - apply String.eqb_eq in Esame. intros [= <- <-].
    exists uploadCfg, uploadDir. split_and!; try done.
    + cbv zeta. fold destPath. rewrite <- Esame.
      by destruct variant; [rewrite publishFileEvent_cases; cbn [snd];
                            repeat case_match|].
    + cbv zeta. fold destPath. by rewrite <- Esame.
    + by apply uploadEvent_published.
  - unfold Fs.renameSync. rewrite Hkept.
    destruct (fs1 !! Fs.key (cwd env) destPath) as [[sz|]|] eqn:Edest;
      try done; intros [= <- <-];
      exists uploadCfg, uploadDir; (split_and!; try done);
      try (by apply uploadEvent_published); cbv zeta; fold destPath.
    all: destruct variant;
      [rewrite publishFileEvent_cases; cbn [snd]; repeat case_match|];
      cbn [fs setFs setMqttClient];
      first [apply lookup_insert_eq
            |intros Hne; rewrite lookup_insert_ne by done; apply lookup_delete_eq].
Qed.

Lemma accepted_upload_is_stored_witness :
  ∃ uploadCfg uploadDir,
    "pic.png" = "pic.png"
    ∧ uploadCfgFor Demo.config (Some "images") = Some uploadCfg
    ∧ extensionRejected uploadCfg (Path.extname "pic.png") = false
    ∧ sizeRejected uploadCfg 5%N = false
    ∧ uploadDirFor Demo.env Demo.config Js uploadCfg = Ok uploadDir
    ∧ let received :=
        Fs.key (cwd Demo.env) (Path.join [UPLOAD_DIR Demo.env Demo.config; "pic.png"]) in
      let stored := Fs.key (cwd Demo.env) (Path.join [uploadDir; "pic.png"]) in
      fs afterPicture !! stored = Some (Fs.File 5%N)
      ∧ (received ≠ stored → fs afterPicture !! received = None)
      ∧ Mqtt.published (mqttClient afterPicture)
        = Mqtt.published (mqttClient Demo.server)
          ++ uploadEvent Demo.env Js Demo.server uploadDir "pic.png" 5%N (Some "images").
Proof.
  apply (accepted_upload_is_stored Demo.env Demo.config Js (Some "images")
           "pic.png" 5%N Demo.server afterPicture "pic.png").
  vm_compute. reflexivity.
Defined.

(** X5. upload_server.mjs calls [resolveDir] with the policy's directory
    as the base and [UPLOAD_DIR] as the directory: [__dirname] being
    absolute, the directory of every policy resolves to [UPLOAD_DIR],
    and an accepted upload stays where multer has written it, whatever
    `upload_directory` the policy names. *)
Theorem mjs_upload_ignores_policy_directory (env : Env) (config : Config) :
  Path.isAbsolute (__dirname env) = true →
  (∀ uploadCfg,
     uploadDirFor env config Mjs uploadCfg = Ok (UPLOAD_DIR env config))
  ∧ ∀ button_name name size st st' answered,
      Fs.existsSync (cwd env) (fs st) (UPLOAD_DIR env config) = true →
      step env config Mjs st (PostUpload button_name (Some (name, size)))
        = Ok (st', Some (Json 200 (uploadOk answered))) →
      st' = setFs (<[Fs.key (cwd env) (Path.join [UPLOAD_DIR env config; name])
                     := Fs.File size]> (fs st)) st.
Proof.
  intros Habs.
  assert (Hdir : ∀ uploadCfg,
    uploadDirFor env config Mjs uploadCfg = Ok (UPLOAD_DIR env config)).
  { intros uploadCfg. unfold uploadDirFor, resolveDir.
    by rewrite UPLOAD_DIR_absolute. }
  split; [exact Hdir|].
  intros button_name name size st st' answered Hexists.
  rewrite step_upload. cbv zeta. unfold uploadRoute, multer.
  destruct (Fs.writeFile _ _ _ _) as [fs0|e] eqn:Ew; [|done].
  apply writeFile_inserts in Ew as ->.
  unfold tryCatch. rewrite uploadBodyOf_cases, uploadChecks_cases.
  destruct (uploadCfgFor config button_name) as [uploadCfg|]; [|done].
  cbv zeta. cbn [ReqFile.originalname ReqFile.size ReqFile.path].
  destruct (extensionRejected _ _).
  { by destruct (Fs.unlinkSync _ _ _). }
  destruct (sizeRejected _ _).
  { by destruct (Fs.unlinkSync _ _ _). }
  rewrite Hdir, moveUpload_cases. cbv zeta.
  cbn [ReqFile.originalname ReqFile.size ReqFile.path].
  rewrite String.eqb_refl.
  assert (Hstill : Fs.existsSync (cwd env)
            (fs (setFs (<[Fs.key (cwd env) (Path.join [UPLOAD_DIR env config; name])
                          := Fs.File size]> (fs st)) st))
            (UPLOAD_DIR env config) = true).
  { unfold Fs.existsSync in *. apply bool_decide_eq_true in Hexists.
    apply bool_decide_eq_true. cbn [fs setFs].
    destruct (decide (Fs.key (cwd env) (Path.join [UPLOAD_DIR env config; name])
                      = Fs.key (cwd env) (UPLOAD_DIR env config))) as [->|Hne].
    - rewrite lookup_insert_eq. by eexists.
    - by rewrite lookup_insert_ne. }
  rewrite Hstill. by intros [= <- <-].
Qed.

Lemma mjs_upload_ignores_policy_directory_witness :
  uploadDirFor Demo.env Demo.config Mjs
    (Demo.uploadPolicy "images" "images" [".png"] None)
  = Ok "/srv/app/uploads"
  ∧ fst (uploadRoute Demo.env Demo.config (uploadBodyMjs Demo.env Demo.config)
           (Some "images") (Some ("pic.png", 5%N)) Demo.server)
    = setFs (<["/srv/app/uploads/pic.png" := Fs.File 5%N]> Demo.disk) Demo.server.
Proof.
  destruct (mjs_upload_ignores_policy_directory Demo.env Demo.config eq_refl)
    as [Hdir Hstays].
  split; [apply Hdir|].
  apply (Hstays (Some "images") "pic.png" 5%N Demo.server _ "pic.png").
  - vm_compute. reflexivity.
  - vm_compute. reflexivity.
Defined.

(** X6. An upload request, accepted or refused, leaves every entry of
    the file system in place except the root, the path multer writes
    to, and the path in the policy's directory that the file is moved
    to. *)
Theorem upload_keeps_other_entries (env : Env) (config : Config) (variant : Variant)
    (button_name : option string) (name : string) (size : N)
    (st st' : Server) (answer : option Response) (k : string) (node : Fs.node) :
  step env config variant st (PostUpload button_name (Some (name, size)))
    = Ok (st', answer) →
  fs st !! k = Some node →
  k ≠ "/" →
  k ≠ Fs.key (cwd env) (Path.join [UPLOAD_DIR env config; name]) →
  (∀ uploadCfg uploadDir,
     uploadCfgFor config button_name = Some uploadCfg →
     uploadDirFor env config variant uploadCfg = Ok uploadDir →
     k ≠ Fs.key (cwd env) (Path.join [uploadDir; name])) →
  fs st' !! k = Some node.
Proof.
  intros Hstep Hnode Hroot Hreceived Hstored. revert Hstep.
  rewrite step_upload. cbv zeta. unfold uploadRoute, multer.
  destruct (Fs.writeFile _ _ _ _) as [fs0|e] eqn:Ew; [|by intros [= <- _]].
  apply writeFile_inserts in Ew as ->.
  set (receivedPath := Path.join [UPLOAD_DIR env config; name]) in *.
  assert (H0 : (<[Fs.key (cwd env) receivedPath := Fs.File size]> (fs st)) !! k
               = Some node) by (by rewrite lookup_insert_ne).
  unfold tryCatch. rewrite uploadBodyOf_cases, uploadChecks_cases.
  destruct (uploadCfgFor config button_name) as [uploadCfg|];
    [|by intros [= <- _]].
  cbv zeta. cbn [ReqFile.originalname ReqFile.size ReqFile.path].
  assert (Hunlink : ∀ message,
    fs (fst (let '(r, st1) :=
               match Fs.unlinkSync (cwd env)
                       (fs (setFs (<[Fs.key (cwd env) receivedPath := Fs.File size]>
                                     (fs st)) st)) receivedPath with
               | Ok fs' => (Throw message : result (Member.t * ReqFile.t), setFs fs' (setFs (<[Fs.key (cwd env) receivedPath := Fs.File size]> (fs st)) st))
               | Throw e => (Throw e, setFs (<[Fs.key (cwd env) receivedPath := Fs.File size]> (fs st)) st)
               end in (st1, r))) !! k = Some node).
  { intros message. unfold Fs.unlinkSync. cbn [fs setFs].
    rewrite lookup_insert_eq. cbn [fst fs setFs]. by rewrite lookup_delete_ne. }
  destruct (extensionRejected _ _).
  { specialize (Hunlink "File type not allowed").
    destruct (Fs.unlinkSync _ _ _); intros [= <- _]; exact Hunlink. }
  destruct (sizeRejected _ _).
  { specialize (Hunlink "File size exceeds limit").
    destruct (Fs.unlinkSync _ _ _); intros [= <- _]; exact Hunlink. }
  clear Hunlink.
  destruct (uploadDirFor _ _ _ _) as [uploadDir|e] eqn:Edir; [|by intros [= <- _]].
  specialize (Hstored uploadCfg uploadDir eq_refl Edir).
  rewrite moveUpload_cases. cbv zeta.
  cbn [ReqFile.originalname ReqFile.size ReqFile.path].
  destruct (if Fs.existsSync _ _ _ then _ else _) as [fs1|e] eqn:Ecreate;
    [|by intros [= <- _]].
  assert (H1 : fs1 !! k = Some node).
  { destruct (Fs.existsSync _ _ _).
    - by injection Ecreate as <-.
    - by eapply mkdirSync_keeps. }
  assert (Hpublish : ∀ st2, fs st2 !! k = Some node →
    fs match variant with
       | Js => snd (publishFileEvent env "file/uploaded" uploadDir
                      (Path.join [uploadDir; name]) size (orNull button_name) st2)
       | Mjs => st2
       end !! k = Some node).
  { intros st2 H2. destruct variant; [|done].
    rewrite publishFileEvent_cases. cbn [snd]. by repeat case_match. }
  destruct (String.eqb _ _).
  { intros [= <- _]. by apply Hpublish. }
  unfold Fs.renameSync.
  destruct (fs1 !! Fs.key (cwd env) receivedPath) as [n|]; [|by intros [= <- _]].
  assert (H2 : (<[Fs.key (cwd env) (Path.join [uploadDir; name]) := n]>
                  (delete (Fs.key (cwd env) receivedPath) fs1)) !! k = Some node).
  { rewrite lookup_insert_ne by done. by rewrite lookup_delete_ne. }
  destruct (fs1 !! Fs.key (cwd env) (Path.join [uploadDir; name])) as [[sz|]|];
    intros [= <- _]; first [by apply Hpublish | done].
Qed.

Lemma upload_keeps_other_entries_witness :
  fs afterPicture !! "/srv/app/secret.txt" = Some (Fs.File 7%N).
Proof.
  apply (upload_keeps_other_entries Demo.env Demo.config Js (Some "images")
           "pic.png" 5%N Demo.server afterPicture
           (Some (Json 200 (uploadOk "pic.png")))).
  - vm_compute. reflexivity.
  - vm_compute. reflexivity.
  - discriminate.
  - vm_compute. discriminate.
  - intros uploadCfg uploadDir [= <-] [= <-]. vm_compute. discriminate.
Defined.

(** X7. Only the extension check and the size check remove what multer
    has received: an upload refused for any other reason (no Upload
    policy, a directory that cannot be resolved or created, a move that
    fails) is answered with `success: false` while the file stays in
    [UPLOAD_DIR] under its original name. *)
Theorem refused_upload_stays_received (env : Env) (config : Config)
    (variant : Variant) (button_name : option string) (name : string) (size : N)
    (st st' : Server) (body : JsVal) :
  step env config variant st (PostUpload button_name (Some (name, size)))
    = Ok (st', Some (Json 200 body)) →
  (∀ uploadCfg, uploadCfgFor config button_name = Some uploadCfg →
     extensionRejected uploadCfg (Path.extname name) = false
     ∧ sizeRejected uploadCfg size = false) →
  body = uploadOk name
  ∨ (∃ message, body = uploadFailed message)
    ∧ fs st' !! Fs.key (cwd env) (Path.join [UPLOAD_DIR env config; name])
      = Some (Fs.File size).
Proof.
  intros Hstep Hchecks. revert Hstep.
  rewrite step_upload. cbv zeta. unfold uploadRoute, multer.
  destruct (Fs.writeFile _ _ _ _) as [fs0|e] eqn:Ew; [|done].
  pose proof (writeFile_not_root env _ _ _ _ Ew) as Hroot.
  apply writeFile_inserts in Ew as ->.
  set (receivedPath := Path.join [UPLOAD_DIR env config; name]) in *.
  assert (H0 : (<[Fs.key (cwd env) receivedPath := Fs.File size]> (fs st))
               !! Fs.key (cwd env) receivedPath = Some (Fs.File size))
    by apply lookup_insert_eq.
  unfold tryCatch. rewrite uploadBodyOf_cases, uploadChecks_cases.
  destruct (uploadCfgFor config button_name) as [uploadCfg|].
  2:{ intros [= <- <-]. right. split; [by eexists|done]. }
  destruct (Hchecks uploadCfg eq_refl) as [Hext Hsize].
  cbv zeta. cbn [ReqFile.originalname ReqFile.size ReqFile.path].
  rewrite Hext, Hsize.
  destruct (uploadDirFor _ _ _ _) as [uploadDir|e].
  2:{ intros [= <- <-]. right. split; [by eexists|done]. }
  rewrite moveUpload_cases. cbv zeta.
  cbn [ReqFile.originalname ReqFile.size ReqFile.path].
  destruct (if Fs.existsSync _ _ _ then _ else _) as [fs1|e] eqn:Ecreate.
  2:{ intros [= <- <-]. right. split; [by eexists|done]. }
  assert (H1 : fs1 !! Fs.key (cwd env) receivedPath = Some (Fs.File size)).
  { destruct (Fs.existsSync _ _ _).
    - by injection Ecreate as <-.
    - by eapply mkdirSync_keeps. }
  destruct (String.eqb _ _); [intros [= <- <-]; by left|].
  destruct (Fs.renameSync _ _ _ _) as [fs2|e]; intros [= <- <-]; [by left|].
  right. split; [by eexists|done].
Qed.

Lemma refused_upload_stays_received_witness :
  let st := setFs (<["/srv/app/images/pic.png" := Fs.Dir]> Demo.disk) Demo.server in
  let message := "EISDIR: illegal operation on a directory, rename" in
  uploadFailed message = uploadOk "pic.png"
  ∨ (∃ message', uploadFailed message = uploadFailed message')
    ∧ fs (fst (uploadRoute Demo.env Demo.config (uploadBody Demo.env Demo.config)
                 (Some "images") (Some ("pic.png", 5%N)) st))
        !! Fs.key (cwd Demo.env) (Path.join [UPLOAD_DIR Demo.env Demo.config; "pic.png"])
      = Some (Fs.File 5%N).
Proof.
  cbv zeta.
  apply (refused_upload_stays_received Demo.env Demo.config Js (Some "images")
           "pic.png" 5%N
           (setFs (<["/srv/app/images/pic.png" := Fs.Dir]> Demo.disk) Demo.server)).
  - vm_compute. reflexivity.
  - intros uploadCfg [= <-]. split; vm_compute; reflexivity.
Defined.

(** * POST /api/download *)

Section Download.
Context (env : Env) (config : Config).

Lemma downloadRoute_cases button_name filename path st :
  downloadRoute env config button_name filename path st =
    let refused (message : string) := (st, Json 400 (downloadFailed message)) in
    match downloadCfgFor config button_name with
    | None => refused "No download config found"
    | Some downloadCfg =>
        match requestedName filename path with
        | None => refused "No filename provided"
        | Some requested =>
            if extensionRejected downloadCfg (Path.extname requested)
            then refused "File type not allowed"
            else
              match resolveDir (Some (__dirname env))
                      (Member.root_directory downloadCfg) with
              | Throw e => refused e
              | Ok rootDir =>
                  let filePath := Path.join [rootDir; requested] in
                  match fs st !! Fs.key (cwd env) filePath with
                  | None => refused "File not found"
                  | Some node =>
                      (snd (publishFileEvent env "file/downloaded" rootDir filePath
                              match node with Fs.File size => size | Fs.Dir => 0%N end
                              (orNull button_name) st),
                       Download filePath (Path.basename requested))
                  end
              end
        end
    end.
Proof.
  unfold downloadRoute, tryCatch, downloadBody, downloadCfgFor, requestedName.
  unfold mbind, handler_bind, fromOption, mret, handler_ret, throw, when, lift, get.
  destruct (orElse (getDownloadConfig _ _) _) as [downloadCfg|]; [|done].
  destruct (orElse (orNull filename) _) as [requested|]; [|done].
  cbv zeta.
  destruct (extensionRejected _ _); [done|].
  destruct (resolveDir _ _) as [rootDir|e]; [|done].
  unfold mret, handler_ret.
  destruct (fs st !! _) as [node|]; [|done].
  by rewrite publishFileEvent_cases.
Qed.


End Download.



(** X9. The download route has no containment check: a name that steps
    out of the policy's root with `..` and carries an allowed extension
    is joined to the root as it is, and the file next to the root
    directory is handed out. *)
Theorem download_reaches_outside_root (env : Env) (config : Config)
    (button_name : option string) (downloadCfg : Member.t) (rootDir x : string)
    (st : Server) :
  Path.isAbsolute (__dirname env) = true →
  downloadCfgFor config button_name = Some downloadCfg →
  resolveDir (Some (__dirname env)) (Member.root_directory downloadCfg) = Ok rootDir →
  Path.plain x →
  let rootSegments := Path.segments (Path.resolve (cwd env) [rootDir]) in
  let filePath := Path.join [rootDir; "../" +:+ x] in
  rootSegments ≠ [] →
  last rootSegments ≠ Some x →
  extensionRejected downloadCfg (Path.extname ("../" +:+ x)) = false →
  is_Some (fs st !! Fs.key (cwd env) filePath) →
  Path.segments (Path.resolve (cwd env) [filePath]) = removelast rootSegments ++ [x]
  ∧ ¬ Path.descendant (cwd env) rootDir filePath
  ∧ ∃ st', downloadRoute env config button_name (Some ("../" +:+ x)) None st
           = (st', Download filePath (Path.basename ("../" +:+ x))).
Proof.
  intros Habs Hcfg Hdir Hx rootSegments filePath Hroot Hlast Hext [node Hnode].
  pose proof (resolveDir_absolute env Habs _ _ Hdir) as Hup.
  assert (Hsegs : rootSegments = Path.normalizeSegments false rootDir).
  { subst rootSegments. rewrite resolve_absolute by done.
    apply segments_render, normalizeSegments_plain. }
  destruct (join_parent rootDir x Hup Hx) as [Habs' Hseg].
  assert (Hfile : Path.segments (Path.resolve (cwd env) [filePath])
                  = removelast rootSegments ++ [x]).
  { subst filePath. rewrite resolve_absolute by done.
    rewrite segments_render by apply normalizeSegments_plain.
    by rewrite Hseg, Hsegs. }
  split_and!; [done| |].
  - unfold Path.descendant. fold rootSegments. rewrite Hfile.
    by apply not_prefix_of_sibling.
  - rewrite downloadRoute_cases, Hcfg. cbv zeta.
    assert (Hreq : requestedName (Some ("../" +:+ x)) None = Some ("../" +:+ x))
      by done.
    rewrite Hreq, Hext, Hdir. fold filePath. rewrite Hnode. by eexists.
Qed.

Lemma download_reaches_outside_root_witness :
  Path.segments (Path.resolve "/srv/app" ["/srv/app/secret.txt"]) = ["srv"; "app"; "secret.txt"]
  ∧ ¬ Path.descendant "/srv/app" "/srv/app/downloads" "/srv/app/secret.txt"
  ∧ ∃ st', downloadRoute Demo.env Demo.config (Some "logs") (Some "../secret.txt") None
             Demo.server
           = (st', Download "/srv/app/secret.txt" "secret.txt").
Proof.
  apply (download_reaches_outside_root Demo.env Demo.config (Some "logs")
           (Demo.downloadPolicy "logs" "downloads" [".txt"])
           "/srv/app/downloads" "secret.txt" Demo.server).
  - reflexivity.
  - reflexivity.
  - reflexivity.
  - by repeat split.
  - vm_compute. discriminate.
  - vm_compute. discriminate.
  - vm_compute. reflexivity.
  - vm_compute. by eexists.
Defined.

(** * POST /api/action: what is published, and where *)

Section ActionTargets.
Context (env : Env) (config : Config).

Lemma findMember_Some test ts member :
  findMember test ts = Some member →
  member ∈ flat_map Tab.members ts ∧ test member = true.
Proof.
  rewrite findMember_flat. intros [Hin Htest]%find_some.
  by rewrite list_elem_of_In.
Qed.

Lemma findMember_is_Some test ts member :
  member ∈ flat_map Tab.members ts → test member = true →
  is_Some (findMember test ts).
Proof.
  rewrite findMember_flat, list_elem_of_In. intros Hin Htest.
  destruct (find test _) as [m|] eqn:E; [by eexists|].
  pose proof (find_none _ _ E _ Hin) as Hnone. congruence.
Qed.

Lemma findMember_existsb test ts :
  bool_decide (is_Some (findMember test ts)) = existsb test (flat_map Tab.members ts).
Proof.
  rewrite findMember_flat.
  induction (flat_map Tab.members ts) as [|m ms IH]; [done|].
  cbn [find existsb]. destruct (test m); [|exact IH].
  by apply bool_decide_eq_true_2.
Qed.

Lemma actionRoute_cases faults action value st :
  actionRoute config faults action value st =
    if negb (truthyVal action)
    then (st, Json 200 (actionFailed "No action provided in request"))
    else match findMember (isButtonNamed action) (tabs config) with
         | None => (st, Json 200 (actionFailed "Action not found in config"))
         | Some member =>
             if negb (truthy (Member.publish_topic member))
             then (st, Json 200 (actionFailed "No publish_topic found for action"))
             else
               let topic := default "" (Member.publish_topic member) in
               let reconnected :=
                 if Mqtt.connected (mqttClient st) then (Ok (), st)
                 else mqttCall (Mqtt.reconnect faults) st in
               match reconnected with
               | (Throw e, st1) => (st1, Json 200 (actionFailed e))
               | (Ok _, st1) =>
                   match mqttCall (Mqtt.publish faults topic
                                     (PVal (actionPayload value))) st1 with
                   | (Throw e, st2) => (st2, Json 200 (actionFailed e))
                   | (Ok _, st2) => (st2, Json 200 actionOk)
                   end
               end
         end.
Proof.
  unfold actionRoute, tryCatch.
  destruct (truthyVal action) eqn:Haction; cbn [negb].
  2:{ unfold actionBody, mbind, handler_bind, when, throw. by rewrite Haction. }
  destruct (findMember _ _) as [member|] eqn:Hfind.
  2:{ unfold actionBody, mbind, handler_bind, when, throw, fromOption,
        mret, handler_ret.
      by rewrite Haction, Hfind. }
  destruct (truthy (Member.publish_topic member)) eqn:Htopic; cbn [negb].
  2:{ unfold actionBody, mbind, handler_bind, when, throw, fromOption,
        mret, handler_ret.
      by rewrite Haction, Hfind, Htopic. }
  rewrite (actionBody_button config faults action value member st) by done.
  cbv zeta.
  destruct (if Mqtt.connected _ then _ else _) as [[[]|e] st1]; [|done].
  by destruct (mqttCall _ st1) as [[[]|e] st2].
Qed.

End ActionTargets.

(** X10. Whatever the request, the action route publishes at most one
    message, and only to the `publish_topic` of a button member of the
    configuration that carries the requested action as its
    `button_name` (a topic that [isValidButtonAction] accepts); the
    answer is "Action sent" exactly when that message has gone out.
    The route leaves files, sensor cache and WebSocket clients alone,
    and does not call `reconnect()` while the client is connected. *)
Theorem action_publishes_to_button_topic (env : Env) (config : Config)
    (variant : Variant) (st st' : Server) (faults : Mqtt.faults)
    (action value : JsVal) (r : Response) :
  step env config variant st (PostAction faults action value) = Ok (st', Some r) →
  (fs st' = fs st ∧ latestSensorData st' = latestSensorData st
   ∧ wssClients st' = wssClients st
   ∧ (Mqtt.connected (mqttClient st) = true →
      Mqtt.reconnectCalls (mqttClient st') = Mqtt.reconnectCalls (mqttClient st)))
  ∧ ((∃ message, r = Json 200 (actionFailed message))
     ∧ Mqtt.published (mqttClient st') = Mqtt.published (mqttClient st)
     ∨ r = Json 200 actionOk
       ∧ ∃ name member topic,
           action = JStr name
           ∧ member ∈ allMembers config
           ∧ Member.type member = "button"
           ∧ Member.button_name member = Some name
           ∧ Member.publish_topic member = Some topic
           ∧ isValidButtonAction config topic = true
           ∧ Mqtt.published (mqttClient st')
             = Mqtt.published (mqttClient st) ++ [(topic, PVal (actionPayload value))]).
Proof.
  cbn [step fst snd]. rewrite actionRoute_cases.
  destruct (truthyVal action) eqn:Haction; cbn [negb].
  2:{ intros [= <- <-]. split; [done|]. left. split; [by eexists|done]. }
  destruct (findMember _ _) as [member|] eqn:Hfind.
  2:{ intros [= <- <-]. split; [done|]. left. split; [by eexists|done]. }
  destruct (truthy (Member.publish_topic member)) eqn:Htopic; cbn [negb].
  2:{ intros [= <- <-]. split; [done|]. left. split; [by eexists|done]. }
  apply findMember_Some in Hfind as [Hin Hnamed].
  unfold isButtonNamed in Hnamed. apply andb_true_iff in Hnamed as [Htype Hname].
  destruct action as [| | | |name| |]; try done.
  apply bool_decide_eq_true in Hname.
  apply String.eqb_eq in Htype.
  destruct (Member.publish_topic member) as [topic|] eqn:Etopic; [|done].
  assert (Hvalid : isValidButtonAction config topic = true).
  { unfold isValidButtonAction. apply bool_decide_eq_true.
    apply (findMember_is_Some _ _ member); [done|].
    apply andb_true_iff. split.
    - unfold isType. by rewrite Htype.
    - apply bool_decide_eq_true. by rewrite Etopic. }
  cbv zeta. unfold mqttCall, Mqtt.reconnect, Mqtt.publish. cbn [default from_option id].
  destruct (Mqtt.connected (mqttClient st)) eqn:Hconn.
  - destruct (Mqtt.publishThrows faults) as [e|]; intros [= <- <-].
    + split; [done|]. left. split; [by eexists|done].
    + split; [done|]. right. split; [done|].
      exists name, member, topic. by split_and!.
  - destruct (Mqtt.reconnectThrows faults) as [e|].
    { intros [= <- <-]. split; [done|]. left. split; [by eexists|done]. }
    cbn [mqttClient setMqttClient].
    destruct (Mqtt.publishThrows faults) as [e|]; intros [= <- <-].
    + split; [done|]. left. split; [by eexists|done].
    + split; [done|]. right. split; [done|].
      exists name, member, topic. by split_and!.
Qed.

Lemma action_publishes_to_button_topic_witness :
  ∃ name member topic,
    JStr "led" = JStr name
    ∧ member ∈ allMembers Demo.config
    ∧ Member.type member = "button"
    ∧ Member.button_name member = Some name
    ∧ Member.publish_topic member = Some topic
    ∧ isValidButtonAction Demo.config topic = true
    ∧ [("actuator/led", PVal (JStr "on"))]
      = Mqtt.published (mqttClient Demo.server) ++ [(topic, PVal (actionPayload (JStr "on")))].
Proof.
  destruct (action_publishes_to_button_topic Demo.env Demo.config Js Demo.server
              (setMqttClient (Mqtt.mk false 1 ∅ [("actuator/led", PVal (JStr "on"))])
                 Demo.server)
              Mqtt.noFaults (JStr "led") (JStr "on") (Json 200 actionOk)
              ltac:(vm_compute; reflexivity)) as [_ [[[message Hfailed] _]|[_ Hsent]]].
  - discriminate Hfailed.
  - exact Hsent.
Defined.

(** X11. In a server whose configuration has passed [validateConfig],
    every button has a topic, so the refusal "No publish_topic found
    for action" cannot occur: with a client that does not throw, an
    action is sent exactly when it is a non-empty string that some
    button member carries as `button_name`; otherwise nothing changes
    and the answer is "No action provided in request" for a missing or
    falsy action and "Action not found in config" for any other. *)
Theorem validated_action_outcomes (env : Env) (config : Config) (variant : Variant)
    (st st' : Server) (action value : JsVal) (r : Response) :
  validateConfig config = Ok () →
  step env config variant st (PostAction Mqtt.noFaults action value)
    = Ok (st', Some r) →
  if truthyVal action && existsb (isButtonNamed action) (allMembers config)
  then r = Json 200 actionOk
  else st' = st
       ∧ r = Json 200 (actionFailed
               (if truthyVal action then "Action not found in config"
                else "No action provided in request")).
Proof.
  intros Hvalid. cbn [step fst snd]. rewrite actionRoute_cases.
  destruct (truthyVal action) eqn:Haction; cbn [negb andb].
  2:{ by intros [= <- <-]. }
  unfold allMembers. rewrite <- findMember_existsb.
  destruct (findMember _ _) as [member|] eqn:Hfind.
  2:{ rewrite bool_decide_eq_false_2 by (by intros [? [=]]). by intros [= <- <-]. }
  rewrite bool_decide_eq_true_2 by (by eexists).
  apply findMember_Some in Hfind as [Hin Hnamed].
  assert (Hcomplete : complete member = true).
  { revert Hvalid. unfold validateConfig, mbind, result_bind.
    rewrite validateTabs_flat.
    destruct (validateMembers _ _) eqn:E; [|done]. intros _.
    apply validateMembers_ok in E as (Hall & _).
    rewrite Forall_forall in Hall. by apply Hall. }
  unfold isButtonNamed in Hnamed. apply andb_true_iff in Hnamed as [Htype _].
  unfold complete in Hcomplete. rewrite Htype in Hcomplete.
  apply andb_true_iff in Hcomplete as [_ Htopic]. rewrite Htopic. cbn [negb].
  cbv zeta. unfold mqttCall, Mqtt.reconnect, Mqtt.publish.
  cbn [Mqtt.reconnectThrows Mqtt.publishThrows Mqtt.noFaults].
  by destruct (Mqtt.connected (mqttClient st)); intros [= <- <-].
Qed.

Lemma validated_action_outcomes_witness :
  validateConfig Demo.config = Ok ()
  ∧ step Demo.env Demo.config Js Demo.server
      (PostAction Mqtt.noFaults (JStr "door") (JStr "open"))
    = Ok (Demo.server, Some (Json 200 (actionFailed "Action not found in config")))
  ∧ (if truthyVal (JStr "door")
        && existsb (isButtonNamed (JStr "door")) (allMembers Demo.config)
     then Json 200 (actionFailed "Action not found in config") = Json 200 actionOk
     else Demo.server = Demo.server
          ∧ Json 200 (actionFailed "Action not found in config")
            = Json 200 (actionFailed
                (if truthyVal (JStr "door") then "Action not found in config"
                 else "No action provided in request"))).
Proof.
  assert (Hvalid : validateConfig Demo.config = Ok ()) by (vm_compute; reflexivity).
  assert (Hstep : step Demo.env Demo.config Js Demo.server
                    (PostAction Mqtt.noFaults (JStr "door") (JStr "open"))
                  = Ok (Demo.server,
                        Some (Json 200 (actionFailed "Action not found in config"))))
    by (vm_compute; reflexivity).
  split; [exact Hvalid|]. split; [exact Hstep|].
  exact (validated_action_outcomes Demo.env Demo.config Js Demo.server Demo.server
           (JStr "door") (JStr "open")
           (Json 200 (actionFailed "Action not found in config")) Hvalid Hstep).
Defined.

(** * The sensor cache over a run *)

Section Telemetry.
Context (env : Env) (config : Config).

Lemma sameTelemetry_trans st1 st2 st3 :
  sameTelemetry st1 st2 → sameTelemetry st2 st3 → sameTelemetry st1 st3.
Proof. unfold sameTelemetry. intros (-> & ->) (-> & ->). done. Qed.

Lemma telemetry_ret {A} (a : A) : keepsTelemetry (mret a).
Proof. done. Qed.

Lemma telemetry_throw {A} e : keepsTelemetry (@throw A e).
Proof. done. Qed.

Lemma telemetry_lift {A} (r : result A) : keepsTelemetry (lift r).
Proof. done. Qed.

Lemma telemetry_get {A} (f : Server → A) : keepsTelemetry (get f).
Proof. done. Qed.

Lemma telemetry_fromOption {A} (o : option A) e : keepsTelemetry (fromOption o e).
Proof. by destruct o. Qed.

Lemma telemetry_bind {A B} (h : Handler A) (k : A → Handler B) :
  keepsTelemetry h → (∀ a, keepsTelemetry (k a)) → keepsTelemetry (h ≫= k).
Proof.
  intros Hh Hk st. unfold mbind, handler_bind.
  specialize (Hh st). destruct (h st) as [[a|e] st']; [|done].
  eapply sameTelemetry_trans; [exact Hh|apply Hk].
Qed.

Lemma telemetry_when b (h : Handler ()) : keepsTelemetry h → keepsTelemetry (when b h).
Proof. by destruct b. Qed.

Lemma telemetry_fsCall f : keepsTelemetry (fsCall f).
Proof. intros st. unfold fsCall. by destruct (f (fs st)). Qed.

Lemma telemetry_mqttCall f : keepsTelemetry (mqttCall f).
Proof. intros st. unfold mqttCall. by destruct (f (mqttClient st)). Qed.

Lemma telemetry_tryCatch {A} (body : Handler A) (handler : string → A) st :
  keepsTelemetry body → sameTelemetry st (fst (tryCatch body handler st)).
Proof.
  intros Hb. unfold tryCatch. specialize (Hb st). by destruct (body st) as [[a|e] st'].
Qed.

Create HintDb telemetry discriminated.
Hint Resolve telemetry_ret telemetry_throw telemetry_lift telemetry_get
  telemetry_fromOption telemetry_when telemetry_fsCall telemetry_mqttCall : telemetry.

Local Ltac telemetry :=
  repeat first
    [ progress eauto with telemetry
    | apply telemetry_bind; [|intros]
    | apply telemetry_when
    | match goal with |- keepsTelemetry (match ?x with _ => _ end) => destruct x end
    | match goal with |- keepsTelemetry (let '(_, _) := ?x in _) => destruct x end ].

Lemma telemetry_uploadChecks button_name file :
  keepsTelemetry (uploadChecks env config button_name file).
Proof. unfold uploadChecks. telemetry. Qed.

Lemma telemetry_moveUpload uploadDir file :
  keepsTelemetry (moveUpload env uploadDir file).
Proof. unfold moveUpload. telemetry. Qed.

Lemma telemetry_publishFileEvent topic dir filePath size buttonName :
  keepsTelemetry (publishFileEvent env topic dir filePath size buttonName).
Proof. unfold publishFileEvent. telemetry. Qed.

Hint Resolve telemetry_uploadChecks telemetry_moveUpload
  telemetry_publishFileEvent : telemetry.

Lemma telemetry_uploadBody button_name file :
  keepsTelemetry (uploadBody env config button_name file).
Proof. unfold uploadBody. telemetry. Qed.

Lemma telemetry_uploadBodyMjs button_name file :
  keepsTelemetry (uploadBodyMjs env config button_name file).
Proof. unfold uploadBodyMjs. telemetry. Qed.

Lemma telemetry_downloadBody button_name filename path :
  keepsTelemetry (downloadBody env config button_name filename path).
Proof. unfold downloadBody. telemetry. Qed.

Lemma telemetry_actionBody faults action value :
  keepsTelemetry (actionBody config faults action value).
Proof. unfold actionBody. telemetry. Qed.

Lemma telemetry_browseBody button_name path :
  keepsTelemetry (browseBody env config button_name path).
Proof. unfold browseBody. telemetry. Qed.

(** Requests and connection events leave cache and clients alone. *)
Lemma step_keepsTelemetry variant st ev st' answer :
  isMqttMessage ev = false → isWsConnection ev = false →
  step env config variant st ev = Ok (st', answer) →
  sameTelemetry st st'.
Proof.
  intros Hm Hw. destruct ev; try done; cbn [step].
  - by intros [= <- _].
  - by intros [= <- _].
  - intros [= <- _]. unfold uploadRoute.
    destruct (multer env config file st) as [[reqFile|e] st1] eqn:Em.
    + assert (sameTelemetry st st1) as Hst1.
      { unfold multer in Em. repeat case_match; by simplify_eq. }
      pose proof (telemetry_tryCatch
        ((match variant with Js => uploadBody env config
                           | Mjs => uploadBodyMjs env config end) button_name reqFile)
        uploadFailed st1) as Hk.
      destruct (tryCatch _ _ st1) as [st2 a]. cbn.
      eapply sameTelemetry_trans; [exact Hst1|]. apply Hk.
      destruct variant; [apply telemetry_uploadBody|apply telemetry_uploadBodyMjs].
    + unfold multer in Em. repeat case_match; by simplify_eq.
  - intros [= <- _]. apply telemetry_tryCatch, telemetry_downloadBody.
  - intros [= <- _]. unfold actionRoute.
    pose proof (telemetry_tryCatch (actionBody config faults action value)
                  actionFailed st (telemetry_actionBody faults action value)) as Hk.
    by destruct (tryCatch _ _ st).
  - intros [= <- _]. destruct variant.
    + apply telemetry_tryCatch, telemetry_browseBody.
    + unfold browseRouteMjs. by repeat case_match.
  - intros [= <- _]. done.
  - intros [= <- _]. unfold deleteRoute. by repeat case_match.
Qed.

(** A message either changes nothing or stores a reading under the key
    of its topic, which is a registered one. *)
Lemma step_message_cache variant st topic message now st' answer :
  step env config variant st (MqttMessage topic message now) = Ok (st', answer) →
  latestSensorData st' = latestSensorData st
  ∨ topic ∈ sensorTopics st
    ∧ ∃ formatted,
        latestSensorData st' = <[sensorKey topic := formatted]> (latestSensorData st).
Proof.
  cbn [step].
  destruct (decide (topic ∈ sensorTopics st)) as [Hin|Hout].
  - set (format := match variant with
                   | Js => formatSensorData config
                   | Mjs => formatSensorDataMjs env
                   end).
    destruct (format topic (decodeMessage (topicDecoderMap st !! topic) message) now)
      as [formatted|e] eqn:Hfmt.
    + rewrite (onMqttMessage_registered _ _ _ _ _ formatted Hin Hfmt).
      intros [= <- _]. right. split; [done|]. by exists formatted.
    + unfold onMqttMessage, mbind, handler_bind, get, lift, when.
      rewrite bool_decide_eq_true_2 by done. by rewrite Hfmt.
  - rewrite onMqttMessage_unregistered by done. intros [= <- _]. by left.
Qed.

Lemma step_cacheKeysConfigured variant st ev st' answer :
  sensorTopics st = configuredSensorTopics config →
  cacheKeysConfigured config st →
  step env config variant st ev = Ok (st', answer) →
  cacheKeysConfigured config st'.
Proof.
  intros Htopics Hinv Hstep.
  destruct (isMqttMessage ev) eqn:Hm.
  - destruct ev; try done.
    apply step_message_cache in Hstep as [Hsame|[Hin [formatted Hnew]]].
    + unfold cacheKeysConfigured. by rewrite Hsame.
    + intros key reading. rewrite Hnew.
      destruct (decide (key = sensorKey topic)) as [->|Hne].
      * intros _. exists topic. by rewrite <- Htopics.
      * rewrite lookup_insert_ne by done. apply Hinv.
  - destruct (isWsConnection ev) eqn:Hw.
    + destruct ev; try done. by injection Hstep as <- _.
    + destruct (step_keepsTelemetry _ _ _ _ _ Hm Hw Hstep) as [Hsame _].
      unfold cacheKeysConfigured. by rewrite Hsame.
Qed.

End Telemetry.

(** X12. The sensor cache holds configured sensors only: in every state
    the server reaches from start-up, each key of the cache (and so of
    the answer of GET /api/sensors) is the cache key of a sensor topic
    of the configuration. Upload, download, action, browse, sensors and
    delete requests and the MQTT connection events leave the cache and
    the clients' inboxes as they are, and a new WebSocket connection
    leaves the cache as it is: only MQTT messages write to it. *)
Theorem cache_holds_configured_sensors (env : Env) (config : Config)
    (variant : Variant) (fs0 : Fs.t) (st0 st : Server) (events : list Event)
    (answers : list (option Response)) :
  startup env config fs0 = Serving st0 →
  run env config variant st0 events = Ok (st, answers) →
  cacheKeysConfigured config st
  ∧ (∀ body key,
       snd (sensorsRoute st) = Json 200 body →
       getProp key body ≠ JUndefined →
       ∃ topic, topic ∈ configuredSensorTopics config ∧ sensorKey topic = key)
  ∧ ∀ ev st' answer,
      isMqttMessage ev = false →
      step env config variant st ev = Ok (st', answer) →
      latestSensorData st' = latestSensorData st
      ∧ (isWsConnection ev = false → wssClients st' = wssClients st).
Proof.
  intros Hstart Hrun.
  assert (Hinv : cacheKeysConfigured config st).
  { assert (H0 : cacheKeysConfigured config st0
                 ∧ subscribedAsConfigured config st0).
    { split; [|by eapply startup_subscribedAsConfigured].
      unfold startup in Hstart.
      repeat case_match; try done; injection Hstart as <-; by intros key reading. }
    clear Hstart. revert st0 answers H0 Hrun.
    induction events as [|ev events IH]; intros st0 answers [Hc Hs].
    - by intros [= <- _].
    - cbn [run]. unfold mbind, result_bind.
      destruct (step env config variant st0 ev) as [[st1 answer]|e] eqn:Estep; [|done].
      destruct (run env config variant st1 events) as [[st2 rest]|e] eqn:Erun; [|done].
      intros [= <- _]. eapply IH; [|exact Erun]. split.
      + eapply step_cacheKeysConfigured; [apply Hs|exact Hc|exact Estep].
      + by eapply step_subscribedAsConfigured. }
  split_and!; [exact Hinv| |].
  - intros body key [= <-] Hkey. unfold snapshot, getProp in Hkey.
    cbn [props] in Hkey.
    destruct (find _ _) as [[k v]|] eqn:Efind; [|done].
    apply find_some in Efind as [Hin Hk]. cbn [fst] in Hk.
    apply String.eqb_eq in Hk as ->.
    apply list_elem_of_In, elem_of_map_to_list in Hin. by eapply Hinv.
  - intros ev st' answer Hm Hstep.
    destruct (isWsConnection ev) eqn:Hw.
    + destruct ev; try done. by injection Hstep as <- _.
    + destruct (step_keepsTelemetry env config _ _ _ _ _ Hm Hw Hstep) as [H1 H2].
      by split.
Qed.

Lemma cache_holds_configured_sensors_witness :
  ∃ topic, topic ∈ configuredSensorTopics Demo.config ∧ sensorKey topic = "temperature".
Proof.
  destruct (cache_holds_configured_sensors Demo.env Demo.config Js Demo.disk
              Demo.server (fst afterReconnection) reconnection
              (snd afterReconnection)
              ltac:(vm_compute; reflexivity) ltac:(vm_compute; reflexivity))
    as (_ & Hserved & _).
  apply (Hserved (snapshot (fst afterReconnection))); [reflexivity|].
  vm_compute. discriminate.
Defined.



(** * What upload_server.mjs throws on a message *)

Section MjsThrows.
Context (env : Env).



End MjsThrows.



(** * Start-up *)

Section Startup.
Context (env : Env) (config : Config).

Lemma string_app_assoc (a b c : string) : (a +:+ b) +:+ c = a +:+ (b +:+ c).
Proof.
  induction a as [|x a IH]; [done|].
  change (String x ((a +:+ b) +:+ c) = String x (a +:+ b +:+ c)). by f_equal.
Qed.

Lemma joinSlash_cons seg segs :
  segs ≠ [] → JsString.joinSlash (seg :: segs) = seg +:+ "/" +:+ JsString.joinSlash segs.
Proof. by destruct segs. Qed.

Lemma descend_joinSlash prefix segs :
  segs ≠ [] → descend prefix segs = prefix +:+ "/" +:+ JsString.joinSlash segs.
Proof.
  revert prefix. induction segs as [|seg segs IH]; intros prefix Hne; [done|].
  unfold descend. cbn [fold_left]. fold (descend (prefix +:+ "/" +:+ seg) segs).
  destruct segs as [|seg' segs]; [done|].
  rewrite IH by done. rewrite (joinSlash_cons seg) by done.
  by rewrite !string_app_assoc.
Qed.

Lemma mkdirSegments_creates fs prefix segs fs' :
  Fs.mkdirSegments fs prefix segs = Ok fs' → segs ≠ [] →
  fs' !! descend prefix segs = Some Fs.Dir.
Proof.
  revert fs prefix. induction segs as [|seg segs IH]; intros fs prefix; [done|].
  intros Hmk _. cbn [Fs.mkdirSegments] in Hmk.
  unfold descend. cbn [fold_left]. fold (descend (prefix +:+ "/" +:+ seg) segs).
  destruct (fs !! (prefix +:+ "/" +:+ seg)) as [[size|]|] eqn:E; [done| |].
  - destruct segs as [|seg' segs]; [by injection Hmk as <-|].
    by eapply IH.
  - destruct segs as [|seg' segs].
    + injection Hmk as <-. apply lookup_insert_eq.
    + by eapply IH.
Qed.

(** A directory that has been created is there. *)
Lemma mkdirSync_creates fs p fs' :
  Path.isAbsolute p = true →
  Fs.mkdirSync (cwd env) fs p = Ok fs' →
  fs' !! Fs.key (cwd env) p = Some Fs.Dir.
Proof.
  intros Habs. unfold Fs.mkdirSync, Fs.key.
  rewrite resolve_absolute by done.
  rewrite segments_render by apply normalizeSegments_plain.
  destruct (Path.normalizeSegments false p) as [|seg segs] eqn:Esegs.
  - intros [= <-]. apply lookup_insert_eq.
  - intros Hmk%mkdirSegments_creates; [|done].
    by rewrite descend_joinSlash in Hmk.
Qed.

End Startup.

(** X15. The module body creates [UPLOAD_DIR] before it validates the
    configuration. With an absolute [__dirname]: a server that serves
    has a valid configuration, finds something at [UPLOAD_DIR] (a
    directory, if nothing was there before), has kept every other
    entry of the file system apart from the root, and starts with an
    empty cache, no client, a client that is not connected, and the
    configured sensor topics; the process exits with code 1 exactly on
    a validation error, after the directory has been dealt with; and
    it is stopped by an exception, whatever the configuration, when
    the directory cannot be created. *)
Theorem startup_outcomes (env : Env) (config : Config) (fs0 : Fs.t) :
  Path.isAbsolute (__dirname env) = true →
  let uploads := Fs.key (cwd env) (UPLOAD_DIR env config) in
  match startup env config fs0 with
  | Serving st =>
      validateConfig config = Ok ()
      ∧ is_Some (fs st !! uploads)
      ∧ (fs0 !! uploads = None → fs st !! uploads = Some Fs.Dir)
      ∧ (∀ k node, k ≠ "/" → fs0 !! k = Some node → fs st !! k = Some node)
      ∧ latestSensorData st = ∅ ∧ wssClients st = []
      ∧ mqttClient st = Mqtt.initial
      ∧ sensorTopics st = configuredSensorTopics config
  | Exited code log =>
      code = 1%N
      ∧ (∃ e, validateConfig config = Throw e
              ∧ log = "Config validation failed: " +:+ e)
      ∧ (fs0 !! uploads = None →
         ∃ fs1, Fs.mkdirSync (cwd env) fs0 (UPLOAD_DIR env config) = Ok fs1)
  | Crashed e =>
      fs0 !! uploads = None
      ∧ Fs.mkdirSync (cwd env) fs0 (UPLOAD_DIR env config) = Throw e
  end.
Proof.
  intros Habs uploads.
  pose proof (UPLOAD_DIR_absolute env config Habs) as Hup.
  unfold startup, Fs.existsSync. fold uploads.
  destruct (fs0 !! uploads) as [node|] eqn:Efound.
  - rewrite bool_decide_eq_true_2 by (by eexists).
    destruct (validateConfig config) as [[]|e] eqn:Evalid.
    + split_and!; try done. apply registry_topics.
    + split_and!; [done|by eexists|done].
  - rewrite bool_decide_eq_false_2 by (by intros [? [=]]).
    destruct (Fs.mkdirSync _ _ _) as [fs1|e] eqn:Emk; [|done].
    pose proof (mkdirSync_creates env _ _ _ Hup Emk) as Hdir. fold uploads in Hdir.
    destruct (validateConfig config) as [[]|e] eqn:Evalid.
    + split_and!; try done.
      * intros k node Hk Hnode. cbn [fs initialServer].
        by eapply mkdirSync_keeps.
      * apply registry_topics.
    + split_and!; [done|by eexists|by eexists].
Qed.

Lemma startup_outcomes_witness :
  validateConfig Demo.config = Ok ()
  ∧ is_Some (fs (initialServer Demo.env Demo.config
                   (<["/" := Fs.Dir]> (<["/srv" := Fs.Dir]>
                      (<["/srv/app" := Fs.Dir]>
                         (<["/srv/app/uploads" := Fs.Dir]> ∅)))))
               !! "/srv/app/uploads").
Proof.
  pose proof (startup_outcomes Demo.env Demo.config ∅ eq_refl) as H.
  cbv zeta in H.
  assert (Hstart : startup Demo.env Demo.config ∅
    = Serving (initialServer Demo.env Demo.config
                 (<["/" := Fs.Dir]> (<["/srv" := Fs.Dir]>
                    (<["/srv/app" := Fs.Dir]>
                       (<["/srv/app/uploads" := Fs.Dir]> ∅))))))
    by (vm_compute; reflexivity).
  rewrite Hstart in H. destruct H as (Hvalid & Hthere & _).
  split; [exact Hvalid|exact Hthere].
Defined.

(** * The download policy of a request *)

Section DownloadPolicy.
Context (env : Env) (config : Config).

Lemma getDownloadConfig_named name :
  truthy (Some name) = true →
  getDownloadConfig config (Some name)
  = find (λ m, strictEq (Member.button_name m) (Some name)) (downloadPolicies config).
Proof.
  intros Ht. unfold getDownloadConfig. rewrite findMember_flat, Ht.
  by rewrite find_and_filter.
Qed.

Lemma getDownloadConfig_unnamed button_name :
  truthy button_name = false →
  getDownloadConfig config button_name = head (downloadPolicies config).
Proof.
  intros Ht. unfold getDownloadConfig. rewrite findMember_flat, Ht.
  rewrite find_and_filter. apply find_true_head.
Qed.

Lemma downloadCfgFor_first_match button_name :
  downloadCfgFor config button_name
  = orElse
      (if truthy button_name
       then find (λ m, strictEq (Member.button_name m) button_name)
              (downloadPolicies config)
       else None)
      (head (downloadPolicies config)).
Proof.
  unfold downloadCfgFor, orNull.
  rewrite (getDownloadConfig_unnamed None) by done.
  destruct (truthy button_name) eqn:Ht.
  - destruct button_name as [name|]; [|done].
    by rewrite getDownloadConfig_named.
  - rewrite (getDownloadConfig_unnamed None) by done.
    by destruct (head _).
Qed.

Lemma browseRoute_policy button_name path st :
  browseRoute env config button_name path st =
    match downloadCfgFor config button_name with
    | None => (st, browseError 400 "No download config found")
    | Some downloadCfg =>
        match resolveDir (Some (__dirname env)) (Member.root_directory downloadCfg) with
        | Throw e => (st, browseError 400 (messageOr e "Browse failed"))
        | Ok rootDir =>
            let relPath := JsString.stripDotRuns
                             (JsString.replaceBackslashes (default "" (orNull path))) in
            let absPath := Path.join [rootDir; relPath] in
            if negb (JsString.startsWith (Path.resolve (cwd env) [absPath])
                       (Path.resolve (cwd env) [rootDir]))
            then (st, accessDenied)
            else match Fs.readdir (cwd env) (fs st) absPath with
                 | None => (st, browseError 500 "Failed to list directory")
                 | Some entries => (st, Json 200 (listing relPath entries))
                 end
        end
    end.
Proof.
  unfold browseRoute, tryCatch, browseBody, downloadCfgFor.
  unfold mbind, handler_bind, fromOption, lift, get, mret, handler_ret, throw.
  destruct (orElse _ _) as [downloadCfg|]; [|done].
  destruct (resolveDir _ _) as [rootDir|e]; [|done].
  cbv zeta. destruct (negb _); [done|].
  by destruct (Fs.readdir _ _ _).
Qed.

(** The canonical root leads the canonical path of everything joined
    below it, as a string. *)
Lemma string_prefix_app (s t : string) : String.prefix s (s +:+ t) = true.
Proof.
  induction s as [|c s IH]; [by destruct t|].
  change (String c s +:+ t) with (String c (s +:+ t)). cbn [String.prefix].
  by destruct (ascii_dec c c).
Qed.

Lemma string_prefix_refl (s : string) : String.prefix s s = true.
Proof.
  induction s as [|c s IH]; [done|]. cbn [String.prefix].
  by destruct (ascii_dec c c).
Qed.

Lemma joinSlash_app_prefix (a b : list string) :
  String.prefix (JsString.joinSlash a) (JsString.joinSlash (a ++ b)) = true.
Proof.
  induction a as [|x a IH]; [by destruct (JsString.joinSlash ([] ++ b))|].
  destruct a as [|y a].
  - destruct b as [|z b].
    + cbn [app]. apply string_prefix_refl.
    + change (JsString.joinSlash ([x] ++ z :: b))
        with (x +:+ "/" +:+ JsString.joinSlash (z :: b)).
      apply string_prefix_app.
  - change (JsString.joinSlash (x :: y :: a))
      with (x +:+ "/" +:+ JsString.joinSlash (y :: a)).
    change (JsString.joinSlash ((x :: y :: a) ++ b))
      with (x +:+ "/" +:+ JsString.joinSlash ((y :: a) ++ b)).
    clear -IH. induction x as [|c x IHx].
    + change ("" +:+ ?s) with s. cbn [String.prefix].
      destruct (ascii_dec "/" "/"); [exact IH|done].
    + change (String c x +:+ ?s) with (String c (x +:+ s)). cbn [String.prefix].
      by destruct (ascii_dec c c).
Qed.

Lemma cleaned_path_starts_with_root rootDir rel :
  Path.isAbsolute rootDir = true → ".." ∉ JsString.split rel →
  JsString.startsWith (Path.resolve (cwd env) [Path.join [rootDir; rel]])
    (Path.resolve (cwd env) [rootDir]) = true.
Proof.
  intros Habs Hno. destruct (join_below_root rootDir rel Habs Hno) as [Habs' Hseg].
  rewrite !resolve_absolute by done. rewrite Hseg. unfold JsString.startsWith.
  change ("/" +:+ ?s) with (String "/" s). cbn [String.prefix].
  destruct (ascii_dec "/" "/"); [|done]. apply joinSlash_app_prefix.
Qed.

End DownloadPolicy.

(** X16. The download policy of a download or browse request of
    upload_server.js is found as the upload policy of an upload is:
    the first Download member carrying the non-empty identifier
    supplied, else the first Download member of the configuration. It
    always is a member of type `download`; only a configuration
    without any leads to "No download config found", which both
    routes then answer with status 400. *)
Theorem download_policy_first_match (env : Env) (config : Config)
    (button_name : option string) :
  downloadCfgFor config button_name
  = orElse
      (if truthy button_name
       then find (λ m, strictEq (Member.button_name m) button_name)
              (downloadPolicies config)
       else None)
      (head (downloadPolicies config))
  ∧ (∀ downloadCfg, downloadCfgFor config button_name = Some downloadCfg →
       downloadCfg ∈ allMembers config ∧ Member.type downloadCfg = "download")
  ∧ (downloadCfgFor config button_name = None ↔ downloadPolicies config = [])
  ∧ (downloadPolicies config = [] →
     ∀ filename path st,
       downloadRoute env config button_name filename path st
       = (st, Json 400 (downloadFailed "No download config found"))
       ∧ browseRoute env config button_name path st
         = (st, browseError 400 "No download config found")).
Proof.
  pose proof (downloadCfgFor_first_match config button_name) as Hchosen.
  assert (Hnone : downloadCfgFor config button_name = None
                  ↔ downloadPolicies config = []).
  { rewrite Hchosen. split.
    - destruct (downloadPolicies config) as [|m ms]; [done|].
      by destruct (if truthy button_name then _ else _).
    - intros ->. by destruct (truthy button_name). }
  split_and!; [exact Hchosen| |exact Hnone|].
  - intros downloadCfg. rewrite Hchosen. intros Hfound.
    assert (Hin : downloadCfg ∈ downloadPolicies config).
    { destruct (if truthy button_name then _ else _) as [m|] eqn:Efind.
      - injection Hfound as <-. destruct (truthy button_name); [|done].
        apply find_some in Efind as [Hin _]. by apply list_elem_of_In.
      - cbn [orElse] in Hfound. destruct (downloadPolicies config); [done|].
        injection Hfound as <-. by left. }
    unfold downloadPolicies in Hin. apply list_elem_of_filter in Hin as [Htype Hin].
    split; [done|]. by apply String.eqb_eq.
  - intros Hempty filename path st. apply Hnone in Hempty.
    rewrite downloadRoute_cases, browseRoute_policy, Hempty. done.
Qed.

Lemma download_policy_first_match_witness :
  downloadCfgFor Demo.config (Some "nothing")
  = Some (Demo.downloadPolicy "logs" "downloads" [".txt"])
  ∧ Member.type (Demo.downloadPolicy "logs" "downloads" [".txt"]) = "download"
  ∧ browseRoute Demo.env noUploads None None Demo.server
    = (Demo.server, browseError 400 "No download config found").
Proof.
  split_and!.
  - rewrite (proj1 (download_policy_first_match Demo.env Demo.config (Some "nothing"))).
    reflexivity.
  - apply (proj1 (proj2 (download_policy_first_match Demo.env Demo.config
                           (Some "nothing")))).
    reflexivity.
  - apply (proj2 (proj2 (proj2 (download_policy_first_match Demo.env noUploads None)))
             eq_refl None None Demo.server).
Defined.



(** * An upload, and what the other routes then see of it *)

Section AfterUpload.
Context (env : Env) (config : Config).

(** The file system after an upload that was answered with success. *)
Lemma accepted_upload_fs variant button_name name size st st' answered :
  step env config variant st (PostUpload button_name (Some (name, size)))
    = Ok (st', Some (Json 200 (uploadOk answered))) →
  ∃ uploadCfg uploadDir fs1,
    uploadCfgFor config button_name = Some uploadCfg
    ∧ uploadDirFor env config variant uploadCfg = Ok uploadDir
    ∧ let receivedPath := Path.join [UPLOAD_DIR env config; name] in
      let destPath := Path.join [uploadDir; name] in
      let received := Fs.key (cwd env) receivedPath in
      let fs0 := <[received := Fs.File size]> (fs st) in
      Fs.writeFile (cwd env) (fs st) receivedPath size = Ok fs0
      ∧ (if Fs.existsSync (cwd env) fs0 uploadDir then Ok fs0
         else Fs.mkdirSync (cwd env) fs0 uploadDir) = Ok fs1
      ∧ fs1 !! received = Some (Fs.File size)
      ∧ fs st'
        = if String.eqb receivedPath destPath then fs1
          else <[Fs.key (cwd env) destPath := Fs.File size]> (delete received fs1).
Proof.
  rewrite step_upload. cbv zeta. unfold uploadRoute, multer.
  destruct (Fs.writeFile _ _ _ _) as [fs0|e] eqn:Ew; [|done].
  pose proof (writeFile_not_root env _ _ _ _ Ew) as Hroot.
  pose proof (writeFile_inserts env _ _ _ _ Ew) as ->.
  set (receivedPath := Path.join [UPLOAD_DIR env config; name]) in *.
  unfold tryCatch. rewrite uploadBodyOf_cases, uploadChecks_cases.
  destruct (uploadCfgFor config button_name) as [uploadCfg|]; [|done].
  cbv zeta. cbn [ReqFile.originalname ReqFile.size ReqFile.path].
  destruct (extensionRejected _ _) eqn:Eext.
  { by destruct (Fs.unlinkSync _ _ _). }
  destruct (sizeRejected _ _) eqn:Esize.
  { by destruct (Fs.unlinkSync _ _ _). }
  destruct (uploadDirFor _ _ _ _) as [uploadDir|e] eqn:Edir; [|done].
  rewrite moveUpload_cases. cbv zeta.
  cbn [ReqFile.originalname ReqFile.size ReqFile.path fs setFs].
  destruct (if Fs.existsSync _ _ _ then _ else _) as [fs1|e] eqn:Ecreate; [|done].
  assert (Hkept : fs1 !! Fs.key (cwd env) receivedPath = Some (Fs.File size)).
  { destruct (Fs.existsSync _ _ _).
    - injection Ecreate as <-. apply lookup_insert_eq.
    - eapply mkdirSync_keeps; [exact Ecreate|done|apply lookup_insert_eq]. }
  intros Hanswer. exists uploadCfg, uploadDir, fs1.
  split; [done|]. split; [done|]. cbv zeta.
  split; [done|]. split; [done|]. split; [done|].
  revert Hanswer.
  destruct (String.eqb receivedPath _).
  - intros [= <- _].
    by destruct variant; [rewrite publishFileEvent_cases; cbn [snd];
                          repeat case_match|].
  - unfold Fs.renameSync. rewrite Hkept.
    destruct (fs1 !! Fs.key (cwd env) (Path.join [uploadDir; name])) as [[sz|]|];
      try done; intros [= <- _];
      by destruct variant; [rewrite publishFileEvent_cases; cbn [snd];
                            repeat case_match|].
Qed.

End AfterUpload.

(** X18. Deleting what has just been uploaded: DELETE /api/delete/:name
    looks in [UPLOAD_DIR] only. When the policy's directory is
    [UPLOAD_DIR], as it always is in upload_server.mjs, the file is
    found and removed; when upload_server.js has moved it to another
    directory the request is answered 404 and the file stays where it
    was stored. *)
Theorem delete_after_upload (env : Env) (config : Config) (variant : Variant)
    (button_name : option string) (name : string) (size : N)
    (st st1 : Server) (uploadCfg : Member.t) (uploadDir : string) :
  step env config variant st (PostUpload button_name (Some (name, size)))
    = Ok (st1, Some (Json 200 (uploadOk name))) →
  uploadCfgFor config button_name = Some uploadCfg →
  uploadDirFor env config variant uploadCfg = Ok uploadDir →
  let received := Fs.key (cwd env) (Path.join [UPLOAD_DIR env config; name]) in
  let stored := Fs.key (cwd env) (Path.join [uploadDir; name]) in
  (received = stored →
   ∃ st2, step env config variant st1 (DeleteFile name) = Ok (st2, Some deleted)
          ∧ fs st2 !! stored = None)
  ∧ (received ≠ stored →
     step env config variant st1 (DeleteFile name) = Ok (st1, Some fileNotFound)
     ∧ fs st1 !! stored = Some (Fs.File size)).
Proof.
  intros Hupload Hcfg Hdir received stored.
  destruct (accepted_upload_fs env config _ _ _ _ _ _ _ Hupload)
    as (cfg' & dir' & fs1 & Hcfg' & Hdir' & Hfs).
  rewrite Hcfg in Hcfg'. injection Hcfg' as <-.
  rewrite Hdir in Hdir'. injection Hdir' as <-.
  cbv zeta in Hfs. destruct Hfs as (_ & _ & Hkept & Hfs).
  fold received in Hkept, Hfs. fold stored in Hfs.
  cbn [step fst snd]. rewrite deleteRoute_cases. cbv zeta. fold received.
  split.
  - intros Hsame.
    assert (Hthere : fs st1 !! received = Some (Fs.File size)).
    { rewrite Hfs. destruct (String.eqb _ _); [done|].
      rewrite <- Hsame. apply lookup_insert_eq. }
    rewrite Hthere. eexists. split; [done|].
    cbn [fs setFs]. rewrite <- Hsame. apply lookup_delete_eq.
  - intros Hne.
    assert (Hmoved : String.eqb (Path.join [UPLOAD_DIR env config; name])
                       (Path.join [uploadDir; name]) = false).
    { apply String.eqb_neq. intros Heq. apply Hne. unfold received, stored.
      by rewrite Heq. }
    rewrite Hmoved in Hfs.
    assert (Hgone : fs st1 !! received = None).
    { rewrite Hfs. rewrite lookup_insert_ne by done. apply lookup_delete_eq. }
    rewrite Hgone. split; [done|]. rewrite Hfs. apply lookup_insert_eq.
Qed.

Lemma delete_after_upload_witness :
  step Demo.env Demo.config Js afterPicture (DeleteFile "pic.png")
    = Ok (afterPicture, Some fileNotFound)
  ∧ fs afterPicture !! "/srv/app/images/pic.png" = Some (Fs.File 5%N).
Proof.
  apply (proj2 (delete_after_upload Demo.env Demo.config Js (Some "images")
                  "pic.png" 5%N Demo.server afterPicture
                  (Demo.uploadPolicy "images" "images" [".png"] None)
                  "/srv/app/images"
                  ltac:(vm_compute; reflexivity) eq_refl eq_refl)).
  vm_compute. discriminate.
Defined.

(** X19. An upload shows up in the listing: when upload_server.js has
    accepted `name` (a single path segment) under a policy whose
    directory exists and is the root of the download policy that a
    browse request selects, browsing that root answers a listing
    among whose files is `{ filename: name }`. *)
Theorem uploaded_file_is_listed (env : Env) (config : Config)
    (button_name browse_name : option string) (name : string) (size : N)
    (st st1 : Server) (uploadCfg downloadCfg : Member.t) (dir : string) :
  Path.isAbsolute (__dirname env) = true →
  step env config Js st (PostUpload button_name (Some (name, size)))
    = Ok (st1, Some (Json 200 (uploadOk name))) →
  Path.plain name →
  uploadCfgFor config button_name = Some uploadCfg →
  resolveDir (Some (__dirname env)) (Member.upload_directory uploadCfg) = Ok dir →
  downloadCfgFor config browse_name = Some downloadCfg →
  resolveDir (Some (__dirname env)) (Member.root_directory downloadCfg) = Ok dir →
  fs st !! Fs.key (cwd env) dir = Some Fs.Dir →
  ∃ entries,
    step env config Js st1 (GetBrowse browse_name None)
      = Ok (st1, Some (Json 200 (listing "" entries)))
    ∧ (name, Fs.File size) ∈ entries
    ∧ getProp "files" (listing "" entries)
      = JArr (map (λ e, JObj [("filename", JStr (fst e))]) (filter isFile entries))
    ∧ JObj [("filename", JStr name)]
      ∈ map (λ e, JObj [("filename", JStr (fst e))]) (filter isFile entries).
Proof.
  intros Habs Hupload Hname Hcfg Hdir Hdcfg Hroot Hexists.
  pose proof (resolveDir_absolute env Habs _ _ Hdir) as Hdirabs.
  destruct (accepted_upload_fs env config _ _ _ _ _ _ _ Hupload)
    as (cfg' & dir' & fs1 & Hcfg' & Hdir' & Hfs).
  rewrite Hcfg in Hcfg'. injection Hcfg' as <-.
  cbn [uploadDirFor] in Hdir'. rewrite Hdir in Hdir'. injection Hdir' as <-.
  cbv zeta in Hfs. destruct Hfs as (Hwrite & Hcreate & Hkept & Hfs).
  set (received := Fs.key (cwd env) (Path.join [UPLOAD_DIR env config; name])) in *.
  set (stored := Fs.key (cwd env) (Path.join [dir; name])) in *.
  set (segs := Path.normalizeSegments false dir).
  assert (Hkeydir : Fs.key (cwd env) dir = "/" +:+ JsString.joinSlash segs).
  { unfold Fs.key. by rewrite resolve_absolute. }
  assert (Hsplit : JsString.split name = [name]).
  { destruct Hname as (Hsf & _). clear -Hsf.
    pose proof (split_joinSlash [name]) as H. cbn in H. apply H; [done|].
    by constructor. }
  assert (Hnodots : ".." ∉ JsString.split name).
  { rewrite Hsplit. destruct Hname as (_ & _ & _ & Hnd). set_solver. }
  destruct (join_below_root dir name Hdirabs Hnodots) as [Hjabs Hjsegs].
  assert (Hkept_name : filter (λ s, Path.kept s = true) (JsString.split name) = [name]).
  { rewrite Hsplit. rewrite filter_cons_True; [done|].
    destruct Hname as (_ & Hne & Hnd & _). unfold Path.kept.
    apply negb_true_iff, orb_false_iff. split; by apply String.eqb_neq. }
  rewrite Hkept_name in Hjsegs.
  assert (Hstored : Path.segments stored = segs ++ [name]).
  { unfold stored, Fs.key. rewrite resolve_absolute by done.
    rewrite segments_render by apply normalizeSegments_plain. exact Hjsegs. }
  assert (Hdirsegs : Path.segments (Fs.key (cwd env) dir) = segs).
  { rewrite Hkeydir. apply segments_render, normalizeSegments_plain. }
  assert (Hstored_ne : stored ≠ Fs.key (cwd env) dir).
  { intros Heq. rewrite Heq, Hdirsegs in Hstored.
    apply (f_equal length) in Hstored. rewrite length_app in Hstored. cbn in Hstored.
    lia. }
  assert (Hreceived_ne : received ≠ Fs.key (cwd env) dir).
  { intros Heq. unfold Fs.writeFile in Hwrite. fold received in Hwrite.
    by rewrite Heq, Hexists in Hwrite. }
  assert (Hdir1 : fs1 !! Fs.key (cwd env) dir = Some Fs.Dir).
  { revert Hcreate. unfold Fs.existsSync.
    rewrite bool_decide_eq_true_2.
    - intros [= <-]. by rewrite lookup_insert_ne.
    - rewrite lookup_insert_ne by done. by eexists. }
  assert (Hfile : fs st1 !! stored = Some (Fs.File size)).
  { rewrite Hfs. destruct (String.eqb _ _) eqn:Esame.
    - apply String.eqb_eq in Esame. unfold stored. by rewrite <- Esame.
    - apply lookup_insert_eq. }
  assert (Hdirthere : fs st1 !! Fs.key (cwd env) dir = Some Fs.Dir).
  { rewrite Hfs. destruct (String.eqb _ _); [done|].
    rewrite lookup_insert_ne by done. by rewrite lookup_delete_ne. }
  destruct (join_below_root dir "" Hdirabs ltac:(cbn; set_solver)) as [Hrabs Hrsegs].
  assert (Hrootkey : Fs.key (cwd env) (Path.join [dir; ""]) = Fs.key (cwd env) dir).
  { unfold Fs.key. rewrite !resolve_absolute by done. rewrite Hrsegs.
    cbn [JsString.split]. rewrite filter_cons_False by done.
    by rewrite filter_nil, app_nil_r. }
  cbn [step fst snd]. rewrite browseRoute_policy, Hdcfg, Hroot. cbv zeta.
  change (JsString.stripDotRuns (JsString.replaceBackslashes (default "" (orNull None))))
    with "".
  rewrite cleaned_path_starts_with_root; [|done|cbn; set_solver].
  cbn [negb]. unfold Fs.readdir. rewrite Hrootkey, Hdirthere.
  eexists. split; [done|].
  assert (Hin : (name, Fs.File size)
    ∈ omap (λ kn, (λ n, (n, snd kn)) <$> Fs.childName (Fs.key (cwd env) dir) (fst kn))
        (map_to_list (fs st1))).
  { apply list_elem_of_omap. exists (stored, Fs.File size). split.
    - by apply elem_of_map_to_list.
    - cbn [fst snd]. unfold Fs.childName. rewrite Hstored, Hdirsegs.
      rewrite removelast_last, last_snoc.
      by rewrite bool_decide_eq_true_2. }
  split; [exact Hin|]. split; [done|].
  apply (list_elem_of_fmap_2 (λ e : string * Fs.node, JObj [("filename", JStr (fst e))])
           _ (name, Fs.File size)).
  apply list_elem_of_filter. by split.
Qed.

Lemma uploaded_file_is_listed_witness :
  ∃ entries,
    step Demo.env sharedDirConfig Js afterNotes (GetBrowse (Some "out") None)
      = Ok (afterNotes, Some (Json 200 (listing "" entries)))
    ∧ ("notes.txt", Fs.File 5%N) ∈ entries
    ∧ getProp "files" (listing "" entries)
      = JArr (map (λ e, JObj [("filename", JStr (fst e))]) (filter isFile entries))
    ∧ JObj [("filename", JStr "notes.txt")]
      ∈ map (λ e, JObj [("filename", JStr (fst e))]) (filter isFile entries).
Proof.
  apply (uploaded_file_is_listed Demo.env sharedDirConfig (Some "in") (Some "out")
           "notes.txt" 5%N sharedDirServer afterNotes
           (Demo.uploadPolicy "in" "downloads" [".txt"] None)
           (Demo.downloadPolicy "out" "downloads" [".txt"])
           "/srv/app/downloads").
  - reflexivity.
  - vm_compute. reflexivity.
  - by repeat split.
  - reflexivity.
  - reflexivity.
  - reflexivity.
  - reflexivity.
  - vm_compute. reflexivity.
Defined.

(** * The earlier server *)

Section LegacyFacts.
Context (env : Env) (config : Legacy.Config).

Lemma legacy_upload_cases file st :
  Legacy.uploadRoute env config file st =
    match file with
    | None => (st, Json 400 Legacy.noFile)
    | Some (name, size) =>
        if bool_decide (Path.extname name ∈ Legacy.allowed_extensions config) then
          let finalPath := Path.join [Legacy.UPLOAD_DIR env; name] in
          match Fs.writeFile (cwd env) (fs st) finalPath size with
          | Ok fs' => (setFs fs' st,
                       Json 200 (Legacy.uploadOk (ReqFile.mk name finalPath size)))
          | Throw e => (st, ErrorPage 500 e)
          end
        else (st, ErrorPage 500 "File type not allowed")
    end.
Proof.
  unfold Legacy.uploadRoute, Legacy.upload, Legacy.fileFilter,
    Legacy.ALLOWED_EXTENSIONS.
  destruct file as [[name size]|]; [|done]. cbv zeta.
  destruct (bool_decide _); [|done].
  by destruct (Fs.writeFile _ _ _ _).
Qed.

End LegacyFacts.

(** X20. The earlier server filters before it stores: an upload whose
    extension is not in the list is turned down by multer's file
    filter with the error "File type not allowed" and the file system
    is not touched, so a file of that name already in the upload
    directory survives (the current server writes first and deletes
    afterwards). An upload is answered with `success: true` exactly
    when its extension is in the list and the file could be written;
    the file is then in the upload directory with the received size,
    whatever its size, and the answer gives its name and full path. *)
Theorem legacy_filter_before_storing (env : Env) (config : Legacy.Config)
    (name : string) (size : N) (st : Server) :
  let finalPath := Path.join [Legacy.UPLOAD_DIR env; name] in
  (Path.extname name ∉ Legacy.allowed_extensions config →
   Legacy.uploadRoute env config (Some (name, size)) st
   = (st, ErrorPage 500 "File type not allowed"))
  ∧ (∀ st' body,
       Legacy.uploadRoute env config (Some (name, size)) st = (st', Json 200 body) →
       Path.extname name ∈ Legacy.allowed_extensions config
       ∧ body = Legacy.uploadOk (ReqFile.mk name finalPath size)
       ∧ getProp "full_path" body = JStr finalPath
       ∧ st' = setFs (<[Fs.key (cwd env) finalPath := Fs.File size]> (fs st)) st
       ∧ fs st' !! Fs.key (cwd env) finalPath = Some (Fs.File size))
  ∧ (Path.extname name ∈ Legacy.allowed_extensions config →
     fs st !! Fs.parent (Fs.key (cwd env) finalPath) = Some Fs.Dir →
     fs st !! Fs.key (cwd env) finalPath ≠ Some Fs.Dir →
     ∃ st', Legacy.uploadRoute env config (Some (name, size)) st
            = (st', Json 200 (Legacy.uploadOk (ReqFile.mk name finalPath size)))).
Proof.
  intros finalPath. split_and!.
  - intros Hext. rewrite legacy_upload_cases.
    by rewrite bool_decide_eq_false_2.
  - intros st' body. rewrite legacy_upload_cases.
    destruct (bool_decide _) eqn:Ein; [|done].
    apply bool_decide_eq_true in Ein. cbv zeta. fold finalPath.
    destruct (Fs.writeFile _ _ _ _) as [fs'|e] eqn:Ew; [|done].
    apply writeFile_inserts in Ew as ->. intros [= <- <-].
    split_and!; try done. cbn [fs setFs]. apply lookup_insert_eq.
  - intros Hext Hparent Hfree. rewrite legacy_upload_cases.
    rewrite bool_decide_eq_true_2 by done. cbv zeta. fold finalPath.
    unfold Fs.writeFile. rewrite Hparent.
    destruct (fs st !! Fs.key (cwd env) finalPath) as [[sz|]|]; by eauto.
Qed.

Lemma legacy_filter_before_storing_witness :
  Legacy.uploadRoute Demo.env legacyConfig (Some ("tool.exe", 5%N)) Demo.server
  = (Demo.server, ErrorPage 500 "File type not allowed")
  ∧ ∃ st', Legacy.uploadRoute Demo.env legacyConfig (Some ("notes.txt", 5%N)) Demo.server
           = (st', Json 200 (Legacy.uploadOk
                (ReqFile.mk "notes.txt" "/srv/app/uploads/notes.txt" 5%N))).
Proof.
  split.
  - apply (proj1 (legacy_filter_before_storing Demo.env legacyConfig
                    "tool.exe" 5%N Demo.server)).
    apply (bool_decide_unpack _). vm_compute. exact I.
  - apply (proj2 (proj2 (legacy_filter_before_storing Demo.env legacyConfig
                           "notes.txt" 5%N Demo.server))).
    + apply (bool_decide_unpack _). vm_compute. exact I.
    + vm_compute. reflexivity.
    + vm_compute. discriminate.
Defined.







(** * GET /api/browse, upload_server.mjs: the prefix check *)

Section BrowseMjs.
Context (env : Env) (config : Config).




End BrowseMjs.



(** * What a WebSocket client is sent *)

Section Clients.
Context (env : Env) (config : Config).

Lemma deliver_greetedFirst topic formatted client :
  greetedFirst client → greetedFirst (deliver (sensorUpdate topic formatted) client).
Proof.
  intros (greeting & updates & Hinbox & Hinit & Hupdates). unfold deliver.
  destruct (N.eqb _ _); [|by exists greeting, updates].
  exists greeting, (updates ++ [sensorUpdate topic formatted]). cbn [inbox send].
  rewrite Hinbox. split; [done|]. split; [done|].
  apply Forall_app. split; [done|]. by constructor.
Qed.

Lemma step_message_clients variant st topic message now st' answer :
  step env config variant st (MqttMessage topic message now) = Ok (st', answer) →
  wssClients st' = wssClients st
  ∨ ∃ formatted,
      wssClients st' = map (deliver (sensorUpdate topic formatted)) (wssClients st).
Proof.
  cbn [step].
  destruct (decide (topic ∈ sensorTopics st)) as [Hin|Hout].
  - set (format := match variant with
                   | Js => formatSensorData config
                   | Mjs => formatSensorDataMjs env
                   end).
    destruct (format topic (decodeMessage (topicDecoderMap st !! topic) message) now)
      as [formatted|e] eqn:Hfmt.
    + rewrite (onMqttMessage_registered _ _ _ _ _ formatted Hin Hfmt).
      intros [= <- _]. right. by exists formatted.
    + unfold onMqttMessage, mbind, handler_bind, get, lift, when.
      rewrite bool_decide_eq_true_2 by done. by rewrite Hfmt.
  - rewrite onMqttMessage_unregistered by done. intros [= <- _]. by left.
Qed.

Lemma step_greetedFirst variant st ev st' answer :
  Forall greetedFirst (wssClients st) →
  step env config variant st ev = Ok (st', answer) →
  Forall greetedFirst (wssClients st').
Proof.
  intros Hinv Hstep.
  destruct (isMqttMessage ev) eqn:Hm.
  - destruct ev; try done.
    apply step_message_clients in Hstep as [->|[formatted ->]]; [done|].
    apply Forall_fmap. eapply Forall_impl; [exact Hinv|].
    intros client. apply deliver_greetedFirst.
  - destruct (isWsConnection ev) eqn:Hw.
    + destruct ev; try done. injection Hstep as <- _.
      cbn [onWsConnection wssClients setWssClients].
      apply Forall_app. split; [done|]. constructor; [|done].
      eexists _, []. split; [done|]. split; [by eexists|done].
    + destruct (step_keepsTelemetry env config _ _ _ _ _ Hm Hw Hstep) as [_ Hsame].
      by rewrite Hsame.
Qed.

End Clients.

(** X25. A WebSocket client is greeted before it is updated: in every
    state reached from start-up through MQTT events, WebSocket
    connections and upload, download, action, browse, sensors and
    delete requests, the first message of each client is the `init`
    message with the cache as it was when the client connected, and
    every later one is a `sensor_update`; the greeting of a client
    that connects now carries exactly what GET /api/sensors answers
    now. *)
Theorem client_greeted_first (env : Env) (config : Config) (variant : Variant)
    (fs0 : Fs.t) (st0 st : Server) (events : list Event)
    (answers : list (option Response)) :
  startup env config fs0 = Serving st0 →
  run env config variant st0 events = Ok (st, answers) →
  Forall greetedFirst (wssClients st)
  ∧ ∀ st' answer,
      step env config variant st WsConnection = Ok (st', answer) →
      ∃ client,
        wssClients st' = wssClients st ++ [client]
        ∧ readyState client = 1%N
        ∧ inbox client = [JObj [("type", JStr "init"); ("sensors", snapshot st)]]
        ∧ snd (sensorsRoute st) = Json 200 (snapshot st)
        ∧ latestSensorData st' = latestSensorData st.
Proof.
  intros Hstart Hrun. split.
  - assert (H0 : Forall greetedFirst (wssClients st0)).
    { unfold startup in Hstart.
      repeat case_match; try done; injection Hstart as <-; constructor. }
    clear Hstart. revert st0 answers H0 Hrun.
    induction events as [|ev events IH]; intros st0 answers H0.
    + by intros [= <- _].
    + cbn [run]. unfold mbind, result_bind.
      destruct (step env config variant st0 ev) as [[st1 answer]|e] eqn:Estep; [|done].
      destruct (run env config variant st1 events) as [[st2 rest]|e] eqn:Erun; [|done].
      intros [= <- _]. eapply IH; [|exact Erun].
      by eapply step_greetedFirst.
  - intros st' answer [= <- _]. eexists. by split_and!.
Qed.

Lemma client_greeted_first_witness :
  Forall greetedFirst
    (wssClients (onWsConnection (fst afterReconnection))).
Proof.
  assert (Hrun : run Demo.env Demo.config Js Demo.server (reconnection ++ [WsConnection])
                 = Ok (onWsConnection (fst afterReconnection),
                       snd afterReconnection ++ [None]))
    by (vm_compute; reflexivity).
  apply (proj1 (client_greeted_first Demo.env Demo.config Js Demo.disk Demo.server
                  _ _ _ ltac:(vm_compute; reflexivity) Hrun)).
Defined.

(** * Two topics, one cache entry *)



(** * The file event of an upload *)

Section FileEvent.
Context (env : Env) (config : Config).

Lemma dropCommon_app (a b : list string) : Path.dropCommon a (a ++ b) = ([], b).
Proof.
  induction a as [|x a IH]; [by destruct b|].
  cbn [Path.dropCommon app]. by rewrite String.eqb_refl.
Qed.

(** [path.relative] undoes [path.join] with a single plain segment. *)
Lemma relative_join dir name :
  Path.isAbsolute dir = true → Path.plain name →
  Path.relative (cwd env) dir (Path.join [dir; name]) = name.
Proof.
  intros Habs Hname.
  assert (Hsplit : JsString.split name = [name]).
  { destruct Hname as (Hsf & _).
    pose proof (split_joinSlash [name]) as H. cbn in H. apply H; [done|].
    by constructor. }
  assert (Hnodots : ".." ∉ JsString.split name).
  { rewrite Hsplit. destruct Hname as (_ & _ & _ & Hnd). set_solver. }
  destruct (join_below_root dir name Habs Hnodots) as [Hjabs Hjsegs].
  rewrite Hsplit in Hjsegs. rewrite filter_cons_True in Hjsegs.
  2:{ destruct Hname as (_ & Hne & Hnd & _). unfold Path.kept.
      apply negb_true_iff, orb_false_iff. split; by apply String.eqb_neq. }
  rewrite filter_nil in Hjsegs.
  unfold Path.relative. rewrite !resolve_absolute by done.
  rewrite !segments_render by apply normalizeSegments_plain.
  rewrite Hjsegs, dropCommon_app. done.
Qed.

(** What an accepted upload has published. *)
Lemma accepted_upload_published variant button_name name size st st' answered :
  step env config variant st (PostUpload button_name (Some (name, size)))
    = Ok (st', Some (Json 200 (uploadOk answered))) →
  ∃ uploadCfg uploadDir,
    uploadCfgFor config button_name = Some uploadCfg
    ∧ uploadDirFor env config variant uploadCfg = Ok uploadDir
    ∧ Mqtt.published (mqttClient st')
      = Mqtt.published (mqttClient st)
        ++ uploadEvent env variant st uploadDir name size button_name.
Proof.
  rewrite step_upload. cbv zeta. unfold uploadRoute, multer.
  destruct (Fs.writeFile _ _ _ _) as [fs0|e] eqn:Ew; [|done].
  unfold tryCatch. rewrite uploadBodyOf_cases, uploadChecks_cases.
  destruct (uploadCfgFor config button_name) as [uploadCfg|]; [|done].
  cbv zeta. cbn [ReqFile.originalname ReqFile.size ReqFile.path].
  destruct (extensionRejected _ _).
  { by destruct (Fs.unlinkSync _ _ _). }
  destruct (sizeRejected _ _).
  { by destruct (Fs.unlinkSync _ _ _). }
  destruct (uploadDirFor _ _ _ _) as [uploadDir|e] eqn:Edir; [|done].
  rewrite moveUpload_cases. cbv zeta.
  cbn [ReqFile.originalname ReqFile.size ReqFile.path].
  destruct (if Fs.existsSync _ _ _ then _ else _) as [fs1|e]; [|done].
  destruct (String.eqb _ _).
  - intros [= <- _]. exists uploadCfg, uploadDir. split; [done|]. split; [done|].
    by apply uploadEvent_published.
  - destruct (Fs.renameSync _ _ _ _) as [fs2|e]; [|done].
    intros [= <- _]. exists uploadCfg, uploadDir. split; [done|]. split; [done|].
    by apply uploadEvent_published.
Qed.

End FileEvent.

(** X27. The file event names the file: when upload_server.js accepts
    an upload whose name is a single path segment while the MQTT
    client is connected and the `FileEvent` class is exported, the one
    message it publishes goes to `file/uploaded` and is the serialized
    event with the file name itself as its path (the path of the
    stored file relative to the policy's directory), the received size
    and the identifier of the request (empty when none was given). *)
Theorem upload_event_names_file (env : Env) (config : Config)
    (button_name : option string) (name : string) (size : N) (st st' : Server)
    (serializeBinary : string → N → string → list Byte.byte) :
  Path.isAbsolute (__dirname env) = true →
  FileEvent env = Some serializeBinary →
  Mqtt.connected (mqttClient st) = true →
  Path.plain name →
  step env config Js st (PostUpload button_name (Some (name, size)))
    = Ok (st', Some (Json 200 (uploadOk name))) →
  Mqtt.published (mqttClient st')
  = Mqtt.published (mqttClient st)
    ++ [("file/uploaded",
         PBytes (serializeBinary name size (default "" (orNull button_name))))]
  ∧ ∀ uploadCfg uploadDir,
      uploadCfgFor config button_name = Some uploadCfg →
      resolveDir (Some (__dirname env)) (Member.upload_directory uploadCfg)
        = Ok uploadDir →
      Path.relative (cwd env) uploadDir (Path.join [uploadDir; name]) = name.
Proof.
  intros Habs Hevent Hconnected Hname Hupload.
  assert (Hrel : ∀ uploadCfg uploadDir,
    uploadCfgFor config button_name = Some uploadCfg →
    resolveDir (Some (__dirname env)) (Member.upload_directory uploadCfg)
      = Ok uploadDir →
    Path.relative (cwd env) uploadDir (Path.join [uploadDir; name]) = name).
  { intros uploadCfg uploadDir _ Hdir. apply relative_join; [|done].
    by eapply resolveDir_absolute. }
  split; [|exact Hrel].
  destruct (accepted_upload_published env config _ _ _ _ _ _ _ Hupload)
    as (uploadCfg & uploadDir & Hcfg & Hdir & ->).
  f_equal. unfold uploadEvent. rewrite Hevent, Hconnected.
  cbn [uploadDirFor] in Hdir. by rewrite (Hrel uploadCfg uploadDir Hcfg Hdir).
Qed.

Lemma upload_event_names_file_witness :
  Mqtt.published (mqttClient afterEvent)
  = Mqtt.published (mqttClient connectedServer)
    ++ [("file/uploaded", PBytes (list_byte_of_string "notes.txt"))].
Proof.
  apply (proj1 (upload_event_names_file eventEnv Demo.config None "notes.txt" 5%N
                  connectedServer afterEvent
                  (λ relPath _ _, list_byte_of_string relPath)
                  eq_refl eq_refl eq_refl
                  ltac:(by repeat split)
                  ltac:(vm_compute; reflexivity))).
Defined.
